(** * runserver: a single-child process supervisor

    A shallow embedding of [vespalog/src/logger/runserver.cpp] and the
    properties of its pid-file protocol, its stop controller, its
    signal relay and its supervision loop. *)

From Stdlib Require Import Ascii String ZArith Lia.
From stdpp Require Import gmap strings list pretty.

Local Open Scope Z_scope.

(** ** What the platform provides

    The definitions of this part are not code of runserver.cpp: they are
    the C library and kernel interfaces it is compiled against, written
    out the way glibc on Linux defines them. *)

Module Libc.

(** Signal numbers of <signal.h>. *)
Definition SIGINT : Z := 2.
Definition SIGQUIT : Z := 3.
Definition SIGKILL : Z := 9.
Definition SIGTERM : Z := 15.

(** A C [int] is a 32-bit two's complement number, a [long] has 64 bits. *)
Definition wrap (bits : Z) (n : Z) : Z :=
  (n + 2 ^ (bits - 1)) mod 2 ^ bits - 2 ^ (bits - 1).
Definition to_int (n : Z) : Z := wrap 32 n.
Definition to_schar (n : Z) : Z := wrap 8 n.
Definition LONG_MAX : Z := 2 ^ 63 - 1.
Definition LONG_MIN : Z := - 2 ^ 63.

(** The wait-status macros of <sys/wait.h> (bits/waitstatus.h). *)
Definition WEXITSTATUS (status : Z) : Z := Z.shiftr (Z.land status 0xff00) 8.
Definition WTERMSIG (status : Z) : Z := Z.land status 0x7f.
Definition WIFEXITED (status : Z) : bool := WTERMSIG status =? 0.
Definition WIFSIGNALED (status : Z) : bool :=
  0 <? Z.shiftr (to_schar (Z.land status 0x7f + 1)) 1.
Definition WIFSTOPPED (status : Z) : bool := Z.land status 0xff =? 0x7f.
Definition WCOREDUMP (status : Z) : bool := negb (Z.land status 0x80 =? 0).

(** What the parent of a process sees of the argument of [exit]. *)
Definition exit_status (es : Z) : Z := Z.land es 0xff.

(** [isspace] and [isdigit] in the C locale. *)
Definition isspace (c : ascii) : bool :=
  let n := Z.of_nat (nat_of_ascii c) in (n =? 32) || ((9 <=? n) && (n <=? 13)).
Definition isdigit (c : ascii) : bool :=
  let n := Z.of_nat (nat_of_ascii c) in (48 <=? n) && (n <=? 57).
Definition digit_value (c : ascii) : Z := Z.of_nat (nat_of_ascii c) - 48.

Fixpoint skip_spaces (s : string) : string :=
  match s with
  | String c r => if isspace c then skip_spaces r else s
  | EmptyString => s
  end.

(** The value of the longest run of digits that starts [s], after [acc]. *)
Fixpoint digits_value (acc : Z) (s : string) : Z :=
  match s with
  | String c r => if isdigit c then digits_value (10 * acc + digit_value c) r else acc
  | EmptyString => acc
  end.

Definition clamp_long (n : Z) : Z := Z.max LONG_MIN (Z.min LONG_MAX n).

(** [strtol(s, NULL, 10)]: white space, an optional sign, digits; the
    value saturates at the bounds of [long]; 0 when there is no digit. *)
Definition strtol (s : string) : Z :=
  match skip_spaces s with
  | String "-" r => clamp_long (- digits_value 0 r)
  | String "+" r => clamp_long (digits_value 0 r)
  | r => clamp_long (digits_value 0 r)
  end.

(** [atoi(s)] is [(int) strtol(s, NULL, 10)]. *)
Definition atoi (s : string) : Z := to_int (strtol s).

(** The characters of one [fgets(buf, size, f)] on a stream whose
    remaining content is [content]: at most [size - 1] of them, up to and
    with the first newline. *)
Fixpoint take_line (n : nat) (content : string) : string :=
  match n, content with
  | S n', String c r =>
      if Ascii.eqb c "010" then String c EmptyString else String c (take_line n' r)
  | _, _ => EmptyString
  end.

(** [fgets] returns NULL, and leaves the buffer as it was, when the
    stream is at its end before any character was read. *)
Definition fgets (buf : string) (size : nat) (content : string) : string :=
  match content with
  | EmptyString => buf
  | _ => take_line (Nat.pred size) content
  end.

(** The error numbers the model raises; EWOULDBLOCK is EAGAIN on Linux. *)
Inductive errno :=
  EPERM | ENOENT | ESRCH | EINTR | ECHILD | EAGAIN | ENOMEM | EACCES | EMFILE | ENOSPC.

Global Instance errno_eq_dec : EqDecision errno.
Proof. solve_decision. Defined.

(** The result of a system call: 0, or -1 with [errno] set. *)
Inductive sysres := SysOk | SysErr (e : errno).

Definition succeeded (r : sysres) : bool :=
  match r with SysOk => true | SysErr _ => false end.

End Libc.

Import Libc.

(** ** The process and what it can observe

    [World] is the part of the operating system the program looks at. A
    system call is a function of the world; what other processes do in the
    meantime enters only where the program waits (see [Env]). *)

(** Whether this process may signal a given process. *)
Inductive owner := Ours | Foreign.

Global Instance owner_eq_dec : EqDecision owner.
Proof. solve_decision. Defined.

Record World := {
  fs : gmap string string;     (* files: path to content *)
  readonly : gset string;      (* paths that cannot be opened for writing *)
  flocked : gset string;       (* files on which an exclusive flock is held *)
  dirs : gset string;          (* directories one can chdir to *)
  procs : gmap Z owner;        (* the live processes *)
  pgrps : gmap Z owner;        (* the live process groups *)
  environ : gmap string string;
  fds : gset Z;                (* the open descriptors of this process *)
  self : Z;                    (* getpid() *)
  full : bool;                 (* no space left: write() writes nothing *)
  errno_ : errno;              (* the C variable errno *)
}.

Definition set_fs (f : gmap string string → gmap string string) (w : World) : World :=
  {| fs := f (fs w); readonly := readonly w; flocked := flocked w; dirs := dirs w;
     procs := procs w; pgrps := pgrps w; environ := environ w; fds := fds w;
     self := self w; full := full w; errno_ := errno_ w |}.
Definition set_flocked (f : gset string → gset string) (w : World) : World :=
  {| fs := fs w; readonly := readonly w; flocked := f (flocked w); dirs := dirs w;
     procs := procs w; pgrps := pgrps w; environ := environ w; fds := fds w;
     self := self w; full := full w; errno_ := errno_ w |}.
Definition set_environ (f : gmap string string → gmap string string) (w : World) : World :=
  {| fs := fs w; readonly := readonly w; flocked := flocked w; dirs := dirs w;
     procs := procs w; pgrps := pgrps w; environ := f (environ w); fds := fds w;
     self := self w; full := full w; errno_ := errno_ w |}.
Definition set_fds (f : gset Z → gset Z) (w : World) : World :=
  {| fs := fs w; readonly := readonly w; flocked := flocked w; dirs := dirs w;
     procs := procs w; pgrps := pgrps w; environ := environ w; fds := f (fds w);
     self := self w; full := full w; errno_ := errno_ w |}.
Definition set_procs (f : gmap Z owner → gmap Z owner) (w : World) : World :=
  {| fs := fs w; readonly := readonly w; flocked := flocked w; dirs := dirs w;
     procs := f (procs w); pgrps := pgrps w; environ := environ w; fds := fds w;
     self := self w; full := full w; errno_ := errno_ w |}.
Definition set_pgrps (f : gmap Z owner → gmap Z owner) (w : World) : World :=
  {| fs := fs w; readonly := readonly w; flocked := flocked w; dirs := dirs w;
     procs := procs w; pgrps := f (pgrps w); environ := environ w; fds := fds w;
     self := self w; full := full w; errno_ := errno_ w |}.
Definition set_self (pid : Z) (w : World) : World :=
  {| fs := fs w; readonly := readonly w; flocked := flocked w; dirs := dirs w;
     procs := procs w; pgrps := pgrps w; environ := environ w; fds := fds w;
     self := pid; full := full w; errno_ := errno_ w |}.
Definition set_errno (e : errno) (w : World) : World :=
  {| fs := fs w; readonly := readonly w; flocked := flocked w; dirs := dirs w;
     procs := procs w; pgrps := pgrps w; environ := environ w; fds := fds w;
     self := self w; full := full w; errno_ := e |}.

(** What the program does that others can see, in the order it does it. *)
Inductive level := debug | info | warning | error.
Inductive stream := stdout | stderr.

Global Instance level_eq_dec : EqDecision level.
Proof. solve_decision. Defined.
Global Instance stream_eq_dec : EqDecision stream.
Proof. solve_decision. Defined.

Inductive event :=
| Printf (dest : stream) (text : string)     (* printf, fprintf, perror *)
| LOG (lvl : level) (text : string)
| EV_STARTING (name : string)
| EV_STOPPING (name why : string)
| EV_STOPPED (name : string) (pid exitcode : Z)
| Kill (pid sig : Z)                         (* kill(pid, sig) *)
| Killpg (pgrp sig : Z)                      (* killpg(pgrp, sig) *)
| Usleep (usec : Z)
| Sleep (sec : Z)
| System (cmd : string)
| Chdir (dir : string)
| Setenv (name value : string)
| Open (path : string)
| Flock (path : string)
| Close (fd : Z)
| Ftruncate (path : string)
| WriteFd (path text : string)
| Remove (path : string)
| Fork
| Setsid
| Sigaction (sig : Z)                        (* termsig installed for sig *)
| Sigignore (sig : Z)                        (* signal(sig, SIG_IGN) *)
| Cloexec (fd : Z)                           (* fcntl(fd, F_SETFD, FD_CLOEXEC) *)
| Dup2 (fd newfd : Z)
| Execvp (file : string) (args : list string)
| Drain (pipe : stream).                     (* lines of a pipe handed to the log parser *)

Global Instance event_eq_dec : EqDecision event.
Proof. solve_decision. Defined.

(** How a piece of the program ends: it goes on with a value, or it does
    not: the process exits ([exit], or [return] from [main]), aborts, ... *)
Inductive result (A : Type) : Type :=
| Ret (a : A)
| Exit (es : Z)
| Abort
| Throw (what : string)   (* a MsgException on its way up *)
| Exec                    (* execvp replaced the process image *)
| Pending.                (* still running when the script of the environment ends *)
Arguments Ret {A} a.
Arguments Exit {A} es.
Arguments Abort {A}.
Arguments Throw {A} what.
Arguments Exec {A}.
Arguments Pending {A}.

(** A piece of program over a state [S]: the result, the new state and
    what it did. *)
Definition M (S A : Type) : Type := S → result A * S * list event.

Global Instance M_ret {S} : MRet (M S) := λ A a s, (Ret a, s, []).

Global Instance M_bind {S} : MBind (M S) := λ A B k m s,
  match m s with
  | (Ret a, s', t) => let '(r, s'', t') := k a s' in (r, s'', t ++ t')
  | (Exit es, s', t) => (Exit es, s', t)
  | (Abort, s', t) => (Abort, s', t)
  | (Throw what, s', t) => (Throw what, s', t)
  | (Exec, s', t) => (Exec, s', t)
  | (Pending, s', t) => (Pending, s', t)
  end.

Definition emit {S} (e : event) : M S unit := λ s, (Ret tt, s, [e]).
Definition exit {S A} (es : Z) : M S A := λ s, (Exit es, s, []).
Definition abort {S A} : M S A := λ s, (Abort, s, []).
Definition throw {S A} (what : string) : M S A := λ s, (Throw what, s, []).
Definition exec {S A} : M S A := λ s, (Exec, s, []).
Definition pending {S A} : M S A := λ s, (Pending, s, []).
Definition get {S A} (f : S → A) : M S A := λ s, (Ret (f s), s, []).
Definition modify {S} (f : S → S) : M S unit := λ s, (Ret tt, f s, []).
Definition when {S} (b : bool) (m : M S unit) : M S unit := if b then m else mret tt.

(** A piece of program over a part [T] of the state [S]. *)
Definition zoom {S T A} (part : S → T) (put : T → S → S) (m : M T A) : M S A := λ s,
  let '(r, t, ev) := m (part s) in (r, put t s, ev).

Definition nl : string := String "010" EmptyString.

(** [strerror] for the errors the model can raise. *)
Definition strerror (e : errno) : string :=
  match e with
  | EPERM => "Operation not permitted"
  | ENOENT => "No such file or directory"
  | ESRCH => "No such process"
  | EINTR => "Interrupted system call"
  | ECHILD => "No child processes"
  | EAGAIN => "Resource temporarily unavailable"
  | ENOMEM => "Cannot allocate memory"
  | EACCES => "Permission denied"
  | EMFILE => "Too many open files"
  | ENOSPC => "No space left on device"
  end.

(** [kill(pid, sig)] for a pid of at least 1; with sig 0 nothing is sent
    and only the existence and the permission are checked. *)
Definition kill (pid sig : Z) : M World sysres := λ w,
  match procs w !! pid with
  | Some Ours => (Ret SysOk, w, [Kill pid sig])
  | Some Foreign => (Ret (SysErr EPERM), set_errno EPERM w, [Kill pid sig])
  | None => (Ret (SysErr ESRCH), set_errno ESRCH w, [Kill pid sig])
  end.

Definition killpg (pgrp sig : Z) : M World sysres := λ w,
  match pgrps w !! pgrp with
  | Some Ours => (Ret SysOk, w, [Killpg pgrp sig])
  | Some Foreign => (Ret (SysErr EPERM), set_errno EPERM w, [Killpg pgrp sig])
  | None => (Ret (SysErr ESRCH), set_errno ESRCH w, [Killpg pgrp sig])
  end.

(** The lowest descriptor that is not open. *)
Definition lowest_free (s : gset Z) : Z :=
  default (Z.of_nat (size s))
    (head (filter (λ n, n ∉ s) (seqZ 0 (Z.of_nat (size s))))).

(** [open(path, O_RDONLY)]: the descriptor, or -1. *)
Definition open_rdonly (path : string) : M World Z := λ w,
  match fs w !! path with
  | Some _ => let fd := lowest_free (fds w) in
              (Ret fd, set_fds (union {[fd]}) w, [Open path])
  | None => (Ret (-1), set_errno ENOENT w, [Open path])
  end.

(** [open(path, O_WRONLY)] of a file that exists. *)
Definition open_wronly (path : string) : M World Z := λ w,
  if bool_decide (path ∈ readonly w) then (Ret (-1), set_errno EACCES w, [Open path])
  else match fs w !! path with
       | Some _ => let fd := lowest_free (fds w) in
                   (Ret fd, set_fds (union {[fd]}) w, [Open path])
       | None => (Ret (-1), set_errno ENOENT w, [Open path])
       end.

(** [open(path, O_CREAT | O_WRONLY | O_NONBLOCK, 0644)]. *)
Definition open_creat (path : string) : M World Z := λ w,
  if bool_decide (path ∈ readonly w) then (Ret (-1), set_errno EACCES w, [Open path])
  else let fd := lowest_free (fds w) in
       (Ret fd,
        set_fds (union {[fd]})
          (set_fs (λ f, match f !! path with
                        | Some _ => f
                        | None => <[path:=EmptyString]> f
                        end) w),
        [Open path]).

(** [flock(fd, LOCK_EX | LOCK_NB)] on a descriptor open on [path]. *)
Definition flock (path : string) : M World sysres := λ w,
  if bool_decide (path ∈ flocked w)
  then (Ret (SysErr EAGAIN), set_errno EAGAIN w, [Flock path])
  else (Ret SysOk, set_flocked (union {[path]}) w, [Flock path]).

(** [close(fd)]; closing the descriptor that holds the lock on [path]
    gives the lock up. *)
Definition close (fd : Z) : M World unit := λ w,
  (Ret tt, set_fds (λ s, s ∖ {[fd]}) w, [Close fd]).
Definition close_locked (fd : Z) (path : string) : M World unit := λ w,
  (Ret tt, set_flocked (λ s, s ∖ {[path]}) (set_fds (λ s, s ∖ {[fd]}) w), [Close fd]).

Definition remove (path : string) : M World unit := λ w,
  (Ret tt, set_fs (delete path) w, [Remove path]).

Definition ftruncate (path : string) : M World unit := λ w,
  (Ret tt,
   set_fs (λ f, match f !! path with
                | Some _ => <[path:=EmptyString]> f
                | None => f
                end) w,
   [Ftruncate path]).

(** [write(fd, text, strlen(text))] at offset 0 of the file at [path]:
    the number of bytes written. *)
Definition write (path text : string) : M World Z := λ w,
  if full w then (Ret (-1), set_errno ENOSPC w, [WriteFd path text])
  else (Ret (Z.of_nat (String.length text)),
        set_fs (λ f, match f !! path with Some _ => <[path:=text]> f | None => f end) w,
        [WriteFd path text]).

(** [fopen(path, "r")] followed by one [fgets] into [buf] and [fclose]:
    [None] when the file cannot be opened. *)
Definition read_first_line (path buf : string) (size : nat)
  : M World (option string) := λ w,
  match fs w !! path with
  | Some content => (Ret (Some (fgets buf size content)), w, [])
  | None => (Ret None, set_errno ENOENT w, [])
  end.

(** ** class PidFile *)

Record PidFile := { _pidfile : string; _fd : Z }.

Definition with_fd (pf : PidFile) (fd : Z) : PidFile :=
  {| _pidfile := _pidfile pf; _fd := fd |}.

Definition readPid (pf : PidFile) : M World Z :=
  line ← read_first_line (_pidfile pf) "0" 100;
  match line with
  | None => mret 0
  | Some buf => mret (atoi buf)
  end.

Definition isRunning (pf : PidFile) : M World bool :=
  pid ← readPid pf;
  if pid <? 1 then mret false
  else
    r ← kill pid 0;
    e ← get errno_;
    mret (succeeded r || bool_decide (e = EPERM)).

Definition isMine (pf : PidFile) : M World bool :=
  pid ← readPid pf;
  me ← get self;
  mret (pid =? me).

Definition cleanUp (pf : PidFile) : M World PidFile :=
  mine ← isMine pf;
  dead ← (if (mine : bool) then mret true
          else running ← isRunning pf; mret (negb running));
  when (dead : bool) (remove (_pidfile pf));;
  when (0 <=? _fd pf) (close_locked (_fd pf) (_pidfile pf));;
  mret (with_fd pf (-1)).

Definition writeOpen (pf : PidFile) : M World (bool * PidFile) :=
  when (0 <=? _fd pf) (close_locked (_fd pf) (_pidfile pf));;
  fd ← open_creat (_pidfile pf);
  if fd <? 0 then
    e ← get errno_;
    emit (Printf stderr ("could not create pidfile " +:+ _pidfile pf +:+ ": "
                        +:+ strerror e +:+ nl));;
    mret (false, with_fd pf fd)
  else
    r ← flock (_pidfile pf);
    if negb (succeeded r) then
      e ← get errno_;
      emit (Printf stderr ("could not lock pidfile " +:+ _pidfile pf +:+ ": "
                          +:+ strerror e +:+ nl));;
      close fd;;
      mret (false, with_fd pf (-1))
    else
      emit (Cloexec fd);;
      mret (true, with_fd pf fd).

Definition writePid (pf : PidFile) : M World unit :=
  if _fd pf <? 0 then (abort : M World unit)
  else
    ftruncate (_pidfile pf);;
    me ← get self;
    let buf := pretty me +:+ nl in
    let l := Z.of_nat (String.length buf) in
    didw ← write (_pidfile pf) buf;
    if negb (didw =? l) then
      e ← get errno_;
      emit (Printf stderr ("could not write pid to " +:+ _pidfile pf +:+ ": "
                          +:+ strerror e +:+ nl));;
      (exit 1 : M World unit)
    else
      emit (LOG debug ("wrote '" +:+ buf +:+ "' to " +:+ _pidfile pf +:+ " (fd "
                       +:+ pretty (_fd pf) +:+ ")")).

(** ** The signal relay: three flags and the handler that sets them *)

Record SigState := { gotstopsig : Z; lastsig : Z; unhandledsig : Z }.

Definition no_signal : SigState :=
  {| gotstopsig := 0; lastsig := 0; unhandledsig := 0 |}.

Definition termsig (sig : Z) (s : SigState) : SigState :=
  {| gotstopsig := 1; lastsig := sig; unhandledsig := 1 |}.

(** The handler run once for each signal of [sigs], in their order. *)
Definition handle (sigs : list Z) (s : SigState) : SigState :=
  foldl (λ s sig, termsig sig s) s sigs.

(** The store [unhandledsig = 0] of the main loop. *)
Definition forwarded (s : SigState) : SigState :=
  {| gotstopsig := gotstopsig s; lastsig := lastsig s; unhandledsig := 0 |}.

(** ** loop: one run of the child

    What the kernel, the child and the senders of signals do during a run
    is a script: one [Tick] for each turn of the while loop. *)

Inductive wait_result :=
| WaitNone                        (* waitpid returned 0: no change *)
| WaitPid (cpid : Z) (status : Z) (* it returned cpid and stored status *)
| WaitError (e : errno).          (* it returned -1 *)

(** [InputBuf::blockRead] and the parsing of what it read are code of
    llreader.h and llparser.h; of them the loop sees only this. *)
Inductive read_result :=
| ReadData                        (* blockRead returned true *)
| ReadEof                         (* blockRead returned false *)
| ReadThrows (what : string).     (* a MsgException left the reader or the parser *)

Record Tick := {
  t_before : list Z;       (* signals handled during select, the reads and waitpid *)
  t_select : Z;            (* what select returned *)
  t_out_ready : bool;      (* the child's stdout is readable *)
  t_err_ready : bool;      (* the child's stderr is readable *)
  t_out : read_result;
  t_err : read_result;
  t_wait : wait_result;
  t_after_wait : list Z;   (* signals handled after the reaping, before the flags are read *)
  t_late : list Z;         (* signals handled after the flags were read: in the
                              forwarding case between kill() and the store to
                              unhandledsig *)
}.

Record Run := {
  r_pipes : (Z * Z) * (Z * Z) + errno;   (* pstdout and pstderr, or why pipe() failed *)
  r_fork : Z;                            (* what fork() returned *)
  r_exec : bool;                         (* in the child: execvp succeeded *)
  r_errno : errno;                       (* errno after a failed fork or execvp *)
  r_ticks : list Tick;
}.

Record Loop := {
  child : Z;
  outeof : bool;
  erreof : bool;
  wstat : Z;
  sigs : SigState;
}.

Definition set_child (c : Z) (st : Loop) : Loop :=
  {| child := c; outeof := outeof st; erreof := erreof st; wstat := wstat st;
     sigs := sigs st |}.
Definition set_outeof (b : bool) (st : Loop) : Loop :=
  {| child := child st; outeof := b; erreof := erreof st; wstat := wstat st;
     sigs := sigs st |}.
Definition set_erreof (b : bool) (st : Loop) : Loop :=
  {| child := child st; outeof := outeof st; erreof := b; wstat := wstat st;
     sigs := sigs st |}.
Definition set_wstat (ws : Z) (st : Loop) : Loop :=
  {| child := child st; outeof := outeof st; erreof := erreof st; wstat := ws;
     sigs := sigs st |}.
Definition set_sigs (f : SigState → SigState) (st : Loop) : Loop :=
  {| child := child st; outeof := outeof st; erreof := erreof st; wstat := wstat st;
     sigs := f (sigs st) |}.

Definition stream_name (which : stream) : string :=
  match which with stdout => "stdout" | stderr => "stderr" end.
Definition reader_name (which : stream) : string :=
  match which with stdout => "out" | stderr => "err" end.

(** The body of [if (FD_ISSET(fd, &pipes))] for one of the two pipes. *)
Definition read_pipe (which : stream) (fd : Z) (r : read_result) (seteof : Loop → Loop)
  : M Loop unit :=
  emit (LOG debug (reader_name which +:+ " reader has input"));;
  match r with
  | ReadData => emit (Drain which)
  | ReadEof =>
      emit (LOG debug ("eof on " +:+ stream_name which));;
      modify seteof;;
      emit (Close fd)
  | ReadThrows what => throw what
  end.

(** The value of [cpid] and of [wstat] after [waitpid(child, &wstat, WNOHANG)]. *)
Definition waitpid (r : wait_result) (wstat : Z) : Z * Z :=
  match r with
  | WaitNone => (0, wstat)
  | WaitPid cpid status => (cpid, status)
  | WaitError _ => (-1, wstat)
  end.

(** The body of [if (child != 0)]. *)
Definition reap (torun : string) (r : wait_result) : M Loop unit :=
  st ← get id;
  let '(cpid, ws) := waitpid r (wstat st) in
  modify (set_wstat ws);;
  if cpid =? child st then
    if WIFSTOPPED ws then
      emit (LOG info ("child " +:+ pretty cpid +:+ " stopped, waiting for it to continue"))
    else if WIFEXITED ws then
      emit (LOG debug ("child " +:+ pretty cpid +:+ " exit status: "
                       +:+ pretty (WEXITSTATUS ws)));;
      emit (EV_STOPPED torun (child st) (WEXITSTATUS ws));;
      modify (set_child 0)
    else if WIFSIGNALED ws then
      when (negb (WTERMSIG ws =? lastsig (sigs st)))
        (emit (LOG warning ("child died from signal: " +:+ pretty (WTERMSIG ws)));;
         when (WCOREDUMP ws)
           (emit (LOG info ("child " +:+ pretty cpid +:+ " dumped core"))));;
      modify (set_child 0)
    else
      emit (LOG error ("unexpected status " +:+ pretty ws +:+ " from waidpit"));;
      abort
  else if cpid <? 0 then
    emit (LOG error ("waitpid: "
                     +:+ strerror (match r with WaitError e => e | _ => ECHILD end)));;
    abort
  else if negb (cpid =? 0) then
    emit (LOG warning ("unexpected status " +:+ pretty ws +:+ " for pid " +:+ pretty cpid));;
    abort
  else mret tt.

(** The body of [if (unhandledsig && child != 0)]; the signals of [late]
    arrive between [kill] and the store to [unhandledsig]. *)
Definition forward (torun : string) (late : list Z) : M Loop unit :=
  st ← get id;
  if negb (unhandledsig (sigs st) =? 0) && negb (child st =? 0) then
    emit (LOG debug ("got signal " +:+ pretty (lastsig (sigs st)) +:+ ", sending to pid "
                     +:+ pretty (child st)));;
    emit (EV_STOPPING torun ("got signal " +:+ pretty (lastsig (sigs st))));;
    emit (Kill (child st) (lastsig (sigs st)));;
    modify (set_sigs (handle late));;
    modify (set_sigs forwarded)
  else modify (set_sigs (handle late)).

(** One turn of [while (child || !outeof || !erreof)]. *)
Definition loop_body (torun : string) (pstdout0 pstderr0 : Z) (t : Tick) : M Loop unit :=
  modify (set_sigs (handle (t_before t)));;
  st ← get id;
  when (0 <? t_select t)
    (when (negb (outeof st) && t_out_ready t)
       (read_pipe stdout pstdout0 (t_out t) (set_outeof true));;
     when (negb (erreof st) && t_err_ready t)
       (read_pipe stderr pstderr0 (t_err t) (set_erreof true)));;
  when (negb (child st =? 0)) (reap torun (t_wait t));;
  modify (set_sigs (handle (t_after_wait t)));;
  forward torun (t_late t).

Fixpoint loop_while (torun : string) (pstdout0 pstderr0 : Z) (ticks : list Tick)
  : M Loop unit := λ st,
  if negb (child st =? 0) || negb (outeof st) || negb (erreof st) then
    match ticks with
    | [] => pending st
    | t :: ticks' =>
        (loop_body torun pstdout0 pstderr0 t;;
         loop_while torun pstdout0 pstderr0 ticks') st
    end
  else (Ret tt, st, []).

(** [torun]: the command line of the child and its pid. *)
Definition torun_of (run : list string) (child : Z) : string :=
  foldl (λ acc arg, acc +:+ " " +:+ arg) (default EmptyString (head run)) (tail run)
  +:+ " (pid " +:+ pretty child +:+ ")".

Definition loop (svc : string) (run : list string) (r : Run) : M SigState Z :=
  match r_pipes r with
  | inr e => emit (LOG error ("pipe: " +:+ strerror e));; exit 1
  | inl (pstdout, pstderr) =>
      emit (LOG debug ("stdout pipe " +:+ pretty pstdout.1 +:+ " <- " +:+ pretty pstdout.2
                       +:+ "; stderr pipe " +:+ pretty pstderr.1 +:+ " <- "
                       +:+ pretty pstderr.2));;
      emit Fork;;
      let child := r_fork r in
      let run0 := default EmptyString (head run) in
      if child =? 0 then
        emit (Dup2 pstdout.2 1);;
        emit (Dup2 pstderr.2 2);;
        emit (Close pstdout.1);;
        emit (Close pstderr.1);;
        emit (Close pstdout.2);;
        emit (Close pstderr.2);;
        emit (Execvp run0 run);;
        if r_exec r then (exec : M SigState Z)
        else
          emit (LOG error ("exec " +:+ run0 +:+ ": " +:+ strerror (r_errno r)));;
          exit 1
      else if child <? 0 then
        emit (LOG error ("fork(): " +:+ strerror (r_errno r)));;
        exit 1
      else
        emit (LOG debug ("started " +:+ run0 +:+ " (pid " +:+ pretty child +:+ ")"));;
        let torun := torun_of run child in
        emit (EV_STARTING torun);;
        emit (Close pstdout.2);;
        emit (Close pstderr.2);;
        zoom (λ s, {| child := child; outeof := false; erreof := false; wstat := 0;
                      sigs := s |})
             (λ st _, sigs st)
             (loop_while torun pstdout.1 pstderr.1 (r_ticks r);;
              ws ← get wstat;
              mret (if WIFSIGNALED ws then WTERMSIG ws else WEXITSTATUS ws))
  end.

(** ** The detached supervisor: restarts *)

(** One [sleep(1)]: the seconds [time] advances by while it lasts, and
    the signals handled meanwhile. *)
Record Nap := { n_elapsed : Z; n_sigs : list Z }.

(** One turn of the do-while of [main]: the run of the child, the seconds
    it lasted, and the sleeps after it. *)
Record Cycle := { c_run : Run; c_elapsed : Z; c_naps : list Nap }.

Record Script := {
  d_pid : Z;                  (* the pid of the detached process *)
  d_setsid : sysres;
  d_cycles : list Cycle;
}.

Record Daemon := { world : World; signals : SigState; clock : Z }.

Definition set_world (w : World) (d : Daemon) : Daemon :=
  {| world := w; signals := signals d; clock := clock d |}.
Definition set_signals (s : SigState) (d : Daemon) : Daemon :=
  {| world := world d; signals := s; clock := clock d |}.
Definition elapse (sec : Z) (d : Daemon) : Daemon :=
  {| world := world d; signals := signals d; clock := clock d + sec |}.

(** [time(NULL)]. *)
Definition time : M Daemon Z := get clock.

Definition sleep (n : Nap) : M Daemon unit :=
  emit (Sleep 1);;
  modify (elapse (n_elapsed n));;
  modify (λ d, set_signals (handle (n_sigs n) (signals d)) d).

(** [while (!gotstopsig && time(NULL) - laststart < restart) sleep(1);] *)
Fixpoint restart_wait (restart laststart : Z) (naps : list Nap) : M Daemon unit := λ d,
  if (gotstopsig (signals d) =? 0) && (clock d - laststart <? restart) then
    match naps with
    | [] => pending d
    | n :: naps' => (sleep n;; restart_wait restart laststart naps') d
    end
  else (Ret tt, d, []).

(** The body of the do-while of [main]: one run of the child and the
    wait before the next; the status of the run. *)
Definition cycle (restart : Z) (service : string) (run : list string) (c : Cycle)
  : M Daemon Z :=
  laststart ← time;
  stat ← zoom signals set_signals (loop service run (c_run c));
  modify (elapse (c_elapsed c));;
  d ← get id;
  when ((0 <? restart) && (gotstopsig (signals d) =? 0))
    (now ← time;
     let wt := to_int (restart + laststart - now) in
     let wt := if wt <? 0 then 0 else wt in
     emit (LOG info ("will restart in " +:+ pretty wt +:+ " seconds")));;
  restart_wait restart laststart (c_naps c);;
  mret stat.

(** [do { ... } while (!gotstopsig && restart > 0);]: the status of the
    last run. *)
Fixpoint restart_loop (restart : Z) (service : string) (run : list string)
    (cycles : list Cycle) : M Daemon Z :=
  match cycles with
  | [] => pending
  | c :: cycles' =>
      stat ← cycle restart service run c;
      d ← get id;
      if (gotstopsig (signals d) =? 0) && (0 <? restart)
      then restart_loop restart service run cycles'
      else mret stat
  end.

(** [try { ... } catch (MsgException& ex) { ... }] *)
Definition try_catch {S A} (m : M S A) (handler : string → M S A) : M S A := λ s,
  match m s with
  | (Throw what, s', t) => let '(r, s'', t') := handler what s' in (r, s'', t ++ t')
  | other => other
  end.

Definition perror (msg : string) : M World unit :=
  e ← get errno_;
  emit (Printf stderr (msg +:+ ": " +:+ strerror e +:+ nl)).

Definition in_world {A} (m : M World A) : M Daemon A := zoom world set_world m.

(** The detached process once it is a session leader: from the try block
    of [main] to its [exit(stat)]. *)
Definition supervise (restart : Z) (service : string) (run : list string)
    (mypf : PidFile) (cycles : list Cycle) : M Daemon unit :=
  stat ← try_catch
           (in_world (writePid mypf);;
            restart_loop restart service run cycles)
           (λ what, emit (LOG error ("exception: '" +:+ what +:+ "'"));; exit 1);
  when (0 <? restart) (emit (LOG debug ("final exit status: " +:+ pretty stat)));;
  in_world (cleanUp mypf);;
  exit stat.

(** The branch [rsp == 0] of [main]: the detached process. *)
Definition detached (restart : Z) (service : string) (run : list string)
    (mypf : PidFile) (sc : Script) : M Daemon unit :=
  in_world (close 0);;
  fd ← in_world (open_rdonly "/dev/null");
  if negb (fd =? 0) then
    in_world (perror "open /dev/null for reading failed");; exit 1
  else
  in_world (close 1);;
  fd ← in_world (open_wronly "/dev/null");
  if negb (fd =? 1) then
    in_world (perror "open /dev/null for writing failed");; exit 1
  else
  emit (Dup2 1 2);;
  in_world (modify (set_fds (union {[2]})));;
  emit Setsid;;
  match d_setsid sc with
  | SysErr e => in_world (modify (set_errno e);; perror "setsid");; exit 1
  | SysOk =>
      emit (Sigaction SIGINT);;
      emit (Sigaction SIGTERM);;
      supervise restart service run mypf (d_cycles sc)
  end.

(** ** main *)

Record Options := {
  doStop : bool;
  restart : Z;
  service : string;
  pidfile : string;
  killcmd : option string;
}.

Definition defaults : Options :=
  {| doStop := false; restart := 0; service := "runserver";
     pidfile := "vespa-runserver.pid"; killcmd := None |}.

Definition usage_text (prog : string) : string :=
  "Usage: " +:+ prog +:+ nl
  +:+ "       [-s service] [-r restartinterval] [-p pidfile] program [args ...]" +:+ nl
  +:+ "or:    [-p pidfile] [-k killcmd] -S" +:+ nl.

Definition usage {S A} (prog : string) (es : Z) : M S A :=
  emit (Printf stderr (usage_text prog));;
  exit es.

(** [getopt(argc, argv, "k:s:r:p:Sh")] is code of the C library. Of an
    option character [c] of the command line that is in the option string
    it returns [c]; of any other it returns '?', after it has written its
    diagnostic on stderr, in the words of glibc: [opterr] is left at 1. *)
Definition optstring : list ascii := ["k"; "s"; "r"; "p"; "S"; "h"]%char.

Definition getopt (prog : string) (c : ascii) : M World ascii :=
  if bool_decide (c ∈ optstring) then mret c
  else
    emit (Printf stderr (prog +:+ ": invalid option -- '" +:+ String c "'" +:+ nl));;
    mret "?"%char.

(** The while loop over getopt: [opts] are the options of the command
    line in the order getopt comes to them, each option character with the
    argument getopt leaves in [optarg] (it plays no part for -S, for -h and
    for a character that is no option). A command line on which the last
    option lacks its argument is not among these lists. *)
Fixpoint options (prog : string) (opts : list (ascii * string)) (o : Options)
  : M World Options :=
  match opts with
  | [] => mret o
  | (c, optarg) :: opts' =>
      ch ← getopt prog c;
      if Ascii.eqb ch "s" then
        options prog opts' {| doStop := doStop o; restart := restart o; service := optarg;
                              pidfile := pidfile o; killcmd := killcmd o |}
      else if Ascii.eqb ch "r" then
        options prog opts' {| doStop := doStop o; restart := atoi optarg;
                              service := service o; pidfile := pidfile o;
                              killcmd := killcmd o |}
      else if Ascii.eqb ch "p" then
        options prog opts' {| doStop := doStop o; restart := restart o;
                              service := service o; pidfile := optarg;
                              killcmd := killcmd o |}
      else if Ascii.eqb ch "S" then
        options prog opts' {| doStop := true; restart := restart o; service := service o;
                              pidfile := pidfile o; killcmd := killcmd o |}
      else if Ascii.eqb ch "k" then
        options prog opts' {| doStop := doStop o; restart := restart o;
                              service := service o; pidfile := pidfile o;
                              killcmd := Some optarg |}
      else usage prog (if Ascii.eqb ch "h" then 0 else 1)
  end.

(** What [main] cannot know from the world it starts in. *)
Record Env := {
  vespaHome : string;                      (* vespa::Defaults::vespaHome() *)
  system : string → World → Z * World;     (* system(cmd): its status and what cmd did *)
  others : Z → World → World;              (* what other processes do during the
                                              usleep of turn cnt *)
  forked : Z;                              (* what fork() returns in main *)
  fork_errno : errno;
  started : Z;                             (* time(NULL) when the supervisor starts *)
  script : Script;
}.

Definition chdir (dir : string) : M World bool := λ w,
  if bool_decide (dir ∈ dirs w) then (Ret true, w, [Chdir dir])
  else (Ret false, set_errno ENOENT w, [Chdir dir]).

Definition setenv (name value : string) : M World unit := λ w,
  (Ret tt, set_environ (insert name value) w, [Setenv name value]).

Definition run_system (e : Env) (cmd : string) : M World Z := λ w,
  let '(status, w') := system e cmd w in (Ret status, w', [System cmd]).

Definition usleep (e : Env) (cnt : Z) (usec : Z) : M World unit := λ w,
  (Ret tt, others e cnt w, [Usleep usec]).

(** The body of the for loop of the stop mode; [false] is its [break]. *)
Definition stop_turn (e : Env) (pid : Z) (cnt : Z) : M World bool :=
  usleep e cnt 100000;;
  when ((300 <? cnt) && (Z.rem cnt 100 =? 0)) (killpg pid SIGTERM;; mret tt);;
  r ← killpg pid 0;
  if succeeded r then
    when (Z.rem cnt 10 =? 0) (emit (Printf stdout "."));;
    when (cnt =? 900)
      (emit (Printf stdout (nl +:+ "giving up, sending KILL signal" +:+ nl));;
       killpg pid SIGKILL;; mret tt);;
    mret true
  else
    emit (Printf stdout ("DONE" +:+ nl));;
    mret false.

(** [for (int cnt(0); cnt < 1800; cnt++) { ... }] of the stop mode, from
    [cnt] on; no more than 1800 turns are ever needed. *)
Fixpoint stop_wait (e : Env) (pid : Z) (turns : nat) (cnt : Z) : M World unit :=
  match turns with
  | O => mret tt
  | S turns' =>
      if cnt <? 1800 then
        go ← stop_turn e pid cnt;
        if (go : bool) then stop_wait e pid turns' (cnt + 1) else mret tt
      else mret tt
  end.

(** The branch [if (doStop)] of [main]. *)
Definition stop (e : Env) (o : Options) (mypf : PidFile) : M World unit :=
  running ← isRunning mypf;
  (if (running : bool) then
     pid ← readPid mypf;
     match killcmd o with
     | Some cmd =>
         emit (Printf stdout (service o +:+ " was running with pid " +:+ pretty pid
                             +:+ ", running '" +:+ cmd +:+ "' to stop it" +:+ nl));;
         status ← run_system e cmd;
         when (negb (status =? 0))
           (emit (Printf stderr ("WARNING: stop command '" +:+ cmd
                                +:+ "' had some problem" +:+ nl)))
     | None =>
         emit (Printf stdout (service o +:+ " was running with pid " +:+ pretty pid
                             +:+ ", sending SIGTERM" +:+ nl));;
         r ← killpg pid SIGTERM;
         if negb (succeeded r) then
           err ← get errno_;
           emit (Printf stderr ("could not signal " +:+ pretty pid +:+ ": "
                               +:+ strerror err +:+ nl));;
           exit 1
         else mret tt
     end;;
     emit (Printf stdout ("Waiting for exit (up to 60 seconds)" +:+ nl));;
     stop_wait e pid 1800 0
   else
     emit (Printf stdout (service o +:+ " not running according to " +:+ pidfile o
                          +:+ nl)));;
  cleanUp mypf;;
  exit 0.

(** The detached process begins with no signal handled, at time [t]. *)
Definition from_start {A} (t : Z) (m : M Daemon A) : M World A := λ w,
  let '(r, d, ev) := m {| world := w; signals := no_signal; clock := t |} in
  (r, world d, ev).

(** The start mode of [main], after the options. Where [main] returns,
    the destructor of [mypf] closes its descriptor; after a fork that
    succeeded the detached process still holds the lock through its copy. *)
Definition start (e : Env) (prog : string) (o : Options) (args : list string)
    (mypf : PidFile) : M World unit :=
  if bool_decide (args = []) || bool_decide (killcmd o ≠ None) then usage prog 1
  else
  running ← isRunning mypf;
  if (running : bool) then
    pid ← readPid mypf;
    emit (Printf stderr ("runserver already running with pid " +:+ pretty pid +:+ nl));;
    exit 0
  else
  opened ← writeOpen mypf;
  let mypf := opened.2 in
  if negb opened.1 then perror (pidfile o);; exit 1
  else
  emit Fork;;
  let rsp := forked e in
  if rsp =? 0 then
    modify (λ w, set_procs (insert (d_pid (script e)) Ours)
                   (set_self (d_pid (script e)) w));;
    from_start (started e) (detached (restart o) (service o) args mypf (script e))
  else if rsp <? 0 then
    modify (set_errno (fork_errno e));;
    perror "fork";;
    close_locked (_fd mypf) (_pidfile mypf);;
    exit 1
  else
    emit (Printf stdout ("runserver(" +:+ service o +:+ ") running with pid: "
                        +:+ pretty rsp +:+ nl));;
    close (_fd mypf);;
    exit 0.

(** [main(argc, argv)]: [prog] is argv[0], [opts] the options getopt
    reads and [args] the arguments from [optind] on. *)
Definition main (e : Env) (prog : string) (opts : list (ascii * string))
    (args : list string) : M World unit :=
  emit (Sigignore SIGQUIT);;
  o ← options prog opts defaults;
  root ← get (λ w, environ w !! "ROOT");
  envROOT ← match root with
             | Some (String c r) => mret (String c r)
             | _ => setenv "ROOT" (vespaHome e);; mret (vespaHome e)
             end;
  changed ← chdir envROOT;
  if negb changed then
    err ← get errno_;
    emit (Printf stderr ("Cannot chdir to " +:+ envROOT +:+ ": " +:+ strerror err
                         +:+ nl));;
    exit 1
  else
  let mypf := {| _pidfile := pidfile o; _fd := -1 |} in
  if doStop o then stop e o mypf else start e prog o args mypf.

(** * The vocabulary of the properties *)

(** The first line of a file, without its newline. *)
Fixpoint first_line (content : string) : string :=
  match content with
  | String c r => if Ascii.eqb c "010" then EmptyString else String c (first_line r)
  | EmptyString => EmptyString
  end.

Fixpoint all_spaces (s : string) : bool :=
  match s with
  | String c r => isspace c && all_spaces r
  | EmptyString => true
  end.

(** A line a decimal integer can be read from: it begins, after white
    space, with an optional sign and a digit. *)
Definition decimal (line : string) : Prop :=
  ∃ ws sign d rest,
    line = ws +:+ sign +:+ String d rest ∧
    all_spaces ws = true ∧
    (sign = EmptyString ∨ sign = "+" ∨ sign = "-") ∧
    isdigit d = true.

(** The pid recorded in the pid file as the program reads it: 0 when
    there is no file. *)
Definition owner_pid (pf : PidFile) (w : World) : Z :=
  match fs w !! _pidfile pf with
  | Some content => atoi (fgets "0" 100 content)
  | None => 0
  end.

(** The recorded pid is at least 1 and names a live process, one that a
    null signal reaches or that it may not be sent to. *)
Definition running (pf : PidFile) (w : World) : bool :=
  bool_decide (1 ≤ owner_pid pf w) && bool_decide (is_Some (procs w !! owner_pid pf w)).

(** The null-signal probe of [isRunning], when it is made. *)
Definition probe (pf : PidFile) (w : World) : list event :=
  if bool_decide (1 ≤ owner_pid pf w) then [Kill (owner_pid pf w) 0] else [].

(** The directory [main] changes to, and the world and the events of
    [main] up to there. *)
Definition root_dir (e : Env) (w : World) : string :=
  match environ w !! "ROOT" with
  | Some (String c r) => String c r
  | _ => vespaHome e
  end.

Definition at_home (e : Env) (w : World) : World :=
  match environ w !! "ROOT" with
  | Some (String c r) => w
  | _ => set_environ (insert "ROOT" (vespaHome e)) w
  end.

Definition preamble (e : Env) (w : World) : list event :=
  Sigignore SIGQUIT
  :: match environ w !! "ROOT" with
     | Some (String c r) => []
     | _ => [Setenv "ROOT" (vespaHome e)]
     end
  ++ [Chdir (root_dir e w)].

(** The object [mypf] of [main]. *)
Definition mypf_of (o : Options) : PidFile := {| _pidfile := pidfile o; _fd := -1 |}.

Arguments preamble : simpl never.
Arguments probe : simpl never.
Arguments running : simpl never.
Arguments owner_pid : simpl never.

(** An event by which no signal reaches any process: a call of kill or
    killpg is one only with the null signal, a shell command never is. *)
Definition signals_nobody (ev : event) : Prop :=
  match ev with
  | Kill _ sig | Killpg _ sig => sig = 0
  | System _ => False
  | _ => True
  end.

(** An event that neither opens nor locks nor changes a file, and that
    forks nothing. *)
Definition starts_nothing (ev : event) : Prop :=
  match ev with
  | Open _ | Flock _ | Fork | Ftruncate _ | WriteFd _ _ | Remove _ => False
  | _ => True
  end.

(** The stop loop, seen from outside. [answers w pgrp]: a null signal
    reaches the process group. [gone_at e pgrp k]: whatever else happens,
    the group answers the probes of the turns before [k] and no later one. *)
Definition answers (w : World) (pgrp : Z) : bool :=
  bool_decide (pgrps w !! pgrp = Some Ours).

Definition gone_at (e : Env) (pgrp k : Z) : Prop :=
  ∀ cnt w, 0 ≤ cnt → answers (others e cnt w) pgrp = bool_decide (cnt < k).

(** The events of turn [cnt] of the stop loop, after its usleep, when the
    group is gone at [k]. *)
Definition turn_events (pid k cnt : Z) : list event :=
  (if (300 <? cnt) && (Z.rem cnt 100 =? 0) then [Killpg pid SIGTERM] else [])
  ++ Killpg pid 0
  :: (if cnt <? k then
        (if Z.rem cnt 10 =? 0 then [Printf stdout "."] else [])
        ++ (if cnt =? 900
            then [Printf stdout (nl +:+ "giving up, sending KILL signal" +:+ nl);
                  Killpg pid SIGKILL]
            else [])
      else [Printf stdout ("DONE" +:+ nl)]).

(** The turns of the stop loop from [cnt] on, [n] of them. *)
Fixpoint turns_events (pid k : Z) (n : nat) (cnt : Z) : list event :=
  match n with
  | O => []
  | S n' => Usleep 100000 :: turn_events pid k cnt ++ turns_events pid k n' (cnt + 1)
  end.

(** Each event with the number of usleeps before it, counted from [t]:
    the tenths of a second spent waiting. *)
Fixpoint stamped (t : Z) (tr : list event) : list (Z * event) :=
  match tr with
  | [] => []
  | Usleep _ :: tr' => stamped (t + 1) tr'
  | ev :: tr' => (t, ev) :: stamped t tr'
  end.

(** The time slept in usleep, in microseconds. *)
Fixpoint slept (tr : list event) : Z :=
  match tr with
  | [] => 0
  | Usleep usec :: tr' => usec + slept tr'
  | _ :: tr' => slept tr'
  end.

(** [keeps P m]: whatever way [m] ends, and wherever the script of the
    environment leaves it, it ends in a state of [P] when it starts in one. *)
Definition keeps {S A} (P : S → Prop) (m : M S A) : Prop :=
  ∀ s r s' tr, P s → m s = (r, s', tr) → P s'.

(** The stop was requested. *)
Definition stop_requested (s : SigState) : Prop := gotstopsig s ≠ 0.

(** The same of the state of the loop and of the detached process. *)
Definition loop_stop (st : Loop) : Prop := stop_requested (sigs st).
Definition daemon_stop (d : Daemon) : Prop := stop_requested (signals d).

(** The signals of a trace that were sent with kill: to whom, and which. *)
Definition kills (tr : list event) : list (Z * Z) :=
  omap (λ ev, match ev with Kill pid sig => Some (pid, sig) | _ => None end) tr.

(** What a wait status says of the way a process ended. *)
Inductive outcome := Exited (code : Z) | Signaled (sig : Z).

Definition decode (ws : Z) : option outcome :=
  if WIFEXITED ws then Some (Exited (WEXITSTATUS ws))
  else if WIFSIGNALED ws then Some (Signaled (WTERMSIG ws))
  else None.

Definition outcome_status (o : outcome) : Z :=
  match o with Exited code => code | Signaled sig => sig end.

(** The status with which, in the script of a run, waitpid reports the
    end of the child [pid]: the first status of that pid that is not a
    stop. *)
Fixpoint reaped (pid : Z) (ticks : list Tick) : option Z :=
  match ticks with
  | [] => None
  | t :: ticks' =>
      match t_wait t with
      | WaitPid cpid ws =>
          if (cpid =? pid) && negb (WIFSTOPPED ws) then Some ws else reaped pid ticks'
      | _ => reaped pid ticks'
      end
  end.

(** [emits P m]: all the events of [m] are of [P]. *)
Definition emits {S A} (P : event → Prop) (m : M S A) : Prop :=
  ∀ s r s' tr, m s = (r, s', tr) → Forall P tr.

(** The children started in a trace. *)
Definition is_start (ev : event) : bool :=
  match ev with EV_STARTING _ => true | _ => false end.

Definition starts (tr : list event) : nat := length (filter is_start tr).

(** A sleep(1) that lasts one second of the clock and that no handled
    signal interrupts. *)
Definition sound_sleep (n : Nap) : Prop := n_elapsed n = 1 ∧ n_sigs n = [].



(** *** What the further properties speak of *)

(** A string of decimal digits. *)
Fixpoint all_digits (s : string) : bool :=
  match s with
  | String c r => isdigit c && all_digits r
  | EmptyString => true
  end.

(** The option characters with a case of their own in the switch of [main]. *)
Definition recognized (ch : ascii) : Prop :=
  ch ∈ ["s"; "r"; "p"; "S"; "k"]%char.

(** The arguments given with the option [ch], in the order of the command
    line. *)
Definition values (ch : ascii) (opts : list (ascii * string)) : list string :=
  (filter (λ p, p.1 = ch) opts).*2.

(** The events of one of the two pipes of the child: the handing of what
    was read from it to the log parser, and the closing of its read end. *)
Definition pipe_events (which : stream) (fd : Z) (tr : list event) : list event :=
  filter (λ ev, ev = Drain which ∨ ev = Close fd) tr.

(** The read end of a pipe, of [pstdout[0]] and [pstderr[0]]. *)
Definition read_end (which : stream) (po pe : Z) : Z :=
  match which with stdout => po | stderr => pe end.

(** The end-of-file flag of a pipe. *)
Definition eof_of (which : stream) (st : Loop) : bool :=
  match which with stdout => outeof st | stderr => erreof st end.

(** An event by which no process but [pid] is signalled. *)
Definition signals_only (pid : Z) (ev : event) : Prop :=
  match ev with
  | Kill p _ => p = pid
  | Killpg _ _ | System _ => False
  | _ => True
  end.

(** [holds I P m]: from a state of [I], whatever way [m] ends it ends in a
    state of [I], and all its events are of [P]. *)
Definition holds {S A} (I : S → Prop) (P : event → Prop) (m : M S A) : Prop :=
  ∀ s r s' tr, I s → m s = (r, s', tr) → I s' ∧ Forall P tr.

(** The child of the loop is the process forked, until it is reaped. *)
Definition child_is (c : Z) (st : Loop) : Prop := child st = c ∨ child st = 0.

(** The EV_STOPPED events of a trace. *)
Definition is_stopped (ev : event) : bool :=
  match ev with EV_STOPPED _ _ _ => true | _ => false end.

Definition stopped (tr : list event) : list event := filter is_stopped tr.

(** What the reaping of the child with status [ws] reports. *)
Definition stopped_of (torun : string) (pid ws : Z) : list event :=
  if WIFEXITED ws then [EV_STOPPED torun pid (WEXITSTATUS ws)] else [].

(** * Concrete invocations *)

Module Example.

(** An environment in which nothing else happens. *)
Definition env : Env :=
  {| vespaHome := "/opt/vespa";
     system := λ _ w, (0, w);
     others := λ _ w, w;
     forked := 4711;
     fork_errno := EAGAIN;
     started := 1000;
     script := {| d_pid := 4711; d_setsid := SysOk; d_cycles := [] |} |}.

(** A world with the files [files] and the processes [live]. *)
Definition world_of (files : gmap string string) (live : gmap Z owner) : World :=
  {| fs := files; readonly := ∅; flocked := ∅; dirs := {[ "/opt/vespa" ]};
     procs := live; pgrps := live; environ := ∅; fds := {[ 0; 1; 2 ]};
     self := 4242; full := false; errno_ := ENOENT |}.

(** No pid file, no process. *)
Definition empty : World := world_of ∅ ∅.

(** The pid file of a supervisor that died: nobody holds the lock, and
    the pid it recorded, 812, is by now the pid of a process of another
    user. *)
Definition stale : World :=
  world_of {[ "vespa-runserver.pid" := "812" +:+ nl ]} {[ 812 := Foreign ]}.

(** A supervisor with pid 812 is running. *)
Definition busy : World :=
  world_of {[ "vespa-runserver.pid" := "812" +:+ nl ]} {[ 812 := Ours ]}.

(** The pid file of a supervisor that died, left behind: no process has
    the pid it recorded, and nobody holds the lock. *)
Definition left_behind : World :=
  world_of {[ "vespa-runserver.pid" := "812" +:+ nl ]} ∅.

(** A pid file that holds no number. *)
Definition garbled : World :=
  world_of {[ "vespa-runserver.pid" := "not a pid" +:+ nl ]} {[ 812 := Ours ]}.

(** The options after -S, after nothing, and after -k stop.sh. *)
Definition stopping : Options :=
  {| doStop := true; restart := 0; service := "runserver";
     pidfile := "vespa-runserver.pid"; killcmd := None |}.

(** An environment in which the process group [pgrp] answers the probes
    of the turns before [k] and then is gone. *)
Definition fading (pgrp k : Z) : Env :=
  {| vespaHome := "/opt/vespa";
     system := λ _ w, (0, w);
     others := λ cnt w,
       set_pgrps (λ _, if cnt <? k then {[ pgrp := Ours ]} else ∅) w;
     forked := 4711;
     fork_errno := EAGAIN;
     started := 1000;
     script := {| d_pid := 4711; d_setsid := SysOk; d_cycles := [] |} |}.

(** A turn of the loop in which nothing happens, and one in which both
    pipes are at their end and waitpid reports [status] for pid 500. *)
Definition idle : Tick :=
  {| t_before := []; t_select := 0; t_out_ready := false; t_err_ready := false;
     t_out := ReadData; t_err := ReadData; t_wait := WaitNone;
     t_after_wait := []; t_late := [] |}.
Definition ended (status : Z) : Tick :=
  {| t_before := []; t_select := 2; t_out_ready := true; t_err_ready := true;
     t_out := ReadEof; t_err := ReadEof; t_wait := WaitPid 500 status;
     t_after_wait := []; t_late := [] |}.

(** A turn in which SIGTERM arrives during select while the child runs. *)
Definition interrupted : Tick :=
  {| t_before := [SIGTERM]; t_select := -1; t_out_ready := false;
     t_err_ready := false; t_out := ReadData; t_err := ReadData;
     t_wait := WaitNone; t_after_wait := []; t_late := [] |}.

(** A turn in which SIGTERM arrives during select and SIGINT between the
    call of kill and the store to [unhandledsig]. *)
Definition overtaken : Tick :=
  {| t_before := [SIGTERM]; t_select := -1; t_out_ready := false;
     t_err_ready := false; t_out := ReadData; t_err := ReadData;
     t_wait := WaitNone; t_after_wait := []; t_late := [SIGINT] |}.

(** A run of /bin/false as pid 500: it exits with code 1. *)
Definition run_false : Run :=
  {| r_pipes := inl ((4, 5), (6, 7)); r_fork := 500; r_exec := true;
     r_errno := EAGAIN; r_ticks := [idle; ended 256] |}.

Definition sound : Nap := {| n_elapsed := 1; n_sigs := [] |}.

(** The run lasts 2 seconds; up to 4 sleeps follow. *)
Definition once : Cycle :=
  {| c_run := run_false; c_elapsed := 2; c_naps := [sound; sound; sound; sound] |}.

Definition lock : PidFile := {| _pidfile := "vespa-runserver.pid"; _fd := 3 |}.

(** The detached process when it enters its try block. *)
Definition detached_start : Daemon :=
  {| world := world_of {[ "vespa-runserver.pid" := EmptyString ]} ∅;
     signals := no_signal; clock := 1000 |}.

(** The loop with the child 500 running and nothing recorded, and with
    SIGTERM recorded. *)
Definition supervising : Loop :=
  {| child := 500; outeof := false; erreof := false; wstat := 0; sigs := no_signal |}.
Definition terminating : Loop :=
  {| child := 500; outeof := false; erreof := false; wstat := 0;
     sigs := termsig SIGTERM no_signal |}.

(** The pid file is open and the disk is full. *)
Definition no_space : World :=
  {| fs := {[ "vespa-runserver.pid" := "812" +:+ nl ]}; readonly := ∅; flocked := ∅;
     dirs := {[ "/opt/vespa" ]}; procs := ∅; pgrps := ∅; environ := ∅;
     fds := {[ 0; 1; 2; 3 ]}; self := 4242; full := true; errno_ := ENOENT |}.

(** A world in which the home of vespa is missing. *)
Definition homeless : World :=
  {| fs := ∅; readonly := ∅; flocked := ∅; dirs := ∅; procs := ∅; pgrps := ∅;
     environ := ∅; fds := {[ 0; 1; 2 ]}; self := 4242; full := false;
     errno_ := EPERM |}.

(** A world with /dev/null, as the program is started in. *)
Definition booted : World :=
  {| fs := {[ "/dev/null" := EmptyString ]}; readonly := ∅; flocked := ∅;
     dirs := {[ "/opt/vespa" ]}; procs := ∅; pgrps := ∅; environ := ∅;
     fds := {[ 0; 1; 2 ]}; self := 4242; full := false; errno_ := ENOENT |}.

(** The options after -S -k stop.sh. *)
Definition stopping_with : Options :=
  {| doStop := true; restart := 0; service := "runserver";
     pidfile := "vespa-runserver.pid"; killcmd := Some "stop.sh" |}.

(** The environment as the forked child sees it: fork returned 0. *)
Definition child_env : Env :=
  {| vespaHome := "/opt/vespa";
     system := λ _ w, (0, w);
     others := λ _ w, w;
     forked := 0;
     fork_errno := EAGAIN;
     started := 1000;
     script := {| d_pid := 4711; d_setsid := SysOk; d_cycles := [once] |} |}.

(** A sleep during which SIGTERM is handled. *)
Definition woken : Nap := {| n_elapsed := 1; n_sigs := [SIGTERM] |}.


End Example.

(** * Properties *)

(** ** Reading the monad *)

Lemma bind_run {S A B} (m : M S A) (k : A → M S B) (s : S) :
  (m ≫= k) s =
  match m s with
  | (Ret a, s', t) => let '(r, s'', t') := k a s' in (r, s'', t ++ t')
  | (Exit es, s', t) => (Exit es, s', t)
  | (Abort, s', t) => (Abort, s', t)
  | (Throw what, s', t) => (Throw what, s', t)
  | (Exec, s', t) => (Exec, s', t)
  | (Pending, s', t) => (Pending, s', t)
  end.
Proof. reflexivity. Qed.

Lemma bind_inv_ret {S A B} (m : M S A) (k : A → M S B) (s s'' : S) b tr :
  (m ≫= k) s = (Ret b, s'', tr) →
  ∃ a s' t t', m s = (Ret a, s', t) ∧ k a s' = (Ret b, s'', t') ∧ tr = t ++ t'.
Proof.
  rewrite bind_run. destruct (m s) as [[[a| | | | |] s'] t]; try discriminate.
  destruct (k a s') as [[r s3] t'] eqn:Hk. intros [= -> -> <-]. eauto 10.
Qed.

(** Membership in a trace built with cons and app. *)
Ltac mem := repeat (rewrite elem_of_app || rewrite elem_of_cons || rewrite elem_of_nil).

(** One bind after the other. *)
Ltac run := repeat (rewrite bind_run; simpl).

(** ** What a piece of program keeps *)

Section Keeps.
Context {S : Type} (P : S → Prop).

Lemma keeps_ret {A} (a : A) : keeps P (mret a).
Proof. by intros s r s' tr HP [= _ <- _]. Qed.

Lemma keeps_bind {A B} (m : M S A) (k : A → M S B) :
  keeps P m → (∀ a, keeps P (k a)) → keeps P (m ≫= k).
Proof.
  unfold keeps. intros Hm Hk s r s' tr HP. rewrite bind_run.
  destruct (m s) as [[ra s1] t1] eqn:Hms. specialize (Hm _ _ _ _ HP Hms).
  destruct ra as [a| | | | |]; try (by intros [= _ <- _]).
  destruct (k a s1) as [[rb s2] t2] eqn:Hks. intros [= _ <- _].
  exact (Hk _ _ _ _ _ Hm Hks).
Qed.

Lemma keeps_emit (ev : event) : keeps P (emit ev).
Proof. by intros s r s' tr HP [= _ <- _]. Qed.

Lemma keeps_exit {A} (es : Z) : keeps P (exit es : M S A).
Proof. by intros s r s' tr HP [= _ <- _]. Qed.

Lemma keeps_abort {A} : keeps P (abort : M S A).
Proof. by intros s r s' tr HP [= _ <- _]. Qed.

Lemma keeps_throw {A} (what : string) : keeps P (throw what : M S A).
Proof. by intros s r s' tr HP [= _ <- _]. Qed.

Lemma keeps_exec {A} : keeps P (exec : M S A).
Proof. by intros s r s' tr HP [= _ <- _]. Qed.

Lemma keeps_pending {A} : keeps P (pending : M S A).
Proof. by intros s r s' tr HP [= _ <- _]. Qed.

Lemma keeps_get {A} (f : S → A) : keeps P (get f).
Proof. by intros s r s' tr HP [= _ <- _]. Qed.

Lemma keeps_modify (f : S → S) : (∀ s, P s → P (f s)) → keeps P (modify f).
Proof. intros Hf s r s' tr HP [= _ <- _]. by apply Hf. Qed.

Lemma keeps_when (b : bool) (m : M S unit) : keeps P m → keeps P (when b m).
Proof. destruct b; [done|]. intros _. apply keeps_ret. Qed.

Lemma keeps_if {A} (b : bool) (m1 m2 : M S A) :
  keeps P m1 → keeps P m2 → keeps P (if b then m1 else m2).
Proof. by destruct b. Qed.

Lemma keeps_try_catch {A} (m : M S A) (h : string → M S A) :
  keeps P m → (∀ what, keeps P (h what)) → keeps P (try_catch m h).
Proof.
  unfold keeps. intros Hm Hh s r s' tr HP. unfold try_catch.
  destruct (m s) as [[ra s1] t1] eqn:Hms. specialize (Hm _ _ _ _ HP Hms).
  destruct ra as [a| | |what| |]; try (by intros [= _ <- _]).
  destruct (h what s1) as [[rb s2] t2] eqn:Hhs. intros [= _ <- _].
  exact (Hh _ _ _ _ _ Hm Hhs).
Qed.

(** A piece of program over a part of the state that [P] does not
    look at. *)
Lemma keeps_zoom_frame {T A} (part : S → T) (put : T → S → S) (m : M T A) :
  (∀ t s, P s → P (put t s)) → keeps P (zoom part put m).
Proof.
  intros Hput s r s' tr HP. unfold zoom.
  destruct (m (part s)) as [[ra t] ev]. intros [= _ <- _]. by apply Hput.
Qed.

(** A piece of program over a part of the state that has its own
    invariant. *)
Lemma keeps_zoom {T A} (Q : T → Prop) (part : S → T) (put : T → S → S) (m : M T A) :
  keeps Q m → (∀ s, P s → Q (part s)) → (∀ t s, Q t → P (put t s)) →
  keeps P (zoom part put m).
Proof.
  unfold keeps. intros Hm Hpart Hput s r s' tr HP. unfold zoom.
  destruct (m (part s)) as [[ra t] ev] eqn:Hms. intros [= _ <- _].
  apply Hput. exact (Hm _ _ _ _ (Hpart _ HP) Hms).
Qed.
End Keeps.

(** Goals [keeps P m], by the shape of [m]. *)
Ltac keeps_tac :=
  repeat first
    [ apply keeps_ret | apply keeps_emit | apply keeps_exit | apply keeps_abort
    | apply keeps_throw | apply keeps_exec | apply keeps_pending | apply keeps_get
    | apply keeps_bind; [|intros ?]
    | apply keeps_when
    | apply keeps_modify; intros ? ?
    | match goal with
      | |- keeps _ (if ?b then _ else _) => destruct b
      | |- keeps _ (match ?x with _ => _ end) => destruct x
      | |- keeps _ (let '(_, _) := ?x in _) => destruct x
      end ].

(** ** What a piece of program emits *)

Section Emits.
Context {S : Type} (P : event → Prop).

Lemma emits_ret {A} (a : A) : emits (S:=S) P (mret a).
Proof. by intros s r s' tr [= _ _ <-]. Qed.

Lemma emits_bind {A B} (m : M S A) (k : A → M S B) :
  emits P m → (∀ a, emits P (k a)) → emits P (m ≫= k).
Proof.
  unfold emits. intros Hm Hk s r s' tr. rewrite bind_run.
  destruct (m s) as [[ra s1] t1] eqn:Hms. specialize (Hm _ _ _ _ Hms).
  destruct ra as [a| | | | |]; try (by intros [= _ _ <-]).
  destruct (k a s1) as [[rb s2] t2] eqn:Hks. intros [= _ _ <-].
  apply Forall_app. split; [done|]. exact (Hk _ _ _ _ _ Hks).
Qed.

Lemma emits_emit (ev : event) : P ev → emits (S:=S) P (emit ev).
Proof. intros Hev s r s' tr [= _ _ <-]. by constructor. Qed.

Lemma emits_exit {A} (es : Z) : emits P (exit es : M S A).
Proof. by intros s r s' tr [= _ _ <-]. Qed.

Lemma emits_abort {A} : emits P (abort : M S A).
Proof. by intros s r s' tr [= _ _ <-]. Qed.

Lemma emits_throw {A} (what : string) : emits P (throw what : M S A).
Proof. by intros s r s' tr [= _ _ <-]. Qed.

Lemma emits_exec {A} : emits P (exec : M S A).
Proof. by intros s r s' tr [= _ _ <-]. Qed.

Lemma emits_pending {A} : emits P (pending : M S A).
Proof. by intros s r s' tr [= _ _ <-]. Qed.

Lemma emits_get {A} (f : S → A) : emits P (get f).
Proof. by intros s r s' tr [= _ _ <-]. Qed.

Lemma emits_modify (f : S → S) : emits P (modify f).
Proof. by intros s r s' tr [= _ _ <-]. Qed.

Lemma emits_when (b : bool) (m : M S unit) : emits P m → emits P (when b m).
Proof. destruct b; [done|]. intros _. apply emits_ret. Qed.

Lemma emits_zoom {T A} (part : S → T) (put : T → S → S) (m : M T A) :
  emits P m → emits P (zoom part put m).
Proof.
  unfold emits. intros Hm s r s' tr. unfold zoom.
  destruct (m (part s)) as [[ra t] ev] eqn:Hms. intros [= _ _ <-].
  exact (Hm _ _ _ _ Hms).
Qed.
End Emits.

(** Goals [emits P m], by the shape of [m]. *)
Ltac emits_tac :=
  repeat first
    [ apply emits_ret | apply emits_exit | apply emits_abort
    | apply emits_throw | apply emits_exec | apply emits_pending | apply emits_get
    | apply emits_modify
    | apply emits_emit; try done
    | apply emits_bind; [|intros ?]
    | apply emits_when
    | match goal with
      | |- emits _ (if ?b then _ else _) => destruct b
      | |- emits _ (match ?x with _ => _ end) => destruct x
      | |- emits _ (let '(_, _) := ?x in _) => destruct x
      end ].

(** ** The C library *)

Section Parsing.

Lemma digits_value_nondigit (s : string) :
  (∀ d rest, s = String d rest → isdigit d = false) → digits_value 0 s = 0.
Proof.
  destruct s as [|c r]; [reflexivity|]. intros H. simpl. by rewrite (H c r).
Qed.

Lemma decimal_space (c : ascii) (s : string) :
  isspace c = true → decimal s → decimal (String c s).
Proof.
  intros Hc (ws & sg & d & rest & -> & Hws & Hsg & Hd).
  exists (String c ws), sg, d, rest. simpl. rewrite Hc, Hws. auto.
Qed.

Lemma decimal_digit (d : ascii) (rest : string) :
  isdigit d = true → decimal (String d rest).
Proof. intros Hd. exists EmptyString, EmptyString, d, rest. simpl. auto. Qed.

Lemma decimal_signed (c d : ascii) (rest : string) :
  c = "+"%char ∨ c = "-"%char → isdigit d = true → decimal (String c (String d rest)).
Proof.
  intros Hc Hd. exists EmptyString, (String c EmptyString), d, rest. simpl.
  repeat split; auto. destruct Hc as [-> | ->]; auto.
Qed.

(** How a decimal line can begin. *)
Lemma decimal_inv (c : ascii) (s : string) :
  decimal (String c s) →
  (isspace c = true ∧ decimal s) ∨ isdigit c = true ∨
  ((c = "+"%char ∨ c = "-"%char) ∧ ∃ d rest, s = String d rest ∧ isdigit d = true).
Proof.
  intros (ws & sg & d & rest & Heq & Hws & Hsg & Hd).
  destruct ws as [|c' ws]; simpl in Heq, Hws.
  - destruct Hsg as [-> | [-> | ->]]; simpl in Heq; injection Heq as -> ->; eauto 10.
  - injection Heq as -> ->. apply andb_prop in Hws as [Hc Hws].
    left. split; [done|]. by exists ws, sg, d, rest.
Qed.

Lemma strtol_not_decimal (s : string) : ¬ decimal s → strtol s = 0.
Proof.
  unfold strtol. induction s as [|c r IH]; intros Hn; [reflexivity|].
  simpl. destruct (isspace c) eqn:Hc.
  { apply IH. intros Hd. apply Hn. by apply decimal_space. }
  assert (Hdig : isdigit c = false).
  { destruct (isdigit c) eqn:Hd; [|done]. exfalso. apply Hn. by apply decimal_digit. }
  assert (Hsigned : c = "+"%char ∨ c = "-"%char → digits_value 0 r = 0).
  { intros Hsg. apply digits_value_nondigit. intros d rest ->.
    destruct (isdigit d) eqn:Hd; [|done]. exfalso. apply Hn. by apply decimal_signed. }
  destruct (decide (c = "-"%char)) as [-> | Hm].
  { rewrite Hsigned by auto. reflexivity. }
  destruct (decide (c = "+"%char)) as [-> | Hp].
  { rewrite Hsigned by auto. reflexivity. }
  assert (Hgo : clamp_long (digits_value 0 (String c r)) = 0).
  { simpl. rewrite Hdig. reflexivity. }
  destruct c as [[] [] [] [] [] [] [] []]; try exact Hgo; congruence.
Qed.

Lemma take_line_head (n : nat) (d : ascii) (r s : string) :
  take_line n r = String d s → ∃ r', r = String d r'.
Proof.
  destruct n, r as [|c r']; simpl; try discriminate.
  destruct (Ascii.eqb c "010"); intros [= -> _]; eauto.
Qed.

Lemma decimal_take_line (n : nat) (content : string) :
  decimal (take_line n content) → decimal (first_line content).
Proof.
  revert n. induction content as [|c r IH]; intros n.
  { destruct n; simpl; auto. }
  destruct n as [|n]; simpl.
  { intros (ws & sg & d & rest & Heq & _). exfalso.
    destruct ws, sg; simpl in Heq; discriminate. }
  destruct (Ascii.eqb c "010") eqn:Hnl.
  { apply Ascii.eqb_eq in Hnl as ->. intros Hd. exfalso.
    apply decimal_inv in Hd as [[_ Hd] | [Hd | [_ (d & rest & Hd & _)]]];
      [|discriminate..].
    destruct Hd as (ws & sg & d & rest & Heq & _). destruct ws, sg; discriminate. }
  intros Hd. apply decimal_inv in Hd as [[Hc Hd] | [Hd | [Hc (d & rest & Heq & Hd)]]].
  - apply decimal_space; [done|]. by apply (IH n).
  - by apply decimal_digit.
  - apply take_line_head in Heq as [r' ->]. simpl.
    destruct (Ascii.eqb d "010") eqn:E.
    { apply Ascii.eqb_eq in E as ->. discriminate. }
    by apply decimal_signed.
Qed.

End Parsing.

(** ** The pid file *)

Lemma kill_result (pid sig : Z) (w : World) :
  (kill pid sig w).1.1 =
  Ret (match procs w !! pid with
       | Some Ours => SysOk
       | Some Foreign => SysErr EPERM
       | None => SysErr ESRCH
       end).
Proof. unfold kill. by destruct (procs w !! pid) as [[]|]. Qed.

Lemma readPid_run (pf : PidFile) (w : World) :
  readPid pf w =
  match fs w !! _pidfile pf with
  | Some content => (Ret (atoi (fgets "0" 100 content)), w, [])
  | None => (Ret 0, set_errno ENOENT w, [])
  end.
Proof.
  unfold readPid, read_first_line. rewrite bind_run.
  by destruct (fs w !! _pidfile pf).
Qed.

Lemma set_errno_id (w : World) : set_errno (errno_ w) w = w.
Proof. by destruct w. Qed.

Lemma readPid_errno (pf : PidFile) (w : World) :
  ∃ e, readPid pf w = (Ret (owner_pid pf w), set_errno e w, []).
Proof.
  rewrite readPid_run. unfold owner_pid.
  destruct (fs w !! _pidfile pf); [exists (errno_ w); by rewrite set_errno_id | by eexists].
Qed.

Lemma isRunning_run (pf : PidFile) (w : World) :
  ∃ e, isRunning pf w = (Ret (running pf w), set_errno e w, probe pf w).
Proof.
  unfold isRunning, running, probe. rewrite bind_run.
  destruct (readPid_errno pf w) as [e ->]. simpl.
  set (pid := owner_pid pf w). destruct (Z.ltb_spec pid 1) as [Hlt|Hge].
  - rewrite bool_decide_eq_false_2 by lia. by exists e.
  - rewrite bool_decide_eq_true_2 by lia. simpl.
    rewrite bind_run. unfold kill. simpl.
    destruct (procs w !! pid) as [[]|]; simpl; by eexists.
Qed.

Lemma running_errno (pf : PidFile) (e : errno) (w : World) :
  running pf (set_errno e w) = running pf w.
Proof. reflexivity. Qed.

Lemma isMine_run (pf : PidFile) (w : World) :
  ∃ e, isMine pf w = (Ret (owner_pid pf w =? self w), set_errno e w, []).
Proof.
  unfold isMine. rewrite bind_run. destruct (readPid_errno pf w) as [e ->].
  by exists e.
Qed.

(** [cleanUp] of a [PidFile] that holds no descriptor. *)
Lemma cleanUp_unlocked (pf : PidFile) (w : World) :
  _fd pf < 0 →
  let mine := owner_pid pf w =? self w in
  let dead := mine || negb (running pf w) in
  ∃ e, cleanUp pf w =
       (Ret (with_fd pf (-1)),
        (if dead then set_fs (delete (_pidfile pf)) else id) (set_errno e w),
        (if mine then [] else probe pf w) ++ (if dead then [Remove (_pidfile pf)] else [])).
Proof.
  intros Hfd. unfold cleanUp. rewrite bind_run.
  destruct (isMine_run pf w) as [e ->]. simpl.
  destruct (owner_pid pf w =? self w) eqn:Hmine; simpl.
  - rewrite (proj2 (Z.leb_gt _ _)) by lia. by exists e.
  - rewrite !bind_run. destruct (isRunning_run pf (set_errno e w)) as [e' ->].
    rewrite running_errno. simpl. rewrite (proj2 (Z.leb_gt _ _)) by lia.
    exists e'. destruct (running pf w); simpl; by rewrite ?app_nil_r.
Qed.

(** ** main: the options and the way to the two modes *)

Lemma ret_bind_run {S A B} (a : A) (k : A → M S B) (s : S) :
  (mret a ≫= k) s = k a s.
Proof. rewrite bind_run. simpl. by destruct (k a s) as [[r s'] tr]. Qed.

(** One option: what getopt makes of it, and the switch. *)
Lemma options_cons (prog : string) (c : ascii) (optarg : string)
    (opts : list (ascii * string)) (o : Options) (w : World) :
  options prog ((c, optarg) :: opts) o w =
  if bool_decide (c ∈ optstring) then
    (if Ascii.eqb c "s" then
       options prog opts {| doStop := doStop o; restart := restart o; service := optarg;
                            pidfile := pidfile o; killcmd := killcmd o |}
     else if Ascii.eqb c "r" then
       options prog opts {| doStop := doStop o; restart := atoi optarg;
                            service := service o; pidfile := pidfile o;
                            killcmd := killcmd o |}
     else if Ascii.eqb c "p" then
       options prog opts {| doStop := doStop o; restart := restart o;
                            service := service o; pidfile := optarg;
                            killcmd := killcmd o |}
     else if Ascii.eqb c "S" then
       options prog opts {| doStop := true; restart := restart o; service := service o;
                            pidfile := pidfile o; killcmd := killcmd o |}
     else if Ascii.eqb c "k" then
       options prog opts {| doStop := doStop o; restart := restart o;
                            service := service o; pidfile := pidfile o;
                            killcmd := Some optarg |}
     else usage prog (if Ascii.eqb c "h" then 0 else 1)) w
  else
    (Exit 1, w,
     [Printf stderr (prog +:+ ": invalid option -- '" +:+ String c "'" +:+ nl);
      Printf stderr (usage_text prog)]).
Proof.
  simpl options. unfold getopt. case_bool_decide.
  - by rewrite ret_bind_run.
  - rewrite bind_run. reflexivity.
Qed.

Lemma options_ret (prog : string) (opts : list (ascii * string)) (o0 o : Options)
    (w : World) :
  (options prog opts o0 w).1.1 = Ret o → options prog opts o0 w = (Ret o, w, []).
Proof.
  revert o0. induction opts as [|[c optarg] opts IH]; intros o0.
  { simpl. by intros [= ->]. }
  rewrite options_cons. case_bool_decide; [|discriminate].
  repeat (destruct (Ascii.eqb c _); [apply IH|]).
  discriminate.
Qed.

Lemma main_run (e : Env) (prog : string) (opts : list (ascii * string))
    (args : list string) (w : World) (o : Options) :
  (options prog opts defaults w).1.1 = Ret o →
  root_dir e w ∈ dirs w →
  main e prog opts args w =
  let '(r, w', tr) := (if doStop o then stop e o (mypf_of o)
                       else start e prog o args (mypf_of o)) (at_home e w) in
  (r, w', preamble e w ++ tr).
Proof.
  intros Ho Hdir. unfold main. rewrite bind_run. simpl.
  rewrite bind_run, (options_ret _ _ _ _ _ Ho). simpl.
  unfold root_dir, at_home, preamble in *. rewrite !bind_run. simpl.
  destruct (environ w !! "ROOT") as [[|c r]|] eqn:Hroot; simpl;
    repeat (rewrite bind_run; unfold chdir; simpl);
    rewrite bool_decide_eq_true_2 by done; simpl;
    fold (mypf_of o);
    by destruct (if doStop o then _ else _) as [[r' w'] tr].
Qed.

Lemma at_home_files (e : Env) (w : World) :
  fs (at_home e w) = fs w ∧ procs (at_home e w) = procs w ∧
  self (at_home e w) = self w ∧ flocked (at_home e w) = flocked w ∧
  readonly (at_home e w) = readonly w ∧ pgrps (at_home e w) = pgrps w.
Proof. unfold at_home. by destruct (environ w !! "ROOT") as [[|c r]|]. Qed.

Lemma at_home_pid (e : Env) (pf : PidFile) (w : World) :
  owner_pid pf (at_home e w) = owner_pid pf w ∧
  running pf (at_home e w) = running pf w ∧
  probe pf (at_home e w) = probe pf w.
Proof. unfold at_home. by destruct (environ w !! "ROOT") as [[|c r]|]. Qed.

Lemma preamble_signals_nobody (e : Env) (w : World) :
  Forall signals_nobody (preamble e w).
Proof.
  unfold preamble. destruct (environ w !! "ROOT") as [[|c r]|];
    repeat constructor.
Qed.

Lemma probe_signals_nobody (pf : PidFile) (w : World) :
  Forall signals_nobody (probe pf w).
Proof. unfold probe. case_bool_decide; repeat constructor. Qed.

(** ** The stop mode *)

(** C9. In stop mode, when the pid file names no running process, the
    program says so on its standard output, removes the pid file and exits
    with status 0; the only calls of kill are null-signal probes, and no
    stop command is run. *)
Theorem stop_when_not_running (e : Env) (prog : string) (opts : list (ascii * string))
    (args : list string) (w : World) (o : Options) :
  (options prog opts defaults w).1.1 = Ret o →
  doStop o = true →
  root_dir e w ∈ dirs w →
  running (mypf_of o) w = false →
  ∃ w' tr,
    main e prog opts args w = (Exit 0, w', tr) ∧
    exit_status 0 = 0 ∧
    Printf stdout (service o +:+ " not running according to " +:+ pidfile o +:+ nl) ∈ tr ∧
    Forall signals_nobody tr ∧
    Remove (pidfile o) ∈ tr ∧
    fs w' = delete (pidfile o) (fs w) ∧
    flocked w' = flocked w.
Proof.
  intros Ho Hstop Hdir Hrun.
  rewrite (main_run _ _ _ _ _ _ Ho Hdir), Hstop. unfold stop.
  destruct (at_home_pid e (mypf_of o) w) as (Hpid & Hrun' & Hprobe).
  destruct (at_home_files e w) as (Hfs & _ & _ & Hlock & _).
  pose proof (preamble_signals_nobody e w) as Hpre.
  pose proof (probe_signals_nobody (mypf_of o) w) as Hkill.
  set (pre := preamble e w) in *. clearbody pre.
  rewrite bind_run.
  destruct (isRunning_run (mypf_of o) (at_home e w)) as [e1 ->].
  rewrite Hrun', Hrun, Hprobe. simpl. repeat (rewrite bind_run; simpl).
  destruct (cleanUp_unlocked (mypf_of o) (set_errno e1 (at_home e w))) as [e2 ->];
    [simpl; lia|].
  change (running (mypf_of o) (set_errno e1 (at_home e w)))
    with (running (mypf_of o) (at_home e w)).
  change (owner_pid (mypf_of o) (set_errno e1 (at_home e w)))
    with (owner_pid (mypf_of o) (at_home e w)).
  change (probe (mypf_of o) (set_errno e1 (at_home e w)))
    with (probe (mypf_of o) (at_home e w)).
  rewrite Hrun', Hrun, Hpid, Hprobe, orb_true_r. simpl.
  set (pr := probe (mypf_of o) w) in *. clearbody pr.
  set (pr' := if _ =? _ then [] else pr).
  assert (Hkill' : Forall signals_nobody pr').
  { subst pr'. destruct (_ =? _); [constructor | done]. }
  clearbody pr'.
  do 2 eexists. split; [reflexivity|]. split; [reflexivity|].
  split; [|split; [|split; [|split]]].
  - rewrite !elem_of_app, !elem_of_cons. auto.
  - rewrite !Forall_app, !Forall_cons, !Forall_app. repeat split; auto.
    repeat constructor.
  - rewrite !elem_of_app, !elem_of_cons, !elem_of_app, !elem_of_cons. auto 10.
  - simpl. by rewrite Hfs.
  - done.
Qed.

(** ** The start mode *)

Lemma preamble_starts_nothing (e : Env) (w : World) :
  Forall starts_nothing (preamble e w).
Proof.
  unfold preamble. destruct (environ w !! "ROOT") as [[|c r]|];
    repeat constructor.
Qed.

Lemma running_probe (pf : PidFile) (w : World) :
  running pf w = true → probe pf w = [Kill (owner_pid pf w) 0].
Proof.
  unfold running, probe. intros [H _]%andb_prop. by rewrite H.
Qed.

(** C10. In start mode, when the pid file names a running process, the
    program probes that process, prints its pid to standard error and exits
    with status 0: it opens and locks nothing, forks nothing and leaves the
    pid file as it is. *)
Theorem start_when_running (e : Env) (prog : string) (opts : list (ascii * string))
    (args : list string) (w : World) (o : Options) :
  (options prog opts defaults w).1.1 = Ret o →
  doStop o = false →
  args ≠ [] →
  killcmd o = None →
  root_dir e w ∈ dirs w →
  running (mypf_of o) w = true →
  ∃ w' tr,
    main e prog opts args w = (Exit 0, w', tr) ∧
    exit_status 0 = 0 ∧
    tr = preamble e w ++
         [Kill (owner_pid (mypf_of o) w) 0;
          Printf stderr ("runserver already running with pid "
                        +:+ pretty (owner_pid (mypf_of o) w) +:+ nl)] ∧
    Forall starts_nothing tr ∧
    fs w' = fs w ∧ flocked w' = flocked w ∧ fds w' = fds w.
Proof.
  intros Ho Hstop Hargs Hkill Hdir Hrun.
  rewrite (main_run _ _ _ _ _ _ Ho Hdir), Hstop. unfold start.
  destruct (at_home_pid e (mypf_of o) w) as (Hpid & Hrun' & Hprobe).
  pose proof (preamble_starts_nothing e w) as Hpre.
  set (pre := preamble e w) in *. clearbody pre.
  rewrite Hkill, bool_decide_eq_false_2 by done.
  rewrite bool_decide_eq_false_2 by (by intros []). simpl.
  rewrite bind_run.
  destruct (isRunning_run (mypf_of o) (at_home e w)) as [e1 ->].
  rewrite Hrun', Hrun, Hprobe, (running_probe _ _ Hrun). simpl.
  rewrite bind_run.
  destruct (readPid_errno (mypf_of o) (set_errno e1 (at_home e w))) as [e2 ->].
  change (owner_pid (mypf_of o) (set_errno e1 (at_home e w)))
    with (owner_pid (mypf_of o) (at_home e w)).
  rewrite Hpid. simpl. repeat (rewrite bind_run; simpl).
  do 2 eexists. split; [reflexivity|]. split; [reflexivity|].
  split; [reflexivity|]. split.
  { rewrite Forall_app. split; [done|]. repeat constructor. }
  unfold at_home. by destruct (environ w !! "ROOT") as [[|c r]|].
Qed.

(** ** The stop loop *)

Lemma killpg_run (pgrp sig : Z) (w : World) :
  ∃ r e, killpg pgrp sig w = (Ret r, set_errno e w, [Killpg pgrp sig]) ∧
         succeeded r = answers w pgrp.
Proof.
  unfold killpg, answers. destruct (pgrps w !! pgrp) as [[]|].
  - exists SysOk, (errno_ w). by rewrite set_errno_id.
  - by exists (SysErr EPERM), EPERM.
  - by exists (SysErr ESRCH), ESRCH.
Qed.

Lemma answers_errno (e : errno) (w : World) (pgrp : Z) :
  answers (set_errno e w) pgrp = answers w pgrp.
Proof. reflexivity. Qed.

Lemma stop_turn_run (e : Env) (pid k cnt : Z) (w : World) :
  gone_at e pid k → 0 ≤ cnt →
  ∃ w', stop_turn e pid cnt w =
        (Ret (bool_decide (cnt < k)), w', Usleep 100000 :: turn_events pid k cnt).
Proof.
  intros Hgone Hcnt. unfold stop_turn, turn_events, usleep.
  rewrite bind_run. simpl. rewrite bind_run.
  assert (Hresend : ∃ w1,
    when ((300 <? cnt) && (Z.rem cnt 100 =? 0)) (killpg pid SIGTERM ≫= λ _, mret tt)
      (others e cnt w) =
    (Ret tt, w1, if (300 <? cnt) && (Z.rem cnt 100 =? 0)
                 then [Killpg pid SIGTERM] else []) ∧
    answers w1 pid = bool_decide (cnt < k)).
  { destruct ((300 <? cnt) && (Z.rem cnt 100 =? 0)); simpl.
    - rewrite bind_run.
      destruct (killpg_run pid SIGTERM (others e cnt w)) as (r & e1 & -> & _).
      simpl. eexists. split; [reflexivity|]. rewrite answers_errno. by apply Hgone.
    - eexists. split; [reflexivity|]. by apply Hgone. }
  destruct Hresend as (w1 & -> & Hans). rewrite bind_run.
  destruct (killpg_run pid 0 w1) as (r & e1 & -> & Hr). rewrite Hr, Hans.
  case_bool_decide as Hk.
  - rewrite (proj2 (Z.ltb_lt _ _) Hk). repeat (rewrite bind_run; simpl).
    destruct (Z.rem cnt 10 =? 0); simpl; repeat (rewrite bind_run; simpl);
      destruct (cnt =? 900); simpl; repeat (rewrite bind_run; simpl).
    all: try (destruct (killpg_run pid SIGKILL (set_errno e1 w1)) as (r' & e2 & -> & _);
              simpl).
    all: eexists; repeat f_equal; by rewrite <- ?app_assoc.
  - rewrite (proj2 (Z.ltb_ge cnt k)) by lia. repeat (rewrite bind_run; simpl).
    by eexists.
Qed.

Lemma stop_wait_run (e : Env) (pid k : Z) :
  gone_at e pid k →
  ∀ (n : nat) (cnt : Z) (w : World),
    0 ≤ cnt ≤ k → cnt ≤ 1800 → 1800 - cnt ≤ Z.of_nat n →
    ∃ w', stop_wait e pid n cnt w =
          (Ret tt, w', turns_events pid k (Z.to_nat (Z.min (k + 1) 1800 - cnt)) cnt).
Proof.
  intros Hgone. induction n as [|n IH]; intros cnt w Hcnt Hmax Hn.
  { assert (cnt = 1800) as -> by lia. simpl.
    replace (Z.to_nat _) with 0%nat by lia. by eexists. }
  simpl. destruct (Z.ltb_spec cnt 1800) as [Hlt|Hge].
  - rewrite bind_run.
    destruct (stop_turn_run e pid k cnt w Hgone) as [w1 ->]; [lia|].
    case_bool_decide as Hk.
    + destruct (IH (cnt + 1) w1) as [w2 ->]; [lia..|].
      replace (Z.to_nat (Z.min (k + 1) 1800 - cnt))
        with (S (Z.to_nat (Z.min (k + 1) 1800 - (cnt + 1)))) by lia.
      simpl. by eexists.
    + replace (Z.to_nat (Z.min (k + 1) 1800 - cnt)) with 1%nat by lia.
      simpl. eexists. by rewrite !app_nil_r.
  - replace (Z.to_nat _) with 0%nat by lia. by eexists.
Qed.

Lemma turn_events_awake (pid k cnt : Z) :
  Forall (λ ev, ∀ usec, ev ≠ Usleep usec) (turn_events pid k cnt).
Proof.
  unfold turn_events.
  destruct ((300 <? cnt) && (Z.rem cnt 100 =? 0)), (cnt <? k), (Z.rem cnt 10 =? 0),
    (cnt =? 900); simpl; repeat constructor; discriminate.
Qed.

Lemma slept_awake (a b : list event) :
  Forall (λ ev, ∀ usec, ev ≠ Usleep usec) a → slept (a ++ b) = slept b.
Proof.
  induction 1 as [|ev a Hev _ IH]; [done|]. simpl.
  destruct ev; try done. by destruct (Hev usec).
Qed.

Lemma stamped_awake (t : Z) (a b : list event) :
  Forall (λ ev, ∀ usec, ev ≠ Usleep usec) a →
  stamped t (a ++ b) = (pair t <$> a) ++ stamped t b.
Proof.
  induction 1 as [|ev a Hev _ IH]; [done|]. simpl.
  destruct ev; try (by rewrite IH). by destruct (Hev usec).
Qed.

Lemma slept_turns (pid k : Z) (n : nat) (cnt : Z) :
  slept (turns_events pid k n cnt) = 100000 * Z.of_nat n.
Proof.
  revert cnt. induction n as [|n IH]; intros cnt; [done|].
  simpl turns_events. cbn [slept].
  rewrite slept_awake by apply turn_events_awake. rewrite IH. lia.
Qed.

Lemma usleep_turns (pid k : Z) (n : nat) (cnt usec : Z) :
  Usleep usec ∈ turns_events pid k n cnt → usec = 100000.
Proof.
  revert cnt. induction n as [|n IH]; intros cnt; simpl.
  { by intros ?%elem_of_nil. }
  rewrite elem_of_cons, elem_of_app. intros [[= ->] | [Hin | Hin]]; [done| |by eauto].
  pose proof (turn_events_awake pid k cnt) as Haw.
  rewrite Forall_forall in Haw. by destruct (Haw _ Hin usec).
Qed.

Lemma stamped_turns (pid k : Z) (n : nat) (cnt t0 t : Z) (ev : event) :
  (t, ev) ∈ stamped t0 (turns_events pid k n cnt) ↔
  ∃ c, cnt ≤ c < cnt + Z.of_nat n ∧ t = t0 + (c - cnt) + 1 ∧ ev ∈ turn_events pid k c.
Proof.
  revert cnt t0. induction n as [|n IH]; intros cnt t0.
  { simpl. rewrite elem_of_nil. split; [done|]. intros (c & ? & _). lia. }
  simpl turns_events. cbn [stamped].
  rewrite stamped_awake by apply turn_events_awake.
  rewrite elem_of_app, list_elem_of_fmap, IH. split.
  - intros [(ev' & [= -> ->] & Hin) | (c & Hc & -> & Hin)].
    + exists cnt. split; [lia|]. split; [lia|done].
    + exists c. split; [lia|]. split; [lia|done].
  - intros (c & Hc & -> & Hin). destruct (decide (c = cnt)) as [-> | Hne].
    + left. exists ev. split; [f_equal; lia | done].
    + right. exists c. split; [lia|]. split; [lia|done].
Qed.

Lemma turn_events_signal (pid k cnt sig : Z) :
  sig ≠ 0 →
  Killpg pid sig ∈ turn_events pid k cnt ↔
  (sig = SIGTERM ∧ 300 < cnt ∧ Z.rem cnt 100 = 0) ∨ (sig = SIGKILL ∧ cnt = 900 ∧ cnt < k).
Proof.
  intros Hsig. unfold turn_events.
  destruct (Z.ltb_spec 300 cnt), (Z.eqb_spec (Z.rem cnt 100) 0), (Z.ltb_spec cnt k),
    (Z.eqb_spec (Z.rem cnt 10) 0), (Z.eqb_spec cnt 900); simpl;
    rewrite ?elem_of_cons, ?elem_of_nil; unfold SIGTERM, SIGKILL;
    (split; [intros H'; repeat destruct H' as [H' | H']; try done;
             injection H' as ->; lia
            |intros [(-> & ? & ?) | (-> & ? & ?)]; try lia; auto 10]).
Qed.

Lemma turns_events_kills (pid k : Z) (n : nat) (cnt : Z) :
  length (filter (λ ev, ev = Killpg pid SIGKILL) (turns_events pid k n cnt)) =
  if bool_decide (cnt ≤ 900 < cnt + Z.of_nat n ∧ 900 < k) then 1%nat else 0%nat.
Proof.
  revert cnt. induction n as [|n IH]; intros cnt.
  { simpl. rewrite bool_decide_eq_false_2; [done|lia]. }
  simpl turns_events. rewrite filter_cons_False by done.
  rewrite filter_app, length_app, IH. unfold turn_events.
  destruct (Z.ltb_spec 300 cnt), (Z.eqb_spec (Z.rem cnt 100) 0), (Z.ltb_spec cnt k),
    (Z.eqb_spec (Z.rem cnt 10) 0), (Z.eqb_spec cnt 900); simpl;
    repeat (rewrite filter_cons_False by (unfold SIGTERM, SIGKILL; congruence));
    rewrite ?filter_cons_True by done; rewrite ?filter_nil; simpl;
    repeat case_bool_decide; lia.
Qed.

Lemma turns_events_last (pid k : Z) (n : nat) (cnt : Z) :
  cnt + Z.of_nat n = k + 1 → (0 < n)%nat →
  last (turns_events pid k n cnt) = Some (Printf stdout ("DONE" +:+ nl)).
Proof.
  revert cnt. induction n as [|n IH]; intros cnt Hk Hn; [lia|].
  simpl turns_events. destruct n as [|n].
  - simpl turns_events. rewrite app_nil_r.
    change (Usleep 100000 :: turn_events pid k cnt)
      with ([Usleep 100000] ++ turn_events pid k cnt).
    unfold turn_events. rewrite (proj2 (Z.ltb_ge cnt k)) by lia.
    change [Killpg pid 0; Printf stdout ("DONE" +:+ nl)]
      with ([Killpg pid 0] ++ [Printf stdout ("DONE" +:+ nl)]).
    rewrite !app_assoc. apply last_snoc.
  - rewrite app_comm_cons, last_app, IH by lia. done.
Qed.

(** C3, as the code has it. When the target's process group answers the
    probes of the turns before [k] and not the probe of turn [k], the stop
    loop sleeps 100 ms before each probe and makes [min (k + 1) 1800] turns:
    it ends with the first probe that fails, and after 180 seconds at the
    latest. SIGTERM is sent again in the turns 400, 500, ..., 1700 that are
    made (every 10 seconds, from 40 seconds on), SIGKILL once, in turn 900
    (after 90 seconds) when the group still answers then; no other signal
    is sent. *)
Theorem stop_escalation (e : Env) (pid k : Z) (w : World) :
  gone_at e pid k →
  0 ≤ k →
  ∃ w' tr,
    stop_wait e pid 1800 0 w = (Ret tt, w', tr) ∧
    (∀ usec, Usleep usec ∈ tr → usec = 100000) ∧
    slept tr = 100000 * Z.min (k + 1) 1800 ∧
    (∀ t sig, sig ≠ 0 →
       (t, Killpg pid sig) ∈ stamped 0 tr ↔
       (sig = SIGTERM ∧
        ∃ cnt, t = cnt + 1 ∧ 300 < cnt ∧ Z.rem cnt 100 = 0 ∧ cnt ≤ k ∧ cnt < 1800) ∨
       (sig = SIGKILL ∧ t = 901 ∧ 900 < k)) ∧
    length (filter (λ ev, ev = Killpg pid SIGKILL) tr) =
      (if bool_decide (900 < k) then 1%nat else 0%nat) ∧
    (k < 1800 → last tr = Some (Printf stdout ("DONE" +:+ nl))).
Proof.
  intros Hgone Hk.
  destruct (stop_wait_run e pid k Hgone 1800 0 w) as [w' Hrun]; [lia..|].
  rewrite Z.sub_0_r in Hrun. set (n := Z.to_nat (Z.min (k + 1) 1800)) in *.
  exists w', (turns_events pid k n 0). split; [done|].
  split; [intros usec; apply usleep_turns|].
  split; [rewrite slept_turns; lia|]. split; [|split].
  - intros t sig Hsig. rewrite stamped_turns. split.
    + intros (c & Hc & -> & Hin). apply turn_events_signal in Hin; [|done].
      destruct Hin as [(-> & ? & ?) | (-> & -> & ?)]; [left | right; lia].
      split; [done|]. exists c. lia.
    + intros [(-> & c & -> & ? & ? & ? & ?) | (-> & -> & ?)].
      * exists c. split; [lia|]. split; [lia|].
        apply turn_events_signal; [done|]. by left.
      * exists 900. split; [lia|]. split; [lia|].
        apply turn_events_signal; [done|]. right. lia.
  - rewrite turns_events_kills. repeat case_bool_decide; lia.
  - intros Hlt. apply turns_events_last; lia.
Qed.

(** ** The two modes of main *)











Lemma lowest_free_nonneg (s : gset Z) : 0 ≤ lowest_free s.
Proof.
  unfold lowest_free.
  destruct (head _) as [n|] eqn:Hhead; simpl; [|lia].
  apply head_Some_elem_of, list_elem_of_filter in Hhead as [_ Hin].
  apply elem_of_seqZ in Hin. lia.
Qed.

(** [writeOpen] of a [PidFile] that holds no descriptor: it succeeds
    exactly when the file can be opened and nobody holds the lock. *)
Lemma writeOpen_run (pf : PidFile) (w : World) :
  _fd pf < 0 →
  ∃ ok pf' w' tr,
    writeOpen pf w = (Ret (ok, pf'), w', tr) ∧
    (ok = true ↔ (_pidfile pf ∉ readonly w) ∧ (_pidfile pf ∉ flocked w)) ∧
    (Fork ∉ tr) ∧
    (ok = true → 0 ≤ _fd pf' ∧ _pidfile pf ∈ flocked w') ∧
    (Flock (_pidfile pf) ∈ tr ↔ (_pidfile pf ∉ readonly w)).
Proof.
  intros Hfd. unfold writeOpen. rewrite bind_run. simpl.
  rewrite (proj2 (Z.leb_gt _ _)) by lia. simpl.
  rewrite bind_run. unfold open_creat.
  case_bool_decide as Hro; simpl.
  { repeat (rewrite bind_run; simpl). do 4 eexists. split; [reflexivity|].
    split; [split; [done | tauto]|]. split; [|split; [done|]].
    - rewrite !elem_of_cons, elem_of_nil. intros [|[|]]; done.
    - rewrite !elem_of_cons, elem_of_nil. split; [intros [|[|]]; done | done]. }
  pose proof (lowest_free_nonneg (fds w)) as Hfree.
  rewrite (proj2 (Z.ltb_ge _ _)) by lia.
  rewrite bind_run. unfold flock. simpl.
  case_bool_decide as Hlk; simpl.
  - repeat (rewrite bind_run; simpl). do 4 eexists. split; [reflexivity|].
    split; [split; [done | tauto]|]. split; [|split; [done|]].
    + rewrite !elem_of_cons, elem_of_nil. intros [|[|[|[|]]]]; done.
    + rewrite !elem_of_cons. tauto.
  - repeat (rewrite bind_run; simpl). do 4 eexists. split; [reflexivity|].
    split; [done|]. split; [|split].
    + rewrite !elem_of_cons, elem_of_nil. intros [|[|[|]]]; done.
    + intros _. simpl. split; [lia|]. apply elem_of_union_l. by apply elem_of_singleton.
    + rewrite !elem_of_cons. tauto.
Qed.

Lemma probe_starts_nothing (pf : PidFile) (w : World) :
  Forall starts_nothing (probe pf w).
Proof. unfold probe. case_bool_decide; repeat constructor. Qed.

Lemma starts_nothing_not_in (ev : event) (tr : list event) :
  Forall starts_nothing tr → ¬ starts_nothing ev → ev ∉ tr.
Proof. rewrite Forall_forall. intros Hall Hev Hin. by apply Hev, Hall. Qed.

(** [writeOpen] always calls [open] on the pid file. *)
Lemma writeOpen_opens (pf : PidFile) (w : World) :
  _fd pf < 0 → Open (_pidfile pf) ∈ (writeOpen pf w).2.
Proof.
  intros Hfd. unfold writeOpen. rewrite bind_run. simpl.
  rewrite (proj2 (Z.leb_gt _ _)) by lia. simpl.
  rewrite bind_run. unfold open_creat.
  case_bool_decide as Hro; simpl.
  { repeat (rewrite bind_run; simpl). mem. auto. }
  pose proof (lowest_free_nonneg (fds w)) as Hfree.
  rewrite (proj2 (Z.ltb_ge _ _)) by lia.
  rewrite bind_run. unfold flock. simpl.
  case_bool_decide as Hlk; simpl; repeat (rewrite bind_run; simpl);
    mem; auto.
Qed.

(** The start mode when the pid file names no running process (there is
    no file, no pid of at least 1 can be read from it, or no process has
    that pid): the program goes on to open the file and to take the lock,
    and it forks the supervisor exactly when both succeed: the file can be
    opened for writing and nobody holds the lock. Otherwise it exits with
    status 1. *)
Lemma start_not_running_run (e : Env) (prog : string)
    (opts : list (ascii * string)) (args : list string) (w : World) (o : Options) :
  (options prog opts defaults w).1.1 = Ret o →
  doStop o = false →
  args ≠ [] →
  killcmd o = None →
  root_dir e w ∈ dirs w →
  running (mypf_of o) w = false →
  ∃ r w' tr,
    main e prog opts args w = (r, w', tr) ∧
    Open (pidfile o) ∈ tr ∧
    (Flock (pidfile o) ∈ tr ↔ (pidfile o ∉ readonly w)) ∧
    (Fork ∈ tr ↔ (pidfile o ∉ readonly w) ∧ (pidfile o ∉ flocked w)) ∧
    (¬ ((pidfile o ∉ readonly w) ∧ (pidfile o ∉ flocked w)) → r = Exit 1).
Proof.
  intros Ho Hstop Hargs Hkill Hdir Hrun.
  rewrite (main_run _ _ _ _ _ _ Ho Hdir), Hstop. unfold start.
  destruct (at_home_pid e (mypf_of o) w) as (Hpid & Hrun' & Hprobe).
  destruct (at_home_files e w) as (_ & _ & _ & Hlock & Hro & _).
  pose proof (preamble_starts_nothing e w) as Hpre.
  pose proof (probe_starts_nothing (mypf_of o) w) as Hpr.
  set (pre := preamble e w) in *. clearbody pre.
  set (pr := probe (mypf_of o) w) in *.
  rewrite Hkill, bool_decide_eq_false_2 by done.
  rewrite bool_decide_eq_false_2 by (by intros []). simpl.
  rewrite bind_run.
  destruct (isRunning_run (mypf_of o) (at_home e w)) as [e1 ->].
  rewrite Hrun', Hrun, Hprobe. fold pr. clearbody pr. simpl.
  rewrite bind_run.
  pose proof (writeOpen_opens (mypf_of o) (set_errno e1 (at_home e w))) as Hopen.
  destruct (writeOpen_run (mypf_of o) (set_errno e1 (at_home e w)))
    as (ok & pf' & w1 & t1 & Hwo & Hok & Hnofork & _ & Hflock); [simpl; lia|].
  rewrite Hwo in Hopen |- *. specialize (Hopen ltac:(simpl; lia)).
  simpl in Hok, Hflock, Hopen. rewrite Hlock, Hro in Hok. rewrite Hro in Hflock.
  assert (Hpre_fork : Fork ∉ pre)
    by (apply starts_nothing_not_in; [done | simpl; tauto]).
  assert (Hpr_fork : Fork ∉ pr)
    by (apply starts_nothing_not_in; [done | simpl; tauto]).
  assert (Hpre_flock : Flock (pidfile o) ∉ pre)
    by (apply starts_nothing_not_in; [done | simpl; tauto]).
  assert (Hpr_flock : Flock (pidfile o) ∉ pr)
    by (apply starts_nothing_not_in; [done | simpl; tauto]).
  simpl. destruct ok; simpl.
  - rewrite bind_run. simpl.
    match goal with
    | |- context [(if forked e =? 0 then ?a else ?b) w1] =>
        destruct ((if forked e =? 0 then a else b) w1) as [[r w2] t2]
    end.
    do 3 eexists. split; [reflexivity|]. mem.
    split; [tauto|].
    split; [tauto|]. split; [|tauto]. split; [by intros _; apply Hok | auto 10].
  - unfold perror. run.
    do 3 eexists. split; [reflexivity|]. mem.
    assert (Hno : ¬ ((pidfile o ∉ readonly w) ∧ (pidfile o ∉ flocked w))).
    { intros H. by apply Hok in H. }
    split; [tauto|].
    split; [|split; [|done]].
    + split; [|tauto]. intros [|[|[|[|]]]]; try done; tauto.
    + split; [|tauto]. intros [|[|[|[|]]]]; try done; tauto.
Qed.

(** The start mode when the pid file names a running process: the program
    exits with status 0 and has opened, locked and forked nothing. *)
Lemma start_running_run (e : Env) (prog : string) (opts : list (ascii * string))
    (args : list string) (w : World) (o : Options) :
  (options prog opts defaults w).1.1 = Ret o →
  doStop o = false →
  args ≠ [] →
  killcmd o = None →
  root_dir e w ∈ dirs w →
  running (mypf_of o) w = true →
  ∃ w' tr,
    main e prog opts args w = (Exit 0, w', tr) ∧
    Kill (owner_pid (mypf_of o) w) 0 ∈ tr ∧
    Forall starts_nothing tr ∧
    flocked w' = flocked w.
Proof.
  intros Ho Hstop Hargs Hkill Hdir Hrun.
  rewrite (main_run _ _ _ _ _ _ Ho Hdir), Hstop. unfold start.
  destruct (at_home_pid e (mypf_of o) w) as (Hpid & Hrun' & Hprobe).
  destruct (at_home_files e w) as (_ & _ & _ & Hlock & _).
  pose proof (preamble_starts_nothing e w) as Hpre.
  set (pre := preamble e w) in *. clearbody pre.
  rewrite Hkill, bool_decide_eq_false_2 by done.
  rewrite bool_decide_eq_false_2 by (by intros []). simpl.
  rewrite bind_run.
  destruct (isRunning_run (mypf_of o) (at_home e w)) as [e1 ->].
  rewrite Hrun', Hrun, Hprobe, (running_probe _ _ Hrun). simpl.
  rewrite bind_run.
  destruct (readPid_errno (mypf_of o) (set_errno e1 (at_home e w))) as [e2 ->].
  simpl. repeat (rewrite bind_run; simpl).
  do 2 eexists. split; [reflexivity|]. split; [|split; [|exact Hlock]].
  - mem. auto.
  - rewrite Forall_app. split; [done|]. repeat constructor.
Qed.

(** C2, as the code has it. In start mode the pid recorded in the pid
    file is looked at before the lock. When it names a running process (it
    is at least 1 and a process has that pid), the program exits with status
    0 and has opened, locked and forked nothing: the lock plays no part.
    When it names none (there is no file, no pid of at least 1 can be read
    from it, or no process has that pid), a pid file left behind does not
    stand in the way: the program opens the file, tries the lock when the
    file could be opened, and forks the supervisor exactly when the file
    could be opened and the lock was free; otherwise it exits with status
    1. *)
Theorem start_over_pid_file (e : Env) (prog : string)
    (opts : list (ascii * string)) (args : list string) (w : World) (o : Options) :
  (options prog opts defaults w).1.1 = Ret o →
  doStop o = false →
  args ≠ [] →
  killcmd o = None →
  root_dir e w ∈ dirs w →
  ∃ r w' tr,
    main e prog opts args w = (r, w', tr) ∧
    if running (mypf_of o) w then
      r = Exit 0 ∧
      Kill (owner_pid (mypf_of o) w) 0 ∈ tr ∧
      Forall starts_nothing tr ∧
      flocked w' = flocked w
    else
      Open (pidfile o) ∈ tr ∧
      (Flock (pidfile o) ∈ tr ↔ (pidfile o ∉ readonly w)) ∧
      (Fork ∈ tr ↔ (pidfile o ∉ readonly w) ∧ (pidfile o ∉ flocked w)) ∧
      (¬ ((pidfile o ∉ readonly w) ∧ (pidfile o ∉ flocked w)) → r = Exit 1).
Proof.
  intros Ho Hstop Hargs Hkill Hdir.
  destruct (running (mypf_of o) w) eqn:Hrun.
  - destruct (start_running_run e prog opts args w o Ho Hstop Hargs Hkill Hdir Hrun)
      as (w' & tr & Hmain & Hprobe & Hquiet & Hlock).
    by exists (Exit 0), w', tr.
  - destruct (start_not_running_run e prog opts args w o Ho Hstop Hargs Hkill Hdir Hrun)
      as (r & w' & tr & Hmain & Hopen & Hflock & Hfork & Hfail).
    by exists r, w', tr.
Qed.

(** ** Wait statuses *)

Lemma WTERMSIG_mod (ws : Z) : WTERMSIG ws = ws mod 128.
Proof.
  unfold WTERMSIG. change 127 with (Z.ones 7). rewrite Z.land_ones by lia. done.
Qed.

Lemma WTERMSIG_range (ws : Z) : 0 ≤ WTERMSIG ws ≤ 127.
Proof. rewrite WTERMSIG_mod. pose proof (Z.mod_pos_bound ws 128). lia. Qed.

Lemma WIFSIGNALED_spec (ws : Z) : WIFSIGNALED ws = true ↔ 1 ≤ WTERMSIG ws ≤ 126.
Proof.
  unfold WIFSIGNALED. fold (WTERMSIG ws).
  pose proof (WTERMSIG_range ws) as Hr. set (x := WTERMSIG ws) in *.
  rewrite Z.ltb_lt, Z.shiftr_div_pow2 by lia.
  unfold to_schar, wrap. change (2 ^ (8 - 1)) with 128. change (2 ^ 8) with 256.
  change (2 ^ 1) with 2.
  destruct (decide (x = 127)) as [-> | Hne]; [split; [done | lia]|].
  rewrite Z.mod_small by lia. replace (x + 1 + 128 - 128) with (x + 1) by lia.
  split; intros H.
  - destruct (decide (x = 0)) as [-> | ?]; [done | lia].
  - apply Z.div_str_pos. lia.
Qed.

Lemma WIFEXITED_spec (ws : Z) : WIFEXITED ws = true ↔ WTERMSIG ws = 0.
Proof. unfold WIFEXITED. apply Z.eqb_eq. Qed.

Lemma WIFSTOPPED_termsig (ws : Z) : WIFSTOPPED ws = true → WTERMSIG ws = 127.
Proof.
  unfold WIFSTOPPED. change 255 with (Z.ones 8).
  rewrite Z.eqb_eq, WTERMSIG_mod, Z.land_ones by lia.
  change (2 ^ 8) with 256. intros H. Z.div_mod_to_equations. lia.
Qed.

Lemma signaled_not_stopped (ws : Z) :
  WIFSIGNALED ws = true → WIFSTOPPED ws = false ∧ WIFEXITED ws = false.
Proof.
  intros Hs%WIFSIGNALED_spec. split.
  - destruct (WIFSTOPPED ws) eqn:H; [|done]. apply WIFSTOPPED_termsig in H. lia.
  - destruct (WIFEXITED ws) eqn:H; [|done]. apply WIFEXITED_spec in H. lia.
Qed.

Lemma exited_not_stopped (ws : Z) : WIFEXITED ws = true → WIFSTOPPED ws = false.
Proof.
  intros He%WIFEXITED_spec.
  destruct (WIFSTOPPED ws) eqn:H; [|done]. apply WIFSTOPPED_termsig in H. lia.
Qed.

Lemma WEXITSTATUS_range (ws : Z) : 0 ≤ WEXITSTATUS ws ≤ 255.
Proof.
  unfold WEXITSTATUS. rewrite Z.shiftr_land.
  change (Z.shiftr 65280 8) with (Z.ones 8). rewrite Z.land_ones by lia.
  change (2 ^ 8) with 256. pose proof (Z.mod_pos_bound (Z.shiftr ws 8) 256). lia.
Qed.

Lemma exit_status_small (es : Z) : 0 ≤ es ≤ 255 → exit_status es = es.
Proof.
  intros H. unfold exit_status. change 255 with (Z.ones 8).
  rewrite Z.land_ones by lia. apply Z.mod_small. change (2 ^ 8) with 256. lia.
Qed.

(** ** The reaping of the child *)

(** C7. When waitpid reports that the child was killed by a signal, the
    loop logs the warning "child died from signal" exactly when that signal
    is not the one the handler recorded last, and with it, when the child
    dumped core, that fact; when the two signals are equal it logs nothing.
    Either way the child counts as gone. *)
Theorem reap_signaled (torun : string) (ws : Z) (st : Loop) :
  WIFSIGNALED ws = true →
  ∃ tr,
    reap torun (WaitPid (child st) ws) st = (Ret tt, set_child 0 (set_wstat ws st), tr) ∧
    (WTERMSIG ws ≠ lastsig (sigs st) →
     tr = LOG warning ("child died from signal: " +:+ pretty (WTERMSIG ws))
          :: (if WCOREDUMP ws
              then [LOG info ("child " +:+ pretty (child st) +:+ " dumped core")]
              else [])) ∧
    (WTERMSIG ws = lastsig (sigs st) → tr = []).
Proof.
  intros Hsig. destruct (signaled_not_stopped ws Hsig) as [Hstop Hexit].
  unfold reap. run. rewrite Z.eqb_refl, Hstop, Hexit, Hsig. run.
  destruct (Z.eqb_spec (WTERMSIG ws) (lastsig (sigs st))) as [Heq | Hne]; simpl.
  - eexists. split; [reflexivity|]. split; [done|]. done.
  - run. destruct (WCOREDUMP ws); simpl; run;
      (eexists; split; [reflexivity|]; split; [done|]; done).
Qed.

(** ** The signal flags *)

Lemma handle_app (l1 l2 : list Z) (s : SigState) :
  handle (l1 ++ l2) s = handle l2 (handle l1 s).
Proof. unfold handle. apply foldl_app. Qed.

Lemma handle_stop (sigs : list Z) (s : SigState) :
  stop_requested s → stop_requested (handle sigs s).
Proof.
  revert s. induction sigs as [|sig sigs IH]; intros s Hs; [done|].
  apply IH. unfold stop_requested. simpl. lia.
Qed.

Lemma handle_lastsig (sigs : list Z) (s : SigState) :
  lastsig (handle sigs s) = default (lastsig s) (last sigs).
Proof.
  destruct sigs as [|sig sigs _] using rev_ind; [done|].
  by rewrite handle_app, last_snoc.
Qed.

Lemma forwarded_stop (s : SigState) : stop_requested s → stop_requested (forwarded s).
Proof. done. Qed.

Lemma loop_body_keeps_stop (torun : string) (po pe : Z) (t : Tick) :
  keeps loop_stop (loop_body torun po pe t).
Proof.
  unfold loop_body, read_pipe, reap, forward. keeps_tac;
    try done; unfold loop_stop in *; simpl; auto using handle_stop, forwarded_stop.
Qed.

Lemma loop_while_keeps_stop (torun : string) (po pe : Z) (ticks : list Tick) :
  keeps loop_stop (loop_while torun po pe ticks).
Proof.
  induction ticks as [|t ticks IH]; intros st r st' tr Hst; simpl;
    destruct (_ || _); try (by intros [= _ <- _]).
  apply keeps_bind; [apply loop_body_keeps_stop | by intros _ | done].
Qed.

Lemma loop_keeps_stop (svc : string) (run : list string) (r : Run) :
  keeps stop_requested (loop svc run r).
Proof.
  unfold loop. destruct (r_pipes r) as [[pstdout pstderr]|]; [|keeps_tac].
  keeps_tac.
  apply keeps_zoom with (Q := loop_stop); [|done..].
  apply keeps_bind; [apply loop_while_keeps_stop | intros _; keeps_tac].
Qed.

Lemma restart_wait_keeps_stop (restart laststart : Z) (naps : list Nap) :
  keeps daemon_stop (restart_wait restart laststart naps).
Proof.
  induction naps as [|n naps IH]; intros d r d' tr Hd; simpl;
    destruct (_ && _); try (by intros [= _ <- _]).
  apply keeps_bind; [|by intros _ | done].
  unfold sleep. keeps_tac; try done. unfold daemon_stop in *. simpl.
  by apply handle_stop.
Qed.

Lemma cycle_keeps_stop (restart : Z) (service : string) (run : list string) (c : Cycle) :
  keeps daemon_stop (cycle restart service run c).
Proof.
  unfold cycle, time. keeps_tac; try done.
  - apply keeps_zoom with (Q := stop_requested); [apply loop_keeps_stop | done..].
  - apply restart_wait_keeps_stop.
Qed.

Lemma restart_loop_keeps_stop (restart : Z) (service : string) (run : list string)
    (cycles : list Cycle) :
  keeps daemon_stop (restart_loop restart service run cycles).
Proof.
  induction cycles as [|c cycles IH]; simpl; [apply keeps_pending|].
  apply keeps_bind; [apply cycle_keeps_stop | intros stat].
  apply keeps_bind; [apply keeps_get | intros d].
  destruct (_ && _); [done | apply keeps_ret].
Qed.

Lemma supervise_keeps_stop (restart : Z) (service : string) (run : list string)
    (mypf : PidFile) (cycles : list Cycle) :
  keeps daemon_stop (supervise restart service run mypf cycles).
Proof.
  unfold supervise, in_world.
  apply keeps_bind; [|intros stat; keeps_tac; by apply keeps_zoom_frame].
  apply keeps_try_catch; [|intros what; keeps_tac].
  apply keeps_bind; [by apply keeps_zoom_frame | intros _].
  apply restart_loop_keeps_stop.
Qed.

Lemma detached_keeps_stop (restart : Z) (service : string) (run : list string)
    (mypf : PidFile) (sc : Script) :
  keeps daemon_stop (detached restart service run mypf sc).
Proof.
  unfold detached, in_world.
  repeat first
    [ apply supervise_keeps_stop
    | by apply keeps_zoom_frame
    | apply keeps_emit | apply keeps_exit
    | apply keeps_bind; [|intros ?]
    | match goal with
      | |- keeps _ (if ?b then _ else _) => destruct b
      | |- keeps _ (match d_setsid sc with _ => _ end) => destruct (d_setsid sc)
      end ].
Qed.

(** ** One turn of the loop and the pending signal *)

Lemma kills_app (a b : list event) : kills (a ++ b) = kills a ++ kills b.
Proof. apply omap_app. Qed.

Lemma read_pipe_quiet (which : stream) (fd : Z) (r : read_result) (seteof : Loop → Loop)
    (st st' : Loop) (res : result unit) (tr : list event) :
  (∀ st, sigs (seteof st) = sigs st ∧ child (seteof st) = child st ∧
         wstat (seteof st) = wstat st) →
  read_pipe which fd r seteof st = (res, st', tr) →
  sigs st' = sigs st ∧ child st' = child st ∧ wstat st' = wstat st ∧ kills tr = [].
Proof.
  intros Hset. unfold read_pipe. destruct r; run; intros [= _ <- <-];
    try done. by destruct (Hset st) as (? & ? & ?).
Qed.

Lemma pipes_quiet (po pe : Z) (t : Tick) (st0 st st' : Loop) (res : result unit)
    (tr : list event) :
  when (0 <? t_select t)
    (when (negb (outeof st0) && t_out_ready t)
       (read_pipe stdout po (t_out t) (set_outeof true));;
     when (negb (erreof st0) && t_err_ready t)
       (read_pipe stderr pe (t_err t) (set_erreof true))) st = (res, st', tr) →
  sigs st' = sigs st ∧ child st' = child st ∧ wstat st' = wstat st ∧ kills tr = [].
Proof.
  destruct (0 <? t_select t); simpl; [|by intros [= _ <- <-]].
  rewrite bind_run.
  destruct (when (negb (outeof st0) && t_out_ready t) _ st) as [[r1 st1] t1] eqn:H1.
  assert (sigs st1 = sigs st ∧ child st1 = child st ∧ wstat st1 = wstat st ∧ kills t1 = [])
    as (Hs1 & Hc1 & Hw1 & Hk1).
  { destruct (negb (outeof st0) && t_out_ready t); simpl in H1.
    - by apply read_pipe_quiet in H1.
    - cbv [mret M_ret] in H1. by injection H1 as _ <- <-. }
  destruct r1; try (by intros [= _ <- <-]).
  destruct (when (negb (erreof st0) && t_err_ready t) _ st1) as [[r2 st2] t2] eqn:H2.
  assert (sigs st2 = sigs st1 ∧ child st2 = child st1 ∧ wstat st2 = wstat st1 ∧
          kills t2 = []) as (Hs2 & Hc2 & Hw2 & Hk2).
  { destruct (negb (erreof st0) && t_err_ready t); simpl in H2.
    - by apply read_pipe_quiet in H2.
    - cbv [mret M_ret] in H2. by injection H2 as _ <- <-. }
  intros [= _ <- <-]. rewrite kills_app, Hk1, Hk2.
  split; [congruence|]. split; [congruence|]. split; [congruence|done].
Qed.

Lemma reap_quiet (torun : string) (r : wait_result) (st st' : Loop)
    (res : result unit) (tr : list event) :
  reap torun r st = (res, st', tr) → sigs st' = sigs st ∧ kills tr = [].
Proof.
  unfold reap. rewrite bind_run. simpl. destruct (waitpid r (wstat st)) as [cpid ws].
  rewrite bind_run. simpl.
  repeat match goal with
         | |- context [if ?b then _ else _] => destruct b; simpl
         end; run; try (by intros [= _ <- <-]).
  destruct (negb _); simpl; run; [|by intros [= _ <- <-]].
  destruct (WCOREDUMP ws); simpl; by intros [= _ <- <-].
Qed.

Lemma forward_run (torun : string) (late : list Z) (st : Loop) :
  let pend := negb (unhandledsig (sigs st) =? 0) && negb (child st =? 0) in
  ∃ tr, forward torun late st =
        (Ret tt,
         set_sigs (λ s, if pend then forwarded (handle late s) else handle late s) st,
         tr) ∧
        kills tr = if pend then [(child st, lastsig (sigs st))] else [].
Proof.
  unfold forward. rewrite bind_run. simpl.
  destruct (negb _ && negb _); run; eexists; split; reflexivity.
Qed.

Lemma loop_body_forwards (torun : string) (po pe : Z) (t : Tick) (st st' : Loop)
    (tr : list event) :
  loop_body torun po pe t st = (Ret tt, st', tr) →
  let s1 := handle (t_before t ++ t_after_wait t) (sigs st) in
  let pend := negb (unhandledsig s1 =? 0) && negb (child st' =? 0) in
  kills tr = (if pend then [(child st', lastsig s1)] else []) ∧
  sigs st' = (if pend then forwarded (handle (t_late t) s1) else handle (t_late t) s1).
Proof.
  unfold loop_body. rewrite bind_run. simpl. rewrite bind_run. simpl.
  set (st1 := set_sigs (handle (t_before t)) st).
  rewrite bind_run.
  destruct (when (0 <? t_select t) _ st1) as [[r2 st2] t2] eqn:Hpipes.
  apply pipes_quiet in Hpipes as (Hs2 & Hc2 & _ & Hk2).
  destruct r2; try discriminate. rewrite bind_run.
  destruct (when (negb (child st =? 0)) _ st2) as [[r3 st3] t3] eqn:Hreap.
  assert (sigs st3 = sigs st2 ∧ kills t3 = []) as [Hs3 Hk3].
  { destruct (negb (child st =? 0)); simpl in Hreap.
    - by apply reap_quiet in Hreap.
    - cbv [mret M_ret] in Hreap. by injection Hreap as _ <- <-. }
  destruct r3; try discriminate. rewrite bind_run. simpl.
  destruct (forward_run torun (t_late t) (set_sigs (handle (t_after_wait t)) st3))
    as (t5 & -> & Hk5).
  intros [= <- <-]. simpl in *.
  rewrite !kills_app, Hk2, Hk3, Hk5, Hs3, Hs2, handle_app. simpl. done.
Qed.

(** The flags through the supervisor. Once the handler has set the stop
    flag, nothing clears it: the detached process, its restart loop, every
    run of the child and every turn of the loop end, or are left by the
    script, with the flag still set. One turn of the loop enters the
    forwarding block exactly when the pending flag is set and the child is
    not reaped: it sends the child one signal, the one the handler recorded
    last before [kill], and then stores 0 in the pending flag, also over
    what the handler recorded in between ([t_late]); otherwise it sends
    nothing and leaves the flags as the handler left them. *)
Lemma signal_flags :
  (∀ restart service run mypf sc,
     keeps daemon_stop (detached restart service run mypf sc)) ∧
  (∀ restart service run cycles,
     keeps daemon_stop (restart_loop restart service run cycles)) ∧
  (∀ torun po pe ticks, keeps loop_stop (loop_while torun po pe ticks)) ∧
  (∀ torun po pe t, keeps loop_stop (loop_body torun po pe t)) ∧
  (∀ torun po pe t st st' tr,
     loop_body torun po pe t st = (Ret tt, st', tr) →
     let recorded := t_before t ++ t_after_wait t in
     let s1 := handle recorded (sigs st) in
     lastsig s1 = default (lastsig (sigs st)) (last recorded) ∧
     (unhandledsig s1 ≠ 0 ∧ child st' ≠ 0 →
      kills tr = [(child st', lastsig s1)] ∧
      sigs st' = forwarded (handle (t_late t) s1) ∧
      unhandledsig (sigs st') = 0) ∧
     (¬ (unhandledsig s1 ≠ 0 ∧ child st' ≠ 0) →
      kills tr = [] ∧ sigs st' = handle (t_late t) s1)).
Proof.
  split; [apply detached_keeps_stop|]. split; [apply restart_loop_keeps_stop|].
  split; [apply loop_while_keeps_stop|].
  split; [apply loop_body_keeps_stop|].
  intros torun po pe t st st' tr Hbody recorded s1.
  split; [apply handle_lastsig|].
  destruct (loop_body_forwards _ _ _ _ _ _ _ Hbody) as [Hkills Hsigs].
  fold recorded s1 in Hkills, Hsigs.
  destruct (Z.eqb_spec (unhandledsig s1) 0) as [Hu | Hu],
    (Z.eqb_spec (child st') 0) as [Hc | Hc]; simpl in Hkills, Hsigs;
    (split; [intros [? ?]; try done | intros Hn; try done]).
  - by rewrite Hsigs.
  - destruct Hn. done.
Qed.

Lemma starts_app (a b : list event) : starts (a ++ b) = (starts a + starts b)%nat.
Proof. unfold starts. by rewrite filter_app, length_app. Qed.

Lemma starts_none (tr : list event) :
  Forall (λ ev, is_start ev = false) tr → starts tr = 0%nat.
Proof.
  unfold starts. induction 1 as [|ev tr Hev _ IH]; [done|].
  rewrite filter_cons_False; [done|]. rewrite Hev. by intros [].
Qed.

Lemma loop_body_starts (torun : string) (po pe : Z) (t : Tick) :
  emits (λ ev, is_start ev = false) (loop_body torun po pe t).
Proof. unfold loop_body, read_pipe, reap, forward. emits_tac. Qed.

Lemma loop_while_starts (torun : string) (po pe : Z) (ticks : list Tick) :
  emits (λ ev, is_start ev = false) (loop_while torun po pe ticks).
Proof.
  induction ticks as [|t ticks IH]; intros st r st' tr; simpl;
    destruct (_ || _); try (by intros [= _ _ <-]).
  apply emits_bind; [apply loop_body_starts | by intros _].
Qed.

Lemma restart_wait_starts (restart laststart : Z) (naps : list Nap) :
  emits (λ ev, is_start ev = false) (restart_wait restart laststart naps).
Proof.
  induction naps as [|n naps IH]; intros d r d' tr; simpl;
    destruct (_ && _); try (by intros [= _ _ <-]).
  apply emits_bind; [|by intros _]. unfold sleep. emits_tac.
Qed.

(** ** The status of a run *)

Lemma decode_status (ws : Z) (o : outcome) :
  decode ws = Some o →
  (if WIFSIGNALED ws then WTERMSIG ws else WEXITSTATUS ws) = outcome_status o ∧
  0 ≤ outcome_status o ≤ 255.
Proof.
  unfold decode. destruct (WIFEXITED ws) eqn:He.
  - intros [= <-]. simpl. apply WIFEXITED_spec in He.
    destruct (WIFSIGNALED ws) eqn:Hs; [apply WIFSIGNALED_spec in Hs; lia|].
    split; [done | apply WEXITSTATUS_range].
  - destruct (WIFSIGNALED ws) eqn:Hs; [|done]. intros [= <-]. simpl.
    split; [done|]. pose proof (WTERMSIG_range ws). lia.
Qed.

#[local] Arguments Z.eqb : simpl never.
#[local] Arguments Z.ltb : simpl never.

Lemma reap_run (torun : string) (r : wait_result) (st st' : Loop) (tr : list event) :
  0 < child st →
  reap torun r st = (Ret tt, st', tr) →
  match r with
  | WaitPid cpid ws =>
      if (cpid =? child st) && negb (WIFSTOPPED ws)
      then child st' = 0 ∧ wstat st' = ws ∧ is_Some (decode ws)
      else child st' = child st
  | _ => child st' = child st
  end.
Proof.
  intros Hchild. unfold reap, decode. rewrite bind_run. simpl.
  destruct r as [|cpid ws|e]; simpl.
  - rewrite bind_run. simpl. rewrite (proj2 (Z.eqb_neq 0 (child st))) by lia.
    run. by intros [= <- _].
  - rewrite bind_run. simpl. destruct (cpid =? child st) eqn:Hc; simpl.
    + destruct (WIFSTOPPED ws); run; [by intros [= <- _]|].
      destruct (WIFEXITED ws); run; [intros [= <- _]; eauto|].
      destruct (WIFSIGNALED ws); run; [|done].
      destruct (negb _); simpl; run; [|intros [= <- _]; eauto].
      destruct (WCOREDUMP _); simpl; intros [= <- _]; eauto.
    + destruct (cpid <? 0); run; [done|].
      destruct (negb (cpid =? 0)); run; [done|]. by intros [= <- _].
  - rewrite bind_run. simpl. rewrite (proj2 (Z.eqb_neq (-1) (child st))) by lia.
    run. done.
Qed.

Lemma loop_body_reaps (torun : string) (po pe : Z) (t : Tick) (st st' : Loop)
    (tr : list event) :
  0 ≤ child st →
  loop_body torun po pe t st = (Ret tt, st', tr) →
  if child st =? 0 then child st' = 0 ∧ wstat st' = wstat st
  else match t_wait t with
       | WaitPid cpid ws =>
           if (cpid =? child st) && negb (WIFSTOPPED ws)
           then child st' = 0 ∧ wstat st' = ws ∧ is_Some (decode ws)
           else child st' = child st
       | _ => child st' = child st
       end.
Proof.
  intros Hchild. unfold loop_body. rewrite bind_run. simpl. rewrite bind_run. simpl.
  set (st1 := set_sigs (handle (t_before t)) st).
  rewrite bind_run.
  destruct (when (0 <? t_select t) _ st1) as [[r2 st2] t2] eqn:Hpipes.
  apply pipes_quiet in Hpipes as (_ & Hc2 & Hw2 & _).
  destruct r2; try discriminate. rewrite bind_run.
  destruct (when (negb (child st =? 0)) _ st2) as [[r3 st3] t3] eqn:Hreap.
  destruct r3 as [[]| | | | |]; try discriminate. rewrite bind_run. simpl.
  destruct (forward_run torun (t_late t) (set_sigs (handle (t_after_wait t)) st3))
    as (t5 & -> & _).
  intros [= <- _]. simpl.
  destruct (Z.eqb_spec (child st) 0) as [H0 | H0]; simpl in Hreap.
  - cbv [mret M_ret] in Hreap. injection Hreap as <- _. simpl in *. split; congruence.
  - apply reap_run in Hreap; [|simpl in *; lia]. by rewrite Hc2 in Hreap.
Qed.

Lemma loop_while_reaps (torun : string) (po pe : Z) (ticks : list Tick) (st st' : Loop)
    (tr : list event) :
  0 ≤ child st →
  loop_while torun po pe ticks st = (Ret tt, st', tr) →
  if child st =? 0 then wstat st' = wstat st
  else ∃ ws, reaped (child st) ticks = Some ws ∧ wstat st' = ws ∧ is_Some (decode ws).
Proof.
  revert st tr. induction ticks as [|t ticks IH]; intros st tr Hchild; simpl.
  { destruct (Z.eqb_spec (child st) 0); simpl; [|done].
    destruct (_ || _); [done | by intros [= <- _]]. }
  destruct (negb (child st =? 0) || _ || _) eqn:Hgo.
  2:{ intros [= <- _]. apply orb_false_iff in Hgo as [Hgo _].
      apply orb_false_iff in Hgo as [Hgo _]. apply negb_false_iff in Hgo.
      by rewrite Hgo. }
  intros ([] & st1 & t1 & t2 & Hbody & Hrest & ->)%bind_inv_ret.
  pose proof (loop_body_reaps _ _ _ _ _ _ _ Hchild Hbody) as Hb.
  destruct (Z.eqb_spec (child st) 0) as [H0 | H0].
  - destruct Hb as [Hc1 Hw1]. apply IH in Hrest; [|lia].
    rewrite Hc1 in Hrest. simpl in Hrest. congruence.
  - destruct (t_wait t) as [|cpid ws|e];
      try (apply IH in Hrest; [|lia]; rewrite Hb in Hrest;
           by rewrite (proj2 (Z.eqb_neq _ _) H0) in Hrest).
    destruct ((cpid =? child st) && negb (WIFSTOPPED ws)).
    + destruct Hb as (Hc1 & Hw1 & Hd). apply IH in Hrest; [|lia].
      rewrite Hc1 in Hrest. simpl in Hrest. exists ws. by rewrite Hrest.
    + apply IH in Hrest; [|lia]. rewrite Hb in Hrest.
      by rewrite (proj2 (Z.eqb_neq _ _) H0) in Hrest.
Qed.

Lemma loop_reaps (svc : string) (run : list string) (r : Run) (s s' : SigState)
    (stat : Z) (tr : list event) :
  loop svc run r s = (Ret stat, s', tr) →
  ∃ ws o, reaped (r_fork r) (r_ticks r) = Some ws ∧ decode ws = Some o ∧
          stat = outcome_status o ∧ starts tr = 1%nat.
Proof.
  unfold loop. destruct (r_pipes r) as [[pstdout pstderr]|e]; [|by run].
  run. destruct (Z.eqb_spec (r_fork r) 0) as [H0 | H0].
  { run. destruct (r_exec r); by run. }
  destruct (Z.ltb_spec (r_fork r) 0) as [Hneg | Hpos]; [by run|].
  run. unfold zoom.
  destruct ((loop_while _ _ _ _ ≫= _) _) as [[r1 st1] t1] eqn:Hloop.
  intros [= -> <- <-].
  apply bind_inv_ret in Hloop as ([] & st2 & t2 & t3 & Hwhile & Hret & ->).
  pose proof (loop_while_starts _ _ _ _ _ _ _ _ Hwhile) as Hst.
  apply loop_while_reaps in Hwhile; [|simpl; lia]. simpl in Hwhile.
  rewrite (proj2 (Z.eqb_neq _ _) H0) in Hwhile.
  destruct Hwhile as (ws & Hreaped & Hws & [o Ho]).
  rewrite bind_run in Hret. simpl in Hret. injection Hret as <- <- <-.
  exists ws, o. rewrite Hws. destruct (decode_status _ _ Ho) as [-> _].
  repeat split; [done..|].
  rewrite app_nil_r.
  change (starts (?a :: ?b :: ?c :: ?d :: ?e :: ?f :: t2))
    with (starts ([a; b; c; d; e; f] ++ t2)).
  rewrite starts_app, (starts_none t2) by done. reflexivity.
Qed.

(** The parts of a run that ended with a value. *)
Lemma cycle_inv (restart : Z) (service : string) (run : list string) (c : Cycle)
    (d d' : Daemon) (stat : Z) (tr : list event) :
  cycle restart service run c d = (Ret stat, d', tr) →
  ∃ s1 t1 t2 t3,
    loop service run (c_run c) (signals d) = (Ret stat, s1, t1) ∧
    restart_wait restart (clock d) (c_naps c)
      (elapse (c_elapsed c) (set_signals s1 d)) = (Ret tt, d', t3) ∧
    tr = t1 ++ t2 ++ t3 ∧
    Forall (λ ev, is_start ev = false) t2.
Proof.
  unfold cycle, time.
  intros (laststart & d0 & t0 & t0' & [= <- <- <-] & Hrest & ->)%bind_inv_ret.
  apply bind_inv_ret in Hrest as (stat' & d1 & t1 & t1' & Hloop & Hrest & ->).
  unfold zoom in Hloop.
  destruct (loop service run (c_run c) (signals d)) as [[r1 s1] t1''] eqn:Hl.
  injection Hloop as -> <- <-.
  apply bind_inv_ret in Hrest as ([] & d2 & t2 & t2' & [= <- <-] & Hrest & ->).
  apply bind_inv_ret in Hrest as (d3 & d4 & t3 & t3' & [= <- <- <-] & Hrest & ->).
  apply bind_inv_ret in Hrest as ([] & d5 & t4 & t4' & Hwhen & Hrest & ->).
  apply bind_inv_ret in Hrest as ([] & d6 & t5 & t5' & Hwait & [= <- <- <-] & ->).
  assert (d5 = elapse (c_elapsed c) (set_signals s1 d) ∧
          Forall (λ ev, is_start ev = false) t4) as [-> Hw].
  { destruct (_ && _); simpl in Hwhen.
    - rewrite bind_run in Hwhen. simpl in Hwhen. injection Hwhen as <- <-.
      split; [done|]. by repeat constructor.
    - cbv [mret M_ret] in Hwhen. by injection Hwhen as <- <-. }
  exists s1, t1'', t4, t5. simpl. rewrite !app_nil_r. done.
Qed.

Lemma cycle_status (restart : Z) (service : string) (run : list string) (c : Cycle)
    (d d' : Daemon) (stat : Z) (tr : list event) :
  cycle restart service run c d = (Ret stat, d', tr) →
  ∃ ws o, reaped (r_fork (c_run c)) (r_ticks (c_run c)) = Some ws ∧
          decode ws = Some o ∧ stat = outcome_status o ∧ starts tr = 1%nat.
Proof.
  intros (s1 & t1 & t2 & t3 & Hloop & Hwait & -> & Hw)%cycle_inv.
  apply loop_reaps in Hloop as (ws & o & Hreaped & Ho & -> & Hst).
  apply restart_wait_starts in Hwait.
  exists ws, o. rewrite !starts_app, Hst, (starts_none t2), (starts_none t3) by done.
  done.
Qed.

Lemma restart_loop_status (restart : Z) (service : string) (run : list string)
    (cycles : list Cycle) (d d' : Daemon) (stat : Z) (tr : list event) :
  restart_loop restart service run cycles d = (Ret stat, d', tr) →
  ∃ n c ws o,
    cycles !! n = Some c ∧ starts tr = S n ∧
    reaped (r_fork (c_run c)) (r_ticks (c_run c)) = Some ws ∧
    decode ws = Some o ∧ stat = outcome_status o.
Proof.
  revert d tr. induction cycles as [|c cycles IH]; intros d tr; simpl; [done|].
  intros (stat0 & d1 & t1 & t2 & Hcycle & Hrest & ->)%bind_inv_ret.
  apply cycle_status in Hcycle as (ws & o & Hreaped & Ho & -> & Hst).
  rewrite bind_run in Hrest. simpl in Hrest.
  destruct (_ && _).
  - destruct (restart_loop restart service run cycles d1) as [[r2 d2] t3] eqn:Hloop.
    injection Hrest as -> -> <-.
    apply IH in Hloop as (n & c' & ws' & o' & Hc & Hst' & Hreaped' & Ho' & ->).
    exists (S n), c', ws', o'. rewrite starts_app, Hst, Hst'. done.
  - injection Hrest as <- <- <-. exists 0%nat, c, ws, o.
    rewrite starts_app, Hst. done.
Qed.

Lemma cleanUp_returns (pf : PidFile) (w : World) :
  ∃ pf' w' tr, cleanUp pf w = (Ret pf', w', tr).
Proof.
  unfold cleanUp. rewrite bind_run. destruct (isMine_run pf w) as [e ->].
  destruct (owner_pid pf w =? self w); run.
  - destruct (0 <=? _fd pf); run; by do 3 eexists.
  - destruct (isRunning_run pf (set_errno e w)) as [e' ->].
    destruct (running pf (set_errno e w)); run; destruct (0 <=? _fd pf); run;
      by do 3 eexists.
Qed.

(** ** The exit status of the supervisor *)

(** C1. When the try block of the detached process ends with a status,
    that is when its last run of the child ends and no restart follows,
    the process exits, and the status its parent sees is the outcome of the
    last child started: its exit code when waitpid reported that it
    exited, the number of the signal when it reported that a signal killed
    it. *)
Theorem final_status (restart : Z) (service : string) (run : list string)
    (mypf : PidFile) (cycles : list Cycle) (d d1 : Daemon) (stat : Z)
    (tr1 : list event) :
  (in_world (writePid mypf);; restart_loop restart service run cycles) d
    = (Ret stat, d1, tr1) →
  ∃ n c ws o d' tr,
    cycles !! n = Some c ∧
    starts tr1 = S n ∧
    reaped (r_fork (c_run c)) (r_ticks (c_run c)) = Some ws ∧
    decode ws = Some o ∧
    supervise restart service run mypf cycles d = (Exit (outcome_status o), d', tr) ∧
    exit_status (outcome_status o) = outcome_status o.
Proof.
  intros Hbody. unfold supervise. rewrite bind_run. unfold try_catch. rewrite Hbody.
  apply bind_inv_ret in Hbody as ([] & d0 & t0 & t1 & Hwrite & Hloop & ->).
  assert (starts t0 = 0%nat) as Hst0.
  { apply starts_none. revert Hwrite. unfold in_world.
    generalize d (Ret tt : result unit) d0 t0.
    change (emits (λ ev, is_start ev = false) (zoom world set_world (writePid mypf))).
    apply emits_zoom. unfold writePid, ftruncate, write. emits_tac.
    - by intros s r s' tr [= _ _ <-]; repeat constructor.
    - intros s r s' tr. destruct (full s); intros [= _ _ <-]; by repeat constructor. }
  apply restart_loop_status in Hloop as (n & c & ws & o & Hc & Hst & Hreaped & Ho & ->).
  destruct (decode_status _ _ Ho) as [_ Hrange].
  destruct (cleanUp_returns mypf (world d1)) as (pf' & w' & t2 & Hclean).
  exists n, c, ws, o.
  destruct (0 <? restart) eqn:Hr; do 2 eexists;
    (split; [done|]; split; [by rewrite starts_app, Hst0, Hst|];
     split; [done|]; split; [done|]; split; [|by apply exit_status_small]);
    run; unfold in_world, zoom; rewrite Hclean; run; reflexivity.
Qed.

(** ** Restarts *)

Lemma restart_wait_sound (restart laststart : Z) (naps : list Nap) (d d' : Daemon)
    (tr : list event) :
  Forall sound_sleep naps →
  restart_wait restart laststart naps d = (Ret tt, d', tr) →
  signals d' = signals d ∧
  (gotstopsig (signals d) = 0 →
   let delay := Z.max 0 (restart - (clock d - laststart)) in
   clock d' = clock d + delay ∧ tr = replicate (Z.to_nat delay) (Sleep 1)).
Proof.
  intros Hnaps. revert d tr.
  induction Hnaps as [|n naps [Hone Hquiet] _ IH]; intros d tr; simpl.
  - destruct (Z.eqb_spec (gotstopsig (signals d)) 0) as [Hs | Hs]; simpl.
    + destruct (Z.ltb_spec (clock d - laststart) restart); [done|].
      intros [= <- <-]. split; [done|]. intros _.
      replace (Z.max 0 _) with 0 by lia. split; [lia | done].
    + intros [= <- <-]. done.
  - destruct (Z.eqb_spec (gotstopsig (signals d)) 0) as [Hs | Hs]; simpl.
    + destruct (Z.ltb_spec (clock d - laststart) restart) as [Hlt | Hge].
      * unfold sleep. run. rewrite Hone, Hquiet. simpl.
        destruct (restart_wait restart laststart naps _) as [[r1 d1] t1] eqn:Hrest.
        intros [= -> <- <-]. apply IH in Hrest as [Hsig Hclock]. simpl in *.
        split; [done|]. intros _. destruct (Hclock Hs) as [-> ->].
        split; [lia|].
        replace (Z.to_nat (Z.max 0 (restart - (clock d - laststart))))
          with (S (Z.to_nat (Z.max 0 (restart - (clock d + 1 - laststart)))))
          by lia.
        done.
      * intros [= <- <-]. split; [done|]. intros _.
        replace (Z.max 0 _) with 0 by lia. split; [lia | done].
    + intros [= <- <-]. done.
Qed.

(** C4. After a run of the child the loop of main goes round again only
    when the restart interval is positive and no stop was requested;
    otherwise it ends with the status of that run. And when the sleeps last
    their second each and no signal is handled, the next start comes
    [max 0 (restart - elapsed)] seconds after the end of the run, where
    [elapsed] is counted from the start of that run: the process sleeps that
    many times one second, and two starts are [max restart runtime]
    seconds apart. *)
Theorem restart_policy (restart : Z) (service : string) (run : list string)
    (c : Cycle) (cycles : list Cycle) (d d' : Daemon) (stat : Z) (tr : list event) :
  cycle restart service run c d = (Ret stat, d', tr) →
  (¬ (0 < restart ∧ gotstopsig (signals d') = 0) →
   restart_loop restart service run (c :: cycles) d = (Ret stat, d', tr)) ∧
  (0 < restart ∧ gotstopsig (signals d') = 0 →
   restart_loop restart service run (c :: cycles) d =
   let '(r, d'', tr') := restart_loop restart service run cycles d' in
   (r, d'', tr ++ tr')) ∧
  (Forall sound_sleep (c_naps c) → gotstopsig (signals d') = 0 →
   let laststart := clock d in
   let now := clock d + c_elapsed c in
   let delay := Z.max 0 (restart - (now - laststart)) in
   clock d' = now + delay ∧
   clock d' - laststart = Z.max restart (c_elapsed c) ∧
   ∃ before, tr = before ++ replicate (Z.to_nat delay) (Sleep 1)).
Proof.
  intros Hcycle. split; [|split].
  - intros Hno. simpl. rewrite bind_run, Hcycle, bind_run. simpl.
    destruct (Z.eqb_spec (gotstopsig (signals d')) 0),
      (Z.ltb_spec 0 restart); simpl; try (by rewrite app_nil_r).
    destruct Hno. done.
  - intros [Hpos Hgo]. simpl. rewrite bind_run, Hcycle, bind_run. simpl.
    rewrite Hgo, (proj2 (Z.ltb_lt 0 restart) Hpos). simpl.
    by destruct (restart_loop restart service run cycles d') as [[r d''] tr'].
  - intros Hnaps Hgo laststart now delay.
    apply cycle_inv in Hcycle as (s1 & t1 & t2 & t3 & _ & Hwait & -> & _).
    apply restart_wait_sound in Hwait as [Hsig Hclock]; [|done].
    simpl in Hsig, Hclock. rewrite Hsig in Hgo. destruct (Hclock Hgo) as [Hc ->].
    subst laststart now delay. rewrite Hc.
    split; [done|]. split; [lia|]. exists (t1 ++ t2). by rewrite app_assoc.
Qed.

(** * Further properties of the code *)

(** ** The pid file, written and read back *)

Lemma isdigit_plain (c : ascii) :
  isdigit c = true →
  isspace c = false ∧ c ≠ "-"%char ∧ c ≠ "+"%char ∧ c ≠ "010"%char.
Proof.
  destruct c as [[] [] [] [] [] [] [] []]; try discriminate; done.
Qed.

Lemma strtol_digit (c : ascii) (r : string) :
  isdigit c = true → strtol (String c r) = clamp_long (digits_value 0 (String c r)).
Proof.
  destruct c as [[] [] [] [] [] [] [] []]; try discriminate; reflexivity.
Qed.

Lemma digits_value_stop (acc : Z) (s : string) :
  (∀ d rest, s = String d rest → isdigit d = false) → digits_value acc s = acc.
Proof.
  destruct s as [|c r]; [reflexivity|]. intros H. simpl. by rewrite (H c r).
Qed.

Lemma pretty_N_char_digit (x : N) :
  (x < 10)%N →
  isdigit (pretty_N_char x) = true ∧ digit_value (pretty_N_char x) = Z.of_N x.
Proof.
  intros Hx.
  assert (x = 0 ∨ x = 1 ∨ x = 2 ∨ x = 3 ∨ x = 4 ∨ x = 5 ∨ x = 6 ∨ x = 7 ∨ x = 8
          ∨ x = 9)%N as H by lia.
  repeat destruct H as [-> | H]; try subst x; split; reflexivity.
Qed.

Lemma pretty_N_go_app (x : N) (s t : string) :
  pretty_N_go x s +:+ t = pretty_N_go x (s +:+ t).
Proof.
  revert s. induction (N.lt_wf_0 x) as [x _ IH]; intros s.
  destruct (decide (x = 0)%N) as [-> | Hx]; [by rewrite !pretty_N_go_0|].
  rewrite (pretty_N_go_step x s), (pretty_N_go_step x (s +:+ t)) by lia.
  rewrite IH by (apply N.div_lt; lia). reflexivity.
Qed.

Lemma pretty_N_go_value (x : N) (s : string) :
  digits_value 0 (pretty_N_go x s) = digits_value (Z.of_N x) s.
Proof.
  revert s. induction (N.lt_wf_0 x) as [x _ IH]; intros s.
  destruct (decide (x = 0)%N) as [-> | Hx]; [by rewrite pretty_N_go_0|].
  rewrite pretty_N_go_step by lia. rewrite IH by (apply N.div_lt; lia).
  destruct (pretty_N_char_digit (x `mod` 10)) as [Hd Hv]; [by apply N.mod_lt|].
  simpl. rewrite Hd, Hv. f_equal.
  rewrite (N.div_mod x 10) at 3 by done. lia.
Qed.

Lemma pretty_N_go_digits (x : N) (s : string) :
  all_digits s = true → all_digits (pretty_N_go x s) = true.
Proof.
  revert s. induction (N.lt_wf_0 x) as [x _ IH]; intros s Hs.
  destruct (decide (x = 0)%N) as [-> | Hx]; [by rewrite pretty_N_go_0|].
  rewrite pretty_N_go_step by lia. apply IH; [apply N.div_lt; lia|].
  destruct (pretty_N_char_digit (x `mod` 10)) as [Hd _]; [by apply N.mod_lt|].
  simpl. by rewrite Hd.
Qed.

Lemma pretty_N_go_length (k : nat) (x : N) (s : string) :
  (x < 10 ^ N.of_nat k)%N →
  (String.length (pretty_N_go x s) ≤ String.length s + k)%nat.
Proof.
  revert x s. induction k as [|k IH]; intros x s Hx.
  { assert (x = 0%N) as -> by (simpl in Hx; lia). rewrite pretty_N_go_0. lia. }
  destruct (decide (x = 0)%N) as [-> | Hx0]; [rewrite pretty_N_go_0; lia|].
  rewrite pretty_N_go_step by lia.
  etrans; [apply IH|simpl; lia].
  apply N.Div0.div_lt_upper_bound.
  rewrite Nat2N.inj_succ, N.pow_succ_r' in Hx. lia.
Qed.

Lemma pretty_N_go_nonempty (x : N) (s : string) :
  (0 < x)%N → pretty_N_go x s ≠ EmptyString.
Proof.
  revert s. induction (N.lt_wf_0 x) as [x _ IH]; intros s Hx.
  rewrite pretty_N_go_step by done.
  destruct (decide (x `div` 10 = 0)%N) as [-> | Hd]; [by rewrite pretty_N_go_0|].
  apply IH; [apply N.div_lt; lia | by apply N.neq_0_lt_0].
Qed.

(** The decimal digits of a pid: [pretty] is sprintf with %d. *)
Lemma pretty_pid (n : Z) :
  0 < n < 2 ^ 31 →
  ∃ c r, pretty n = String c r ∧ all_digits (pretty n) = true ∧
         (String.length (pretty n) ≤ 10)%nat ∧
         ∀ rest, digits_value 0 (pretty n +:+ rest) = digits_value n rest.
Proof.
  intros Hn. destruct n as [|p|p]; try lia.
  assert (pretty (Z.pos p) = pretty_N_go (N.pos p) EmptyString) as Heq by done.
  rewrite Heq.
  destruct (pretty_N_go (N.pos p) EmptyString) as [|c r] eqn:Hp.
  { by apply pretty_N_go_nonempty in Hp. }
  exists c, r. rewrite <- Hp. split; [done|]. split; [by apply pretty_N_go_digits|].
  split.
  - apply (pretty_N_go_length 10 (N.pos p) EmptyString).
    change (10 ^ N.of_nat 10)%N with 10000000000%N. lia.
  - intros rest. by rewrite pretty_N_go_app, pretty_N_go_value.
Qed.

Lemma digits_value_newline (acc : Z) (s : string) :
  digits_value acc (s +:+ nl) = digits_value acc s.
Proof.
  revert acc. induction s as [|c r IH]; intros acc; [reflexivity|].
  simpl. destruct (isdigit c); [apply IH | reflexivity].
Qed.

(** The newline that ends a line changes nothing of what strtol reads. *)
Lemma strtol_newline (s : string) : strtol (s +:+ nl) = strtol s.
Proof.
  unfold strtol. induction s as [|c r IH]; [reflexivity|].
  simpl. destruct (isspace c) eqn:Hc; [exact IH|].
  assert (Hgo : clamp_long (digits_value 0 (String c (r +:+ nl)))
                = clamp_long (digits_value 0 (String c r))).
  { change (String c (r +:+ nl)) with (String c r +:+ nl).
    by rewrite digits_value_newline. }
  destruct (decide (c = "-"%char)) as [-> | Hm].
  { by rewrite digits_value_newline. }
  destruct (decide (c = "+"%char)) as [-> | Hp].
  { by rewrite digits_value_newline. }
  destruct c as [[] [] [] [] [] [] [] []]; try exact Hgo; congruence.
Qed.

Lemma substring_empty (n : nat) : substring 0 n EmptyString = EmptyString.
Proof. by destruct n. Qed.

(** What fgets reads is the first [n] characters of the first line, with
    the newline when it is among them. *)
Lemma take_line_first_line (n : nat) (content : string) :
  take_line n content = substring 0 n (first_line content) ∨
  take_line n content = substring 0 n (first_line content) +:+ nl.
Proof.
  revert n. induction content as [|c r IH]; intros n.
  { left. rewrite substring_empty. by destruct n. }
  destruct n as [|n]; simpl.
  { left. by destruct (Ascii.eqb c "010"). }
  destruct (Ascii.eqb c "010") eqn:Hnl.
  - right. apply Ascii.eqb_eq in Hnl as ->. by rewrite substring_empty.
  - destruct (IH n) as [-> | ->]; [by left | by right].
Qed.

Lemma fgets_atoi (content : string) :
  atoi (fgets "0" 100 content) = atoi (substring 0 99 (first_line content)).
Proof.
  unfold fgets, atoi. destruct content as [|c r] eqn:Hc; [reflexivity|].
  rewrite <- Hc. change (Nat.pred 100) with 99%nat.
  destruct (take_line_first_line 99 content) as [-> | ->]; [done|].
  by rewrite strtol_newline.
Qed.

(** X1.  Of a pid file that can be opened, [readPid] reads the first line
    and of it the first 99 characters at most: the pid is [atoi] of them,
    whatever else the file holds.  Reading changes nothing and leaves no
    trace. *)
Theorem readPid_first_line (pf : PidFile) (w : World) (content : string) :
  fs w !! _pidfile pf = Some content →
  readPid pf w = (Ret (atoi (substring 0 99 (first_line content))), w, []).
Proof. intros Hfile. by rewrite readPid_run, Hfile, fgets_atoi. Qed.

Lemma take_line_digits (s rest : string) (n : nat) :
  all_digits s = true → (String.length s < n)%nat →
  take_line n (s +:+ nl +:+ rest) = s +:+ nl.
Proof.
  revert n. induction s as [|c r IH]; intros n Hs Hn.
  { destruct n; [simpl in Hn; lia | reflexivity]. }
  destruct n as [|n]; [simpl in Hn; lia|].
  simpl in Hs. apply andb_prop in Hs as [Hc Hr].
  destruct (isdigit_plain c Hc) as (_ & _ & _ & Hnl).
  simpl. rewrite (proj2 (Ascii.eqb_neq _ _) Hnl).
  rewrite IH; [done | done | simpl in Hn; lia].
Qed.

(** What atoi makes of a pid as sprintf wrote it. *)
Lemma atoi_pretty (n : Z) :
  0 < n < 2 ^ 31 → atoi (fgets "0" 100 (pretty n +:+ nl)) = n.
Proof.
  intros Hn. destruct (pretty_pid n Hn) as (c & r & Heq & Hdig & Hlen & Hval).
  assert (fgets "0" 100 (pretty n +:+ nl) = pretty n +:+ nl) as ->.
  { unfold fgets. destruct (pretty n +:+ nl) as [|c' r'] eqn:E.
    { rewrite Heq in E. discriminate. }
    rewrite <- E. change (Nat.pred 100) with 99%nat.
    change (pretty n +:+ nl) with (pretty n +:+ nl +:+ EmptyString).
    apply take_line_digits; [done | lia]. }
  unfold atoi. rewrite Heq. change (String c r +:+ nl) with (String c (r +:+ nl)).
  assert (isdigit c = true) as Hc.
  { rewrite Heq in Hdig. simpl in Hdig. by apply andb_prop in Hdig as [? _]. }
  rewrite strtol_digit by done.
  change (String c (r +:+ nl)) with (String c r +:+ nl). rewrite <- Heq, Hval.
  rewrite digits_value_stop.
  - unfold clamp_long, LONG_MIN, LONG_MAX, to_int, wrap.
    rewrite Z.min_r, Z.max_r by lia.
    change (2 ^ (32 - 1)) with 2147483648. change (2 ^ 32) with 4294967296.
    rewrite Z.mod_small; lia.
  - by intros d rest [= <- _].
Qed.

(** A number from 0 to 2^31 - 1 as sprintf writes it with %d. *)
Lemma pretty_numeral (n : Z) :
  0 ≤ n < 2 ^ 31 →
  ∃ c r, pretty n = String c r ∧ isdigit c = true ∧ all_digits (pretty n) = true ∧
         (String.length (pretty n) ≤ 10)%nat ∧
         ∀ rest, digits_value 0 (pretty n +:+ rest) = digits_value n rest.
Proof.
  intros Hn. destruct (decide (n = 0)) as [-> | Hne].
  { exists "0"%char, EmptyString. repeat split; try reflexivity. simpl. lia. }
  destruct (pretty_pid n) as (c & r & Heq & Hdig & Hlen & Hval); [lia|].
  exists c, r. repeat split; try done.
  rewrite Heq in Hdig. simpl in Hdig. by apply andb_prop in Hdig as [? _].
Qed.

(** What fgets reads of a file that begins with digits: the digits, and
    then nothing or what begins as the rest of the file does. *)
Lemma take_line_numeral (s rest : string) (k : nat) :
  all_digits s = true → (String.length s < k)%nat →
  ∃ t, take_line k (s +:+ rest) = s +:+ t ∧
       ∀ d r, t = String d r → ∃ r', rest = String d r'.
Proof.
  revert k. induction s as [|c s IH]; intros k Hs Hk.
  - destruct k as [|k]; [simpl in Hk; lia|]. destruct rest as [|d r].
    + exists EmptyString. split; [reflexivity | discriminate].
    + simpl. destruct (Ascii.eqb d "010"); eexists; (split; [reflexivity|]);
        intros ? ? [= <- _]; eauto.
  - destruct k as [|k]; [simpl in Hk; lia|].
    simpl in Hs. apply andb_prop in Hs as [Hc Hs].
    destruct (isdigit_plain c Hc) as (_ & _ & _ & Hnl).
    destruct (IH k Hs) as (t & Ht & Hrest); [simpl in Hk; lia|].
    exists t. split; [|done].
    change (String c s +:+ rest) with (String c (s +:+ rest)). simpl.
    by rewrite (proj2 (Ascii.eqb_neq _ _) Hnl), Ht.
Qed.

(** What atoi makes of the first line of a file that begins with a number
    in decimal, when no digit follows the number. *)
Lemma atoi_numeral (n : Z) (rest : string) :
  0 ≤ n < 2 ^ 31 →
  (∀ d r, rest = String d r → isdigit d = false) →
  atoi (fgets "0" 100 (pretty n +:+ rest)) = n.
Proof.
  intros Hn Hrest.
  destruct (pretty_numeral n Hn) as (c & r & Heq & Hc & Hdig & Hlen & Hval).
  destruct (take_line_numeral (pretty n) rest 99 Hdig) as (t & Ht & Hfirst); [lia|].
  assert (fgets "0" 100 (pretty n +:+ rest) = pretty n +:+ t) as ->.
  { unfold fgets. destruct (pretty n +:+ rest) as [|c' r'] eqn:E.
    { rewrite Heq in E. discriminate. }
    exact Ht. }
  unfold atoi. rewrite Heq. change (String c r +:+ t) with (String c (r +:+ t)).
  rewrite strtol_digit by done.
  change (String c (r +:+ t)) with (String c r +:+ t). rewrite <- Heq, Hval.
  rewrite digits_value_stop.
  - unfold clamp_long, LONG_MIN, LONG_MAX, to_int, wrap.
    rewrite Z.min_r, Z.max_r by lia.
    change (2 ^ (32 - 1)) with 2147483648. change (2 ^ 32) with 4294967296.
    rewrite Z.mod_small; lia.
  - intros d r' Heq'. destruct (Hfirst d r' Heq') as [r'' ->]. by eapply Hrest.
Qed.

(** C6. Reading the owner pid never fails: it returns a pid. That pid is
    0 when the file is missing and when no decimal integer can be read from
    its first line, and it is the number the file records: [n], when the
    file begins with [n] in decimal, from 0 to 2^31 - 1, and no digit
    follows. The liveness check returns true exactly when that pid is at
    least 1 and the null-signal probe of it succeeds or fails with EPERM; it
    returns false when the pid is below 1 or the probe fails with ESRCH. *)
Theorem pid_file_liveness (pf : PidFile) (w : World) :
  ∃ pid w',
    readPid pf w = (Ret pid, w', []) ∧
    (fs w !! _pidfile pf = None → pid = 0) ∧
    (∀ content, fs w !! _pidfile pf = Some content →
                ¬ decimal (first_line content) → pid = 0) ∧
    (∀ n rest, fs w !! _pidfile pf = Some (pretty n +:+ rest) →
               0 ≤ n < 2 ^ 31 →
               (∀ d r, rest = String d r → isdigit d = false) → pid = n) ∧
    ((isRunning pf w).1.1 = Ret true ↔
     1 ≤ pid ∧ ((kill pid 0 w).1.1 = Ret SysOk ∨ (kill pid 0 w).1.1 = Ret (SysErr EPERM))) ∧
    (pid < 1 ∨ (kill pid 0 w).1.1 = Ret (SysErr ESRCH) → (isRunning pf w).1.1 = Ret false).
Proof.
  destruct (isRunning_run pf w) as (e & Hrun).
  exists (owner_pid pf w). rewrite readPid_run, Hrun, kill_result. simpl.
  unfold running, owner_pid.
  destruct (fs w !! _pidfile pf) as [content|] eqn:Hfile; eexists.
  - split; [reflexivity|]. split; [done|]. split.
    { intros ? [= <-] Hn. unfold atoi, fgets.
      destruct content as [|c r] eqn:Hc; [reflexivity|]. rewrite <- Hc in *.
      rewrite strtol_not_decimal; [reflexivity|].
      intros Hd. apply Hn. by apply (decimal_take_line 99). }
    split.
    { intros n rest [= ->] Hn Hrest. by apply atoi_numeral. }
    set (pid := atoi _). split.
    + split.
      * intros [= [H1 H2]%andb_prop]. apply bool_decide_eq_true in H1, H2.
        split; [done|]. destruct H2 as [[] H2]; rewrite H2; auto.
      * intros [H1 H2]. f_equal. apply andb_true_intro.
        split; apply bool_decide_eq_true; [done|].
        destruct (procs w !! pid) as [[]|]; [eauto..|]. by destruct H2.
    + intros [H1 | H2]; f_equal.
      * rewrite bool_decide_eq_false_2 by lia. done.
      * destruct (procs w !! pid) as [[]|]; try done.
        rewrite (bool_decide_eq_false_2 (is_Some None)) by (by intros [? ?]).
        apply andb_false_r.
  - split; [reflexivity|]. split; [done|]. split; [done|]. split; [done|].
    rewrite bool_decide_eq_false_2 by lia. simpl. split.
    + split; [done|lia].
    + done.
Qed.

(** X2.  What [writePid] writes, [readPid] reads back.  On an open pid
    file, the disk not full, [writePid] replaces what the file held by the
    pid of the process in decimal and a newline; after it [readPid] returns
    that pid and [isMine] is true. *)
Theorem writePid_readPid (pf : PidFile) (w : World) :
  0 ≤ _fd pf →
  is_Some (fs w !! _pidfile pf) →
  full w = false →
  0 < self w < 2 ^ 31 →
  ∃ w' tr,
    writePid pf w = (Ret tt, w', tr) ∧
    fs w' = <[_pidfile pf := pretty (self w) +:+ nl]> (fs w) ∧
    WriteFd (_pidfile pf) (pretty (self w) +:+ nl) ∈ tr ∧
    readPid pf w' = (Ret (self w), w', []) ∧
    (isMine pf w').1.1 = Ret true.
Proof.
  intros Hfd [old Hold] Hfull Hself. unfold writePid.
  rewrite (proj2 (Z.ltb_ge _ _)) by lia. unfold ftruncate, write. run.
  rewrite Hfull. run. rewrite Z.eqb_refl. simpl. run.
  do 2 eexists. split; [reflexivity|].
  assert (Hfs : ∀ f : gmap string string, f !! _pidfile pf = Some old →
    match match f !! _pidfile pf with
          | Some _ => <[_pidfile pf:=EmptyString]> f
          | None => f
          end !! _pidfile pf with
    | Some _ => <[_pidfile pf:=pretty (self w) +:+ nl]>
                  match f !! _pidfile pf with
                  | Some _ => <[_pidfile pf:=EmptyString]> f
                  | None => f
                  end
    | None => match f !! _pidfile pf with
              | Some _ => <[_pidfile pf:=EmptyString]> f
              | None => f
              end
    end = <[_pidfile pf:=pretty (self w) +:+ nl]> f).
  { intros f ->. by rewrite lookup_insert_eq, insert_insert_eq. }
  split; [by apply Hfs|]. split; [mem; auto|].
  assert (Hread : ∀ w', self w' = self w →
    fs w' = <[_pidfile pf:=pretty (self w) +:+ nl]> (fs w) →
    readPid pf w' = (Ret (self w), w', [])).
  { intros w' Hs Hf. rewrite readPid_run, Hf, lookup_insert_eq.
    by rewrite atoi_pretty. }
  split.
  - apply Hread; [done | by apply Hfs].
  - unfold isMine. rewrite bind_run, Hread; [|done | by apply Hfs].
    simpl. by rewrite Z.eqb_refl.
Qed.

(** X3.  [writePid] aborts when the pid file was never opened, and the
    world is as it was.  When the write fails it says so on stderr and exits
    with status 1; the file was truncated before the write, so that a pid
    file that was there is left empty, reads as pid 0 and names no running
    process. *)
Theorem writePid_fails (pf : PidFile) (w : World) :
  (_fd pf < 0 → writePid pf w = (Abort, w, [])) ∧
  (0 ≤ _fd pf → full w = true →
   ∃ w',
     writePid pf w =
       (Exit 1, w',
        [Ftruncate (_pidfile pf);
         WriteFd (_pidfile pf) (pretty (self w) +:+ nl);
         Printf stderr ("could not write pid to " +:+ _pidfile pf +:+ ": "
                        +:+ strerror ENOSPC +:+ nl)]) ∧
     exit_status 1 = 1 ∧
     (fs w !! _pidfile pf = None → fs w' = fs w) ∧
     (is_Some (fs w !! _pidfile pf) →
      fs w' = <[_pidfile pf := EmptyString]> (fs w) ∧
      readPid pf w' = (Ret 0, w', []) ∧
      (isRunning pf w').1.1 = Ret false)).
Proof.
  split.
  - intros Hfd. unfold writePid. rewrite (proj2 (Z.ltb_lt _ _)) by lia. reflexivity.
  - intros Hfd Hfull. unfold writePid.
    rewrite (proj2 (Z.ltb_ge _ _)) by lia. unfold ftruncate, write. run.
    rewrite Hfull. run.
    rewrite (proj2 (Z.eqb_neq (-1) _)) by lia. simpl. run.
    set (w1 := set_errno ENOSPC (set_fs _ w)).
    exists w1. split; [reflexivity|]. split; [reflexivity|]. split.
    + intros Hnone. subst w1. simpl. by rewrite Hnone.
    + intros [old Hold].
      assert (Hfs : fs w1 = <[_pidfile pf:=EmptyString]> (fs w))
        by (subst w1; simpl; by rewrite Hold).
      split; [done|].
      assert (Hread : ∀ w', fs w' = <[_pidfile pf:=EmptyString]> (fs w) →
                readPid pf w' = (Ret 0, w', [])).
      { intros w' Hf. by rewrite readPid_run, Hf, lookup_insert_eq. }
      split; [by apply Hread|].
      unfold isRunning. rewrite bind_run, Hread by done. reflexivity.
Qed.

(** ** Opening the pid file and cleaning up *)

(** The descriptor [open] returns was not open before. *)
Lemma lowest_free_fresh (s : gset Z) : lowest_free s ∉ s.
Proof.
  unfold lowest_free.
  destruct (head _) as [n|] eqn:Hhead; simpl.
  { by apply head_Some_elem_of, list_elem_of_filter in Hhead as [? _]. }
  apply head_None in Hhead. intros Hin.
  assert (Hall : list_to_set (seqZ 0 (Z.of_nat (size s))) ⊆ s).
  { intros n Hn%elem_of_list_to_set. destruct (decide (n ∈ s)) as [|Hno]; [done|].
    assert (n ∈ filter (λ n, n ∉ s) (seqZ 0 (Z.of_nat (size s)))) as Hf
      by (by apply list_elem_of_filter).
    rewrite Hhead in Hf. by apply elem_of_nil in Hf. }
  apply set_subseteq_size_eq in Hall.
  - assert (Z.of_nat (size s) ∈@{gset Z} list_to_set (seqZ 0 (Z.of_nat (size s))))
      as Hin' by (by rewrite Hall).
    apply elem_of_list_to_set, elem_of_seqZ in Hin'. lia.
  - rewrite size_list_to_set by apply NoDup_seqZ. rewrite length_seqZ. lia.
Qed.

Lemma union_difference_fresh (x : Z) (s : gset Z) :
  x ∉ s → ({[x]} ∪ s) ∖ {[x]} = s.
Proof.
  intros Hx. apply set_eq. intros y.
  rewrite elem_of_difference, elem_of_union, elem_of_singleton. split.
  - by intros [[-> | ?] ?].
  - intros Hy. split; [by right | by intros ->].
Qed.

(** X4.  [writeOpen] on a pid file not yet opened.  It never changes what
    a pid file that exists holds, nor any other file.  When it returns true
    it holds the lock through a descriptor that was not open before, marked
    close-on-exec, the file exists, and nothing was printed on stderr.  When
    it returns false, because the file cannot be opened for writing or
    because somebody holds the lock, it has said which on stderr, [_fd] is
    -1, and the descriptors and the locks are as before. *)
Theorem writeOpen_outcome (pf : PidFile) (w : World) :
  _fd pf < 0 →
  ∃ ok pf' w' tr,
    writeOpen pf w = (Ret (ok, pf'), w', tr) ∧
    _pidfile pf' = _pidfile pf ∧
    (∀ content, fs w !! _pidfile pf = Some content → fs w' = fs w) ∧
    (∀ path, path ≠ _pidfile pf → fs w' !! path = fs w !! path) ∧
    (ok = true →
     _fd pf' = lowest_free (fds w) ∧ (_fd pf' ∉ fds w) ∧
     fds w' = {[_fd pf']} ∪ fds w ∧
     flocked w' = {[_pidfile pf]} ∪ flocked w ∧
     is_Some (fs w' !! _pidfile pf) ∧
     Cloexec (_fd pf') ∈ tr ∧
     Forall (λ ev, ∀ text, ev ≠ Printf stderr text) tr) ∧
    (ok = false →
     _fd pf' = -1 ∧ fds w' = fds w ∧ flocked w' = flocked w ∧
     ∃ reason,
       Printf stderr ("could not " +:+ reason +:+ " pidfile " +:+ _pidfile pf +:+ ": "
                      +:+ strerror (errno_ w') +:+ nl) ∈ tr ∧
       (reason = "create" ∧ _pidfile pf ∈ readonly w ∨
        reason = "lock" ∧ _pidfile pf ∈ flocked w)).
Proof.
  intros Hfd. unfold writeOpen. rewrite bind_run. simpl.
  rewrite (proj2 (Z.leb_gt _ _)) by lia. simpl.
  rewrite bind_run. unfold open_creat.
  pose proof (lowest_free_fresh (fds w)) as Hfresh.
  pose proof (lowest_free_nonneg (fds w)) as Hfree.
  case_bool_decide as Hro; simpl.
  { run.
    do 4 eexists. split; [reflexivity|]. simpl. split; [done|].
    split; [done|]. split; [done|]. split; [done|]. intros _.
    split; [done|]. split; [done|]. split; [done|].
    exists "create". split; [mem; auto | auto]. }
  rewrite (proj2 (Z.ltb_ge _ _)) by lia.
  rewrite bind_run. unfold flock. simpl.
  assert (Hkeep : ∀ content, fs w !! _pidfile pf = Some content →
            match fs w !! _pidfile pf with
            | Some _ => fs w
            | None => <[_pidfile pf:=EmptyString]> (fs w)
            end = fs w) by (by intros content ->).
  assert (Hother : ∀ path, path ≠ _pidfile pf →
            match fs w !! _pidfile pf with
            | Some _ => fs w
            | None => <[_pidfile pf:=EmptyString]> (fs w)
            end !! path = fs w !! path).
  { intros path Hne. destruct (fs w !! _pidfile pf); [done|].
    by rewrite lookup_insert_ne. }
  case_bool_decide as Hlk; simpl; run.
  - do 4 eexists. split; [reflexivity|]. simpl. split; [done|].
    split; [done|]. split; [done|]. split; [done|]. intros _.
    split; [done|]. split; [by apply union_difference_fresh|]. split; [done|].
    exists "lock". split; [mem; auto | auto].
  - do 4 eexists. split; [reflexivity|]. simpl. split; [done|].
    split; [done|]. split; [done|]. split; [intros _ | done].
    split; [done|]. split; [done|]. split; [done|]. split; [done|]. split.
    { destruct (fs w !! _pidfile pf) eqn:E; [by rewrite E | by rewrite lookup_insert_eq]. }
    split; [mem; auto|]. repeat constructor; done.
Qed.

Lemma probe_kill_only (pf : PidFile) (w : World) (ev : event) :
  ev ∈ probe pf w → ev = Kill (owner_pid pf w) 0.
Proof.
  unfold probe. case_bool_decide; [|by intros ?%elem_of_nil].
  by intros ->%list_elem_of_singleton.
Qed.

(** X5.  [cleanUp] removes the pid file exactly when the pid in it is the
    pid of this process or names no running process: the pid file of another
    live process is left alone.  Either way it sends no signal but the probe
    with signal 0, closes the descriptor if one is open, and with it gives
    up the lock, and leaves [_fd] at -1. *)
Theorem cleanUp_outcome (pf : PidFile) (w : World) :
  ∃ pf' w' tr,
    cleanUp pf w = (Ret pf', w', tr) ∧
    _fd pf' = -1 ∧ _pidfile pf' = _pidfile pf ∧
    (owner_pid pf w = self w ∨ running pf w = false →
     fs w' = delete (_pidfile pf) (fs w) ∧ Remove (_pidfile pf) ∈ tr) ∧
    (owner_pid pf w ≠ self w ∧ running pf w = true →
     fs w' = fs w ∧ ∀ path, Remove path ∉ tr) ∧
    Forall signals_nobody tr ∧
    (0 ≤ _fd pf →
     fds w' = fds w ∖ {[_fd pf]} ∧ flocked w' = flocked w ∖ {[_pidfile pf]}) ∧
    (_fd pf < 0 → fds w' = fds w ∧ flocked w' = flocked w).
Proof.
  unfold cleanUp. rewrite bind_run. destruct (isMine_run pf w) as [e ->].
  pose proof (probe_signals_nobody pf w) as Hprobe.
  assert (Hkill : ∀ path, Remove path ∉ probe pf w).
  { intros path Hin%probe_kill_only. done. }
  destruct (Z.eqb_spec (owner_pid pf w) (self w)) as [Hmine | Hmine]; run.
  - destruct (Z.leb_spec 0 (_fd pf)); run; do 3 eexists;
      (split; [reflexivity|]); simpl;
      (split; [done|]); (split; [done|]);
      (split; [intros _; split; [done | mem; auto]|]);
      (split; [by intros []|]);
      (split; [repeat constructor|]); split; (done || lia).
  - destruct (isRunning_run pf (set_errno e w)) as [e' ->].
    rewrite running_errno.
    change (probe pf (set_errno e w)) with (probe pf w).
    set (pr := probe pf w) in *. clearbody pr.
    destruct (running pf w) eqn:Hrun; run;
      destruct (Z.leb_spec 0 (_fd pf)); run; do 3 eexists;
      (split; [reflexivity|]); simpl;
      (split; [done|]); (split; [done|]).
    all: split; [first [by intros [|] | intros _; split; [done | mem; auto]]|].
    all: split; [first [by intros [_ [=]]
                       |intros _; split; [done|];
                        intros path; rewrite !not_elem_of_app, ?not_elem_of_cons;
                        repeat split;
                        (apply Hkill || apply not_elem_of_nil || done)]|].
    all: split; [rewrite ?Forall_app; repeat split; try done; repeat constructor|].
    all: split; (done || lia).
Qed.

(** ** The options *)

Lemma last_cons_default {A} (d x : A) (l : list A) :
  default d (last (x :: l)) = default x (last l).
Proof.
  destruct l as [|y l]; [done|]. change (last (x :: y :: l)) with (last (y :: l)).
  destruct (last (y :: l)) eqn:E; [done|]. by apply last_None in E.
Qed.

Lemma last_cons_some {A} (x : A) (l : list A) :
  last (x :: l) = Some (default x (last l)).
Proof.
  destruct l as [|y l]; [done|]. change (last (x :: y :: l)) with (last (y :: l)).
  destruct (last (y :: l)) eqn:E; [done|]. by apply last_None in E.
Qed.

Lemma recognized_optstring (ch : ascii) : recognized ch → ch ∈ optstring.
Proof.
  unfold recognized, optstring. rewrite !elem_of_cons, !elem_of_nil. tauto.
Qed.

Lemma values_cons (ch ch' : ascii) (arg : string) (opts : list (ascii * string)) :
  values ch ((ch', arg) :: opts) =
  if decide (ch' = ch) then arg :: values ch opts else values ch opts.
Proof.
  unfold values. destruct (decide (ch' = ch)) as [Heq | Hne].
  - by rewrite filter_cons_True.
  - by rewrite filter_cons_False.
Qed.

(** X6.  When every option has a case of its own in the switch, each of
    -s, -r, -p and -k has the argument given with it last on the command
    line, -r through [atoi], and its initial value when it was not given;
    one -S anywhere sets the stop mode.  The parsing changes nothing and
    prints nothing. *)
Theorem options_last_wins (prog : string) (opts : list (ascii * string))
    (o0 : Options) (w : World) :
  Forall (λ p, recognized p.1) opts →
  options prog opts o0 w =
  (Ret {| doStop := doStop o0 || bool_decide ("S"%char ∈ opts.*1);
          restart := default (restart o0) (atoi <$> last (values "r" opts));
          service := default (service o0) (last (values "s" opts));
          pidfile := default (pidfile o0) (last (values "p" opts));
          killcmd := match last (values "k" opts) with
                     | Some cmd => Some cmd
                     | None => killcmd o0
                     end |}, w, []).
Proof.
  intros Hopts. revert o0. induction Hopts as [|[ch arg] opts Hch _ IH]; intros o0.
  { simpl. rewrite orb_false_r. by destruct o0. }
  assert (HS : ch ≠ "S"%char →
    bool_decide ("S"%char ∈ ((ch, arg) :: opts).*1) = bool_decide ("S"%char ∈ opts.*1)).
  { intros Hne. apply bool_decide_ext. rewrite fmap_cons, elem_of_cons. simpl.
    split; [by intros [? | ?] | auto]. }
  rewrite options_cons, bool_decide_eq_true_2 by (by apply recognized_optstring).
  unfold recognized in Hch. simpl in Hch. rewrite !elem_of_cons, elem_of_nil in Hch.
  destruct Hch as [-> | [-> | [-> | [-> | [-> | []]]]]]; rewrite ?HS by done;
    cbv beta iota delta [Ascii.eqb Bool.eqb andb]; rewrite IH; do 3 f_equal;
    simpl restart; simpl service; simpl pidfile; simpl killcmd; simpl doStop; f_equal.
  all: rewrite ?values_cons; simpl; rewrite ?last_cons_some; simpl.
  all: try done.
  - by destruct (last (values "r" opts)).
  - by rewrite orb_true_r.
  - by destruct (last (values "k" opts)).
Qed.

Lemma options_stop_at (prog : string) (good rest : list (ascii * string))
    (ch : ascii) (arg : string) (o0 : Options) (w : World) :
  Forall (λ p, recognized p.1) good →
  ¬ recognized ch →
  options prog (good ++ (ch, arg) :: rest) o0 w =
  (Exit (if Ascii.eqb ch "h" then 0 else 1), w,
   (if Ascii.eqb ch "h" then []
    else [Printf stderr (prog +:+ ": invalid option -- '" +:+ String ch "'" +:+ nl)])
   ++ [Printf stderr (usage_text prog)]).
Proof.
  intros Hgood Hch. revert o0.
  induction Hgood as [|[c a] good Hc _ IH]; intros o0.
  - simpl app. rewrite options_cons.
    destruct (Ascii.eqb_spec ch "h") as [-> | Hh]; [reflexivity|].
    rewrite bool_decide_eq_false_2; [reflexivity|].
    unfold recognized in Hch. unfold optstring.
    rewrite !elem_of_cons, !elem_of_nil in *. tauto.
  - rewrite <- app_comm_cons, options_cons,
      bool_decide_eq_true_2 by (by apply recognized_optstring).
    unfold recognized in Hc. simpl in Hc. rewrite !elem_of_cons, elem_of_nil in Hc.
    destruct Hc as [-> | [-> | [-> | [-> | [-> | []]]]]]; simpl; apply IH.
Qed.

(** X7.  The first option without a case of its own ends the program,
    whatever options and arguments follow.  For -h [main] prints the usage
    on stderr and exits with status 0.  Any other character is no option:
    getopt writes its diagnostic on stderr, then [main] prints the usage
    there and exits with status 1.  Before that only SIGQUIT was set to be
    ignored, and the world is as it was. *)
Theorem main_usage (e : Env) (prog : string) (good rest : list (ascii * string))
    (ch : ascii) (arg : string) (args : list string) (w : World) :
  Forall (λ p, recognized p.1) good →
  ¬ recognized ch →
  main e prog (good ++ (ch, arg) :: rest) args w =
  (Exit (if Ascii.eqb ch "h" then 0 else 1), w,
   Sigignore SIGQUIT ::
   (if Ascii.eqb ch "h" then []
    else [Printf stderr (prog +:+ ": invalid option -- '" +:+ String ch "'" +:+ nl)])
   ++ [Printf stderr (usage_text prog)]).
Proof.
  intros Hgood Hch. unfold main. rewrite bind_run. simpl.
  rewrite bind_run, (options_stop_at _ _ _ _ _ _ _ Hgood Hch). reflexivity.
Qed.

(** X8.  When the directory of ROOT, or the home of vespa when ROOT is
    unset or empty, cannot be entered, [main] says so on stderr and exits
    with status 1, in the stop mode as in the start mode, before it looks at
    the pid file. *)
Theorem main_chdir_fails (e : Env) (prog : string) (opts : list (ascii * string))
    (args : list string) (w : World) (o : Options) :
  (options prog opts defaults w).1.1 = Ret o →
  root_dir e w ∉ dirs w →
  main e prog opts args w =
  (Exit 1, set_errno ENOENT (at_home e w),
   preamble e w ++ [Printf stderr ("Cannot chdir to " +:+ root_dir e w +:+ ": "
                                   +:+ strerror ENOENT +:+ nl)]) ∧
  exit_status 1 = 1.
Proof.
  intros Ho Hdir. split; [|done]. unfold main. rewrite bind_run. simpl.
  rewrite bind_run, (options_ret _ _ _ _ _ Ho). simpl.
  unfold root_dir, at_home, preamble in *. rewrite !bind_run. simpl.
  destruct (environ w !! "ROOT") as [[|c r]|] eqn:Hroot; simpl;
    repeat (rewrite bind_run; unfold chdir; simpl);
    rewrite bool_decide_eq_false_2 by done; simpl; reflexivity.
Qed.

(** ** The wait of the stop mode *)

(** One turn of the stop loop, whatever the other processes do. *)
Lemma stop_turn_any (e : Env) (pid cnt : Z) (w : World) :
  ∃ (go : bool) w', stop_turn e pid cnt w =
           (Ret go, w',
            Usleep 100000 :: turn_events pid (if go then cnt + 1 else cnt) cnt).
Proof.
  unfold stop_turn, turn_events, usleep.
  rewrite bind_run. simpl. rewrite bind_run.
  assert (Hresend : ∃ w1,
    when ((300 <? cnt) && (Z.rem cnt 100 =? 0)) (killpg pid SIGTERM ≫= λ _, mret tt)
      (others e cnt w) =
    (Ret tt, w1, if (300 <? cnt) && (Z.rem cnt 100 =? 0)
                 then [Killpg pid SIGTERM] else [])).
  { destruct ((300 <? cnt) && (Z.rem cnt 100 =? 0)); simpl.
    - rewrite bind_run.
      destruct (killpg_run pid SIGTERM (others e cnt w)) as (r & e1 & -> & _).
      simpl. by eexists.
    - by eexists. }
  destruct Hresend as (w1 & ->). rewrite bind_run.
  destruct (killpg_run pid 0 w1) as (r & e1 & -> & Hr).
  destruct (succeeded r).
  - exists true. rewrite (proj2 (Z.ltb_lt cnt (cnt + 1))) by lia.
    repeat (rewrite bind_run; simpl).
    destruct (Z.rem cnt 10 =? 0); simpl; repeat (rewrite bind_run; simpl);
      destruct (cnt =? 900); simpl; repeat (rewrite bind_run; simpl).
    all: try (destruct (killpg_run pid SIGKILL (set_errno e1 w1)) as (r' & e2 & -> & _);
              simpl).
    all: eexists; repeat f_equal; by rewrite <- ?app_assoc.
  - exists false. rewrite (proj2 (Z.ltb_ge cnt cnt)) by lia.
    repeat (rewrite bind_run; simpl). by eexists.
Qed.

Lemma slept_turn (pid k cnt : Z) (tr : list event) :
  slept (Usleep 100000 :: turn_events pid k cnt ++ tr) = 100000 + slept tr.
Proof. cbn [slept]. by rewrite slept_awake by apply turn_events_awake. Qed.

Lemma turn_events_kill_count (pid k cnt : Z) :
  length (filter (λ ev, ev = Killpg pid SIGKILL) (turn_events pid k cnt)) =
  if bool_decide (cnt = 900 ∧ cnt < k) then 1%nat else 0%nat.
Proof.
  unfold turn_events.
  destruct (Z.ltb_spec 300 cnt), (Z.eqb_spec (Z.rem cnt 100) 0), (Z.ltb_spec cnt k),
    (Z.eqb_spec (Z.rem cnt 10) 0), (Z.eqb_spec cnt 900); simpl;
    repeat (rewrite filter_cons_False by (unfold SIGTERM, SIGKILL; congruence));
    rewrite ?filter_cons_True by done; rewrite ?filter_nil; simpl;
    repeat case_bool_decide; lia.
Qed.

Lemma turn_events_done (pid cnt : Z) (pre : list event) :
  last (pre ++ turn_events pid cnt cnt) = Some (Printf stdout ("DONE" +:+ nl)).
Proof.
  unfold turn_events. rewrite (proj2 (Z.ltb_ge cnt cnt)) by lia.
  change (Killpg pid 0 :: [Printf stdout ("DONE" +:+ nl)])
    with ([Killpg pid 0] ++ [Printf stdout ("DONE" +:+ nl)]).
  rewrite !app_assoc. apply last_snoc.
Qed.

(** The stop loop from turn [cnt] on, whatever the other processes do. *)
Lemma stop_wait_any (e : Env) (pid : Z) (n : nat) (cnt : Z) (w : World) :
  ∃ w' tr,
    stop_wait e pid n cnt w = (Ret tt, w', tr) ∧
    0 ≤ slept tr ≤ 100000 * Z.max 0 (Z.min (Z.of_nat n) (1800 - cnt)) ∧
    (∀ usec, Usleep usec ∈ tr → usec = 100000) ∧
    (length (filter (λ ev, ev = Killpg pid SIGKILL) tr) ≤
     if bool_decide (cnt ≤ 900)%Z then 1 else 0)%nat ∧
    (slept tr < 100000 * Z.max 0 (Z.min (Z.of_nat n) (1800 - cnt)) →
     last tr = Some (Printf stdout ("DONE" +:+ nl))).
Proof.
  revert cnt w. induction n as [|n IH]; intros cnt w; simpl.
  { do 2 eexists. split; [reflexivity|]. simpl.
    split; [lia|]. split; [by intros usec ?%elem_of_nil|].
    split; [case_bool_decide; lia | lia]. }
  destruct (Z.ltb_spec cnt 1800) as [Hlt | Hge].
  2:{ do 2 eexists. split; [reflexivity|]. simpl.
      split; [lia|]. split; [by intros usec ?%elem_of_nil|].
      split; [case_bool_decide; lia | lia]. }
  rewrite bind_run. destruct (stop_turn_any e pid cnt w) as (go & w1 & ->).
  pose proof (turn_events_awake pid (if go then cnt + 1 else cnt) cnt) as Hawake.
  destruct go.
  - destruct (IH (cnt + 1) w1) as (w2 & tr & -> & Hslept & Husec & Hkill & Hlast).
    do 2 eexists. split; [reflexivity|].
    rewrite <- !app_comm_cons, slept_turn.
    split; [lia|]. split; [|split].
    + intros usec. rewrite elem_of_cons, elem_of_app.
      intros [[= ->] | [Hin | Hin]]; [done | | by eauto].
      rewrite Forall_forall in Hawake. by destruct (Hawake _ Hin usec).
    + rewrite filter_cons_False by done.
      rewrite filter_app, length_app, turn_events_kill_count.
      repeat case_bool_decide; lia.
    + intros Hless. rewrite app_comm_cons, last_app, Hlast by lia. done.
  - do 2 eexists. split; [reflexivity|]. rewrite app_nil_r.
    change (Usleep 100000 :: turn_events pid cnt cnt)
      with ([Usleep 100000] ++ turn_events pid cnt cnt).
    replace (slept ([Usleep 100000] ++ turn_events pid cnt cnt)) with 100000.
    2:{ simpl. rewrite <- (app_nil_r (turn_events pid cnt cnt)).
        rewrite slept_awake by done. simpl. lia. }
    split; [lia|]. split; [|split].
    + intros usec. rewrite elem_of_app, list_elem_of_singleton.
      intros [[= ->] | Hin]; [done|].
      rewrite Forall_forall in Hawake. by destruct (Hawake _ Hin usec).
    + rewrite filter_app, length_app, turn_events_kill_count.
      rewrite filter_cons_False by done. simpl.
      repeat case_bool_decide; lia.
    + intros _. apply turn_events_done.
Qed.

(** X9.  Whatever the target and the other processes do, the wait of the
    stop mode ends.  It sleeps 100 ms at a time and 180 seconds in all at
    most, it sends SIGKILL once at most, and when it ends before the 180
    seconds are over it ends on a failed probe, with DONE as its last
    line. *)
Theorem stop_wait_bounded (e : Env) (pid : Z) (w : World) :
  ∃ w' tr,
    stop_wait e pid 1800 0 w = (Ret tt, w', tr) ∧
    (∀ usec, Usleep usec ∈ tr → usec = 100000) ∧
    0 ≤ slept tr ≤ 180000000 ∧
    (length (filter (λ ev, ev = Killpg pid SIGKILL) tr) ≤ 1)%nat ∧
    (slept tr < 180000000 → last tr = Some (Printf stdout ("DONE" +:+ nl))).
Proof.
  destruct (stop_wait_any e pid 1800 0 w) as (w' & tr & Hrun & Hslept & Husec & Hkill
                                              & Hlast).
  exists w', tr. split; [done|]. split; [done|].
  split; [lia|]. split; [|intros ?; apply Hlast; lia].
  by rewrite bool_decide_eq_true_2 in Hkill by lia.
Qed.

Lemma preamble_awake (e : Env) (w : World) :
  Forall (λ ev, ∀ usec, ev ≠ Usleep usec) (preamble e w).
Proof.
  unfold preamble. destruct (environ w !! "ROOT") as [[|c r]|];
    repeat constructor; done.
Qed.

Lemma probe_awake (pf : PidFile) (w : World) :
  Forall (λ ev, ∀ usec, ev ≠ Usleep usec) (probe pf w).
Proof. unfold probe. case_bool_decide; repeat constructor; done. Qed.

Lemma cleanUp_awake (pf : PidFile) :
  emits (λ ev, ∀ usec, ev ≠ Usleep usec) (cleanUp pf).
Proof.
  unfold cleanUp, isMine, isRunning, readPid. emits_tac;
    intros ? ? ? ?; unfold read_first_line, kill, remove, close_locked;
    repeat case_match; intros [= _ _ <-]; repeat constructor; done.
Qed.

Lemma slept_nonneg_awake (tr : list event) :
  Forall (λ ev, ∀ usec, ev ≠ Usleep usec) tr → slept tr = 0.
Proof. intros H. rewrite <- (app_nil_r tr). by rewrite slept_awake. Qed.

Lemma not_elem_of_awake (P : event → Prop) (ev : event) (tr : list event) :
  Forall P tr → ¬ P ev → ev ∉ tr.
Proof. rewrite Forall_forall. intros Hall Hev Hin. by apply Hev, Hall. Qed.

(** ** The stop mode, path by path *)

Lemma bind_ret_run {S A B} (m : M S A) (k : A → M S B) (s s' : S) (a : A)
    (t : list event) :
  m s = (Ret a, s', t) →
  (m ≫= k) s = let '(r, s'', t') := k a s' in (r, s'', t ++ t').
Proof. intros H. by rewrite bind_run, H. Qed.

(** The four ways through the stop mode. *)
Lemma stop_not_running (e : Env) (o : Options) (pf : PidFile) (w : World) :
  running pf w = false →
  ∃ e1 pf' w' tc,
    cleanUp pf (set_errno e1 w) = (Ret pf', w', tc) ∧
    stop e o pf w =
    (Exit 0, w',
     probe pf w ++ [Printf stdout (service o +:+ " not running according to "
                                   +:+ pidfile o +:+ nl)] ++ tc).
Proof.
  intros Hrun. unfold stop. remember (stop_wait e) as sw.
  destruct (isRunning_run pf w) as [e1 Hisrun].
  rewrite (bind_ret_run _ _ _ _ _ _ Hisrun), Hrun.
  destruct (cleanUp_returns pf (set_errno e1 w)) as (pf' & w' & tc & Hclean).
  exists e1, pf', w', tc. split; [done|].
  run. rewrite Hclean. simpl. by rewrite app_nil_r.
Qed.

Lemma stop_signal_fails (e : Env) (o : Options) (pf : PidFile) (w : World) :
  running pf w = true →
  killcmd o = None →
  answers w (owner_pid pf w) = false →
  ∃ e1,
    stop e o pf w =
    (Exit 1, set_errno e1 w,
     probe pf w ++
     [Printf stdout (service o +:+ " was running with pid " +:+ pretty (owner_pid pf w)
                     +:+ ", sending SIGTERM" +:+ nl);
      Killpg (owner_pid pf w) SIGTERM;
      Printf stderr ("could not signal " +:+ pretty (owner_pid pf w) +:+ ": "
                     +:+ strerror e1 +:+ nl)]).
Proof.
  intros Hrun Hcmd Hans. unfold stop. remember (stop_wait e) as sw.
  destruct (isRunning_run pf w) as [e1 Hisrun].
  rewrite (bind_ret_run _ _ _ _ _ _ Hisrun), Hrun, Hcmd.
  destruct (readPid_errno pf (set_errno e1 w)) as [e2 Hread].
  rewrite bind_run, (bind_ret_run _ _ _ _ _ _ Hread).
  change (owner_pid pf (set_errno e1 w)) with (owner_pid pf w).
  change (set_errno e2 (set_errno e1 w)) with (set_errno e2 w).
  destruct (killpg_run (owner_pid pf w) SIGTERM (set_errno e2 w))
    as (r & e3 & Hkill & Hr).
  rewrite answers_errno, Hans in Hr.
  run. rewrite Hkill. simpl. rewrite Hr. simpl. run.
  exists e3. reflexivity.
Qed.

Lemma stop_signal_sent (e : Env) (o : Options) (pf : PidFile) (w : World) :
  running pf w = true →
  killcmd o = None →
  answers w (owner_pid pf w) = true →
  ∃ e1 w2 tw pf' w' tc,
    stop_wait e (owner_pid pf w) 1800 0 (set_errno e1 w) = (Ret tt, w2, tw) ∧
    cleanUp pf w2 = (Ret pf', w', tc) ∧
    stop e o pf w =
    (Exit 0, w',
     probe pf w ++
     [Printf stdout (service o +:+ " was running with pid " +:+ pretty (owner_pid pf w)
                     +:+ ", sending SIGTERM" +:+ nl);
      Killpg (owner_pid pf w) SIGTERM;
      Printf stdout ("Waiting for exit (up to 60 seconds)" +:+ nl)] ++ tw ++ tc).
Proof.
  intros Hrun Hcmd Hans. unfold stop. remember (stop_wait e) as sw.
  destruct (isRunning_run pf w) as [e1 Hisrun].
  rewrite (bind_ret_run _ _ _ _ _ _ Hisrun), Hrun, Hcmd.
  destruct (readPid_errno pf (set_errno e1 w)) as [e2 Hread].
  rewrite bind_run, (bind_ret_run _ _ _ _ _ _ Hread).
  change (owner_pid pf (set_errno e1 w)) with (owner_pid pf w).
  change (set_errno e2 (set_errno e1 w)) with (set_errno e2 w).
  destruct (killpg_run (owner_pid pf w) SIGTERM (set_errno e2 w))
    as (r & e3 & Hkill & Hr).
  rewrite answers_errno, Hans in Hr.
  destruct (stop_wait_any e (owner_pid pf w) 1800 0 (set_errno e3 w))
    as (w2 & tw & Hwait & _).
  destruct (cleanUp_returns pf w2) as (pf' & w' & tc & Hclean).
  rewrite <- Heqsw in Hwait.
  exists e3, w2, tw, pf', w', tc. split; [done|]. split; [done|].
  run. rewrite Hkill. simpl. rewrite Hr. simpl. run.
  change (set_errno e3 (set_errno e2 w)) with (set_errno e3 w).
  rewrite Hwait. simpl. run. rewrite Hclean. simpl. by rewrite !app_nil_r.
Qed.

Lemma stop_command_run (e : Env) (o : Options) (pf : PidFile) (w : World)
    (cmd : string) :
  running pf w = true →
  killcmd o = Some cmd →
  ∃ e1 w2 tw pf' w' tc,
    stop_wait e (owner_pid pf w) 1800 0 (system e cmd (set_errno e1 w)).2
      = (Ret tt, w2, tw) ∧
    cleanUp pf w2 = (Ret pf', w', tc) ∧
    stop e o pf w =
    (Exit 0, w',
     probe pf w ++
     [Printf stdout (service o +:+ " was running with pid " +:+ pretty (owner_pid pf w)
                     +:+ ", running '" +:+ cmd +:+ "' to stop it" +:+ nl);
      System cmd] ++
     (if (system e cmd (set_errno e1 w)).1 =? 0 then []
      else [Printf stderr ("WARNING: stop command '" +:+ cmd
                           +:+ "' had some problem" +:+ nl)]) ++
     [Printf stdout ("Waiting for exit (up to 60 seconds)" +:+ nl)] ++ tw ++ tc).
Proof.
  intros Hrun Hcmd. unfold stop. remember (stop_wait e) as sw.
  destruct (isRunning_run pf w) as [e1 Hisrun].
  rewrite (bind_ret_run _ _ _ _ _ _ Hisrun), Hrun, Hcmd.
  destruct (readPid_errno pf (set_errno e1 w)) as [e2 Hread].
  rewrite bind_run, (bind_ret_run _ _ _ _ _ _ Hread).
  change (owner_pid pf (set_errno e1 w)) with (owner_pid pf w).
  change (set_errno e2 (set_errno e1 w)) with (set_errno e2 w).
  destruct (system e cmd (set_errno e2 w)) as [status w1] eqn:Hsys.
  destruct (stop_wait_any e (owner_pid pf w) 1800 0 w1) as (w2 & tw & Hwait & _).
  destruct (cleanUp_returns pf w2) as (pf' & w' & tc & Hclean).
  rewrite <- Heqsw in Hwait.
  exists e2, w2, tw, pf', w', tc. rewrite Hsys. split; [done|]. split; [done|].
  run. unfold run_system. rewrite Hsys. run.
  destruct (status =? 0); simpl; run; rewrite Hwait; simpl; run;
    rewrite Hclean; simpl; by rewrite !app_nil_r.
Qed.

Lemma slept_app (a b : list event) : slept (a ++ b) = slept a + slept b.
Proof.
  induction a as [|ev a IH]; [done|]. destruct ev; simpl; rewrite ?IH; lia.
Qed.

Lemma answers_at_home (e : Env) (w : World) (pgrp : Z) :
  answers (at_home e w) pgrp = answers w pgrp.
Proof. unfold answers. by destruct (at_home_files e w) as (_ & _ & _ & _ & _ & ->). Qed.

(** X10.  The stop mode always ends in [exit], after 180 seconds of sleep
    at most.  The status is 1 only when a process was found running, no stop
    command was given and the first SIGTERM could not be delivered to its
    process group; it is 0 otherwise, also when the target outlives the
    wait.  On status 1 nothing was waited for, the files are as they were,
    and the complaint is the last line. *)
Theorem stop_exit_status (e : Env) (prog : string) (opts : list (ascii * string))
    (args : list string) (w : World) (o : Options) :
  (options prog opts defaults w).1.1 = Ret o →
  doStop o = true →
  root_dir e w ∈ dirs w →
  ∃ es w' tr,
    main e prog opts args w = (Exit es, w', tr) ∧
    es = (if running (mypf_of o) w && bool_decide (killcmd o = None)
             && negb (answers w (owner_pid (mypf_of o) w))
          then 1 else 0) ∧
    0 ≤ slept tr ≤ 180000000 ∧
    (es = 1 →
     fs w' = fs w ∧ slept tr = 0 ∧ (∀ path, Remove path ∉ tr) ∧
     last tr = Some (Printf stderr ("could not signal "
                                    +:+ pretty (owner_pid (mypf_of o) w) +:+ ": "
                                    +:+ strerror (errno_ w') +:+ nl))).
Proof.
  intros Ho Hstop Hdir.
  rewrite (main_run _ _ _ _ _ _ Ho Hdir), Hstop.
  destruct (at_home_pid e (mypf_of o) w) as (Hpid & Hrun' & Hprobe).
  destruct (at_home_files e w) as (Hfs & _).
  pose proof (answers_at_home e w (owner_pid (mypf_of o) w)) as Hans'.
  pose proof (slept_nonneg_awake _ (preamble_awake e w)) as Hpre.
  pose proof (slept_nonneg_awake _ (probe_awake (mypf_of o) w)) as Hpr.
  assert (Hpre_rm : ∀ path, Remove path ∉ preamble e w).
  { intros path. apply (starts_nothing_not_in _ _ (preamble_starts_nothing e w)).
    by intros []. }
  assert (Hpr_rm : ∀ path, Remove path ∉ probe (mypf_of o) w).
  { intros path Hin%probe_kill_only. done. }
  set (pf := mypf_of o) in *. set (pid := owner_pid pf w) in *.
  set (pre := preamble e w) in *. clearbody pre.
  set (pr := probe pf w) in *.
  destruct (running pf w) eqn:Hrun.
  2:{ destruct (stop_not_running e o pf (at_home e w)) as (e1 & pf' & w' & tc & Hc & ->);
        [by rewrite Hrun'|].
      rewrite Hprobe. fold pr. clearbody pr.
      pose proof (slept_nonneg_awake _ (cleanUp_awake _ _ _ _ _ Hc)) as Htc.
      do 3 eexists. split; [reflexivity|]. split; [done|]. split; [|done].
      rewrite !slept_app. simpl. lia. }
  destruct (killcmd o) as [cmd|] eqn:Hcmd.
  - destruct (stop_command_run e o pf (at_home e w) cmd)
      as (e1 & w2 & tw & pf' & w' & tc & Hw & Hc & ->); [by rewrite Hrun' | done|].
    rewrite Hprobe, Hpid. fold pr pid. clearbody pr.
    pose proof (slept_nonneg_awake _ (cleanUp_awake _ _ _ _ _ Hc)) as Htc.
    destruct (stop_wait_any e pid 1800 0 (system e cmd (set_errno e1 (at_home e w))).2)
      as (w2' & tw' & Hw' & Hslept & _).
    rewrite Hpid in Hw. fold pid in Hw. rewrite Hw in Hw'. injection Hw' as <- <-.
    do 3 eexists. split; [reflexivity|]. split; [done|]. split; [|done].
    rewrite !slept_app. simpl. destruct (_ =? 0); simpl; lia.
  - destruct (answers w pid) eqn:Hans.
    + destruct (stop_signal_sent e o pf (at_home e w))
        as (e1 & w2 & tw & pf' & w' & tc & Hw & Hc & ->);
        [by rewrite Hrun' | done | by rewrite Hpid, Hans'|].
      rewrite Hprobe, Hpid. fold pr pid. clearbody pr.
      pose proof (slept_nonneg_awake _ (cleanUp_awake _ _ _ _ _ Hc)) as Htc.
      destruct (stop_wait_any e pid 1800 0 (set_errno e1 (at_home e w)))
        as (w2' & tw' & Hw' & Hslept & _).
      rewrite Hpid in Hw. fold pid in Hw. rewrite Hw in Hw'. injection Hw' as <- <-.
      do 3 eexists. split; [reflexivity|]. split; [done|]. split; [|done].
      rewrite !slept_app. simpl. lia.
    + destruct (stop_signal_fails e o pf (at_home e w)) as (e1 & ->);
        [by rewrite Hrun' | done | by rewrite Hpid, Hans'|].
      rewrite Hprobe, Hpid. fold pr pid.
      do 3 eexists. split; [reflexivity|]. split; [done|].
      rewrite !slept_app. simpl. split; [lia|]. intros _.
      split; [done|]. split; [lia|]. split.
      * intros path. rewrite !not_elem_of_app, !not_elem_of_cons.
        repeat split; (done || apply not_elem_of_nil || auto).
      * rewrite !app_assoc.
        change [?a; ?b; ?c] with ([a; b] ++ [c]). rewrite !app_assoc.
        apply last_snoc.
Qed.

(** An event of the waiting and the cleaning up: no shell command and no
    line on stderr. *)
Lemma stop_wait_quiet (e : Env) (pid : Z) (turns : nat) (cnt : Z) :
  emits (λ ev, (∀ c, ev ≠ System c) ∧ ∀ text, ev ≠ Printf stderr text)
    (stop_wait e pid turns cnt).
Proof.
  revert cnt. induction turns as [|turns IH]; intros cnt; simpl; [apply emits_ret|].
  destruct (cnt <? 1800); [|apply emits_ret].
  apply emits_bind; [|intros []; [apply IH | apply emits_ret]].
  unfold stop_turn. emits_tac;
    intros ? ? ? ?; unfold killpg, usleep; repeat case_match;
    intros [= _ _ <-]; repeat constructor; done.
Qed.

Lemma cleanUp_quiet (pf : PidFile) :
  emits (λ ev, (∀ c, ev ≠ System c) ∧ ∀ text, ev ≠ Printf stderr text) (cleanUp pf).
Proof.
  unfold cleanUp, isMine, isRunning, readPid. emits_tac;
    intros ? ? ? ?; unfold read_first_line, kill, remove, close_locked;
    repeat case_match; intros [= _ _ <-]; repeat constructor; done.
Qed.

(** X11.  With -k the stop mode runs the stop command in the place of
    the first SIGTERM.  Nothing is signalled and nothing is waited for
    before the command; the command is run once; a command that returns
    non-zero costs one warning on stderr, the only text on stderr, and the
    program still waits, and exits with status 0. *)
Theorem stop_with_command (e : Env) (prog : string) (opts : list (ascii * string))
    (args : list string) (w : World) (o : Options) (cmd : string) :
  (options prog opts defaults w).1.1 = Ret o →
  doStop o = true →
  killcmd o = Some cmd →
  root_dir e w ∈ dirs w →
  running (mypf_of o) w = true →
  ∃ e1 w' before after,
    main e prog opts args w = (Exit 0, w', before ++ System cmd :: after) ∧
    Forall signals_nobody before ∧
    Forall (λ ev, ∀ usec, ev ≠ Usleep usec) before ∧
    (∀ c, System c ∉ after) ∧
    (Printf stderr ("WARNING: stop command '" +:+ cmd +:+ "' had some problem" +:+ nl)
       ∈ after ↔
     (system e cmd (set_errno e1 (at_home e w))).1 ≠ 0) ∧
    (∀ text, Printf stderr text ∈ after →
             text = "WARNING: stop command '" +:+ cmd +:+ "' had some problem" +:+ nl).
Proof.
  intros Ho Hstop Hcmd Hdir Hrun.
  rewrite (main_run _ _ _ _ _ _ Ho Hdir), Hstop.
  destruct (at_home_pid e (mypf_of o) w) as (Hpid & Hrun' & Hprobe).
  destruct (stop_command_run e o (mypf_of o) (at_home e w) cmd)
    as (e1 & w2 & tw & pf' & w' & tc & Hw & Hc & ->); [by rewrite Hrun' | done|].
  rewrite Hprobe, Hpid.
  apply stop_wait_quiet in Hw. apply cleanUp_quiet in Hc.
  rewrite Forall_forall in Hw, Hc.
  exists e1, w'.
  exists (preamble e w ++ probe (mypf_of o) w ++
          [Printf stdout (service o +:+ " was running with pid "
                          +:+ pretty (owner_pid (mypf_of o) w)
                          +:+ ", running '" +:+ cmd +:+ "' to stop it" +:+ nl)]).
  eexists. split.
  { rewrite <- !app_assoc. simpl. reflexivity. }
  split.
  { rewrite !Forall_app. split; [apply preamble_signals_nobody|].
    split; [apply probe_signals_nobody | by repeat constructor]. }
  split.
  { rewrite !Forall_app. split; [apply preamble_awake|].
    split; [apply probe_awake | by repeat constructor]. }
  assert (Hafter : ∀ ev, ev ∈ tw ++ tc →
            (∀ c, ev ≠ System c) ∧ ∀ text, ev ≠ Printf stderr text).
  { intros ev [Hin | Hin]%elem_of_app; auto. }
  split; [|split].
  - intros c. rewrite elem_of_app, elem_of_cons.
    intros [Hin | [[=] | Hin]].
    + destruct (_ =? 0); [by apply elem_of_nil in Hin|].
      rewrite list_elem_of_singleton in Hin. discriminate.
    + destruct (Hafter _ Hin) as [Hno _]. by apply (Hno c).
  - rewrite elem_of_app, elem_of_cons.
    destruct (Z.eqb_spec (system e cmd (set_errno e1 (at_home e w))).1 0) as [H0 | H0].
    + split; [|done]. intros [Hin | [[=] | Hin]].
      * by apply elem_of_nil in Hin.
      * destruct (Hafter _ Hin) as [_ Hno]. exfalso. by eapply Hno.
    + split; [done|]. intros _. left. by rewrite list_elem_of_singleton.
  - intros text. rewrite elem_of_app, elem_of_cons.
    intros [Hin | [[=] | Hin]].
    + destruct (_ =? 0); [by apply elem_of_nil in Hin|].
      rewrite list_elem_of_singleton in Hin. by injection Hin as ->.
    + destruct (Hafter _ Hin) as [_ Hno]. by destruct (Hno text).
Qed.

(** ** The parent of the start mode *)

(** [writeOpen] when the file can be opened and nobody holds the lock. *)
Lemma writeOpen_success (pf : PidFile) (w : World) :
  _fd pf < 0 →
  _pidfile pf ∉ readonly w →
  _pidfile pf ∉ flocked w →
  writeOpen pf w =
  (Ret (true, with_fd pf (lowest_free (fds w))),
   set_flocked (union {[_pidfile pf]})
     (set_fds (union {[lowest_free (fds w)]})
        (set_fs (λ f, match f !! _pidfile pf with
                      | Some _ => f
                      | None => <[_pidfile pf:=EmptyString]> f
                      end) w)),
   [Open (_pidfile pf); Flock (_pidfile pf); Cloexec (lowest_free (fds w))]).
Proof.
  intros Hfd Hro Hlk. unfold writeOpen. rewrite bind_run. simpl.
  rewrite (proj2 (Z.leb_gt _ _)) by lia. simpl.
  rewrite bind_run. unfold open_creat.
  rewrite bool_decide_eq_false_2 by done. simpl.
  pose proof (lowest_free_nonneg (fds w)) as Hfree.
  rewrite (proj2 (Z.ltb_ge _ _)) by lia.
  rewrite bind_run. unfold flock. simpl.
  rewrite bool_decide_eq_false_2 by done. simpl. run. reflexivity.
Qed.

Lemma difference_union_fresh (x : string) (s : gset string) :
  x ∉ s → ({[x]} ∪ s) ∖ {[x]} = s.
Proof.
  intros Hx. apply set_eq. intros y.
  rewrite elem_of_difference, elem_of_union, elem_of_singleton. split.
  - by intros [[-> | ?] ?].
  - intros Hy. split; [by right | by intros ->].
Qed.

(** X12.  The parent of the start mode.  When the pid file names no
    running process and can be opened and locked, [main] forks; the parent
    then prints the pid of the supervisor on stdout and returns 0, or, fork
    having failed, prints the error on stderr and returns 1.  It never writes
    the pid file, which it created empty if it was missing; each descriptor
    it opened it has closed; and the lock is still taken at the end exactly
    when the fork succeeded. *)
Theorem start_parent (e : Env) (prog : string) (opts : list (ascii * string))
    (args : list string) (w : World) (o : Options) :
  (options prog opts defaults w).1.1 = Ret o →
  doStop o = false →
  args ≠ [] →
  killcmd o = None →
  root_dir e w ∈ dirs w →
  running (mypf_of o) w = false →
  pidfile o ∉ readonly w →
  pidfile o ∉ flocked w →
  forked e ≠ 0 →
  ∃ w',
    main e prog opts args w =
    (Exit (if 0 <? forked e then 0 else 1), w',
     preamble e w ++ probe (mypf_of o) w ++
     [Open (pidfile o); Flock (pidfile o); Cloexec (lowest_free (fds w)); Fork;
      if 0 <? forked e
      then Printf stdout ("runserver(" +:+ service o +:+ ") running with pid: "
                          +:+ pretty (forked e) +:+ nl)
      else Printf stderr ("fork: " +:+ strerror (fork_errno e) +:+ nl);
      Close (lowest_free (fds w))]) ∧
    fds w' = fds w ∧
    (pidfile o ∈ flocked w' ↔ 0 < forked e) ∧
    fs w' !! pidfile o = Some (default EmptyString (fs w !! pidfile o)) ∧
    (∀ path, path ≠ pidfile o → fs w' !! path = fs w !! path).
Proof.
  intros Ho Hstop Hargs Hkill Hdir Hrun Hro Hlk Hfork.
  rewrite (main_run _ _ _ _ _ _ Ho Hdir), Hstop. unfold start.
  destruct (at_home_pid e (mypf_of o) w) as (Hpid & Hrun' & Hprobe).
  destruct (at_home_files e w) as (Hfs & _ & _ & Hlock & Hro' & _).
  assert (Hfds : fds (at_home e w) = fds w).
  { unfold at_home. by destruct (environ w !! "ROOT") as [[|c r]|]. }
  rewrite Hkill, bool_decide_eq_false_2 by done.
  rewrite bool_decide_eq_false_2 by (by intros []). simpl.
  destruct (isRunning_run (mypf_of o) (at_home e w)) as [e1 Hisrun].
  rewrite (bind_ret_run _ _ _ _ _ _ Hisrun), Hrun', Hrun, Hprobe.
  rewrite bind_run, writeOpen_success; [|simpl; lia|simpl; by rewrite Hro'|
                                        simpl; by rewrite Hlock].
  simpl. rewrite Hfds. run.
  pose proof (lowest_free_fresh (fds w)) as Hfresh.
  rewrite (proj2 (Z.eqb_neq _ _) Hfork).
  destruct (Z.ltb_spec (forked e) 0) as [Hneg | Hpos].
  - rewrite (proj2 (Z.ltb_ge 0 (forked e))) by lia. unfold perror. run.
    eexists. split; [reflexivity|]. simpl. rewrite Hfds, Hlock, Hfs.
    split; [by apply union_difference_fresh|]. split; [|split].
    + rewrite difference_union_fresh by done. split; [done | lia].
    + destruct (fs w !! pidfile o) eqn:E; simpl; [done|]. by rewrite lookup_insert_eq.
    + intros path Hne. destruct (fs w !! pidfile o); [done|].
      by rewrite lookup_insert_ne.
  - rewrite (proj2 (Z.ltb_lt 0 (forked e))) by lia. run.
    eexists. split; [reflexivity|]. simpl. rewrite Hfds, Hlock, Hfs.
    split; [by apply union_difference_fresh|]. split; [|split].
    + split; [lia|]. intros _. apply elem_of_union_l. by apply elem_of_singleton.
    + destruct (fs w !! pidfile o) eqn:E; simpl; [done|]. by rewrite lookup_insert_eq.
    + intros path Hne. destruct (fs w !! pidfile o); [done|].
      by rewrite lookup_insert_ne.
Qed.

(** ** The reaping that aborts *)

Lemma WIFSTOPPED_spec (ws : Z) : WIFSTOPPED ws = true ↔ ws mod 256 = 127.
Proof.
  unfold WIFSTOPPED. change 255 with (Z.ones 8).
  rewrite Z.eqb_eq, Z.land_ones by lia. done.
Qed.

(** The statuses that are neither of a stopped, nor of an exited, nor of a
    killed process are those whose low byte is 0xff. *)
Lemma status_unexpected (ws : Z) :
  WIFSTOPPED ws = false ∧ WIFEXITED ws = false ∧ WIFSIGNALED ws = false ↔
  Z.land ws 0xff = 0xff.
Proof.
  change 255 with (Z.ones 8). rewrite Z.land_ones by lia. change (2 ^ 8) with 256.
  change (Z.ones 8) with 255.
  pose proof (WIFSTOPPED_spec ws) as Hstop.
  pose proof (WIFEXITED_spec ws) as Hexit.
  pose proof (WIFSIGNALED_spec ws) as Hsig.
  rewrite WTERMSIG_mod in Hexit, Hsig.
  destruct (WIFSTOPPED ws), (WIFEXITED ws), (WIFSIGNALED ws);
    split; try (intros (? & ? & ?); discriminate); intros H.
  all: try (exfalso; Z.div_mod_to_equations; lia).
  all: try done.
  all: destruct H as (_ & _ & _).
  all: assert (ws mod 256 ≠ 127) by (intros E; by apply Hstop in E).
  all: assert (ws mod 128 ≠ 0) by (intros E; by apply Hexit in E).
  all: assert (¬ 1 ≤ ws mod 128 ≤ 126) by (intros E; by apply Hsig in E).
  all: Z.div_mod_to_equations; lia.
Qed.

(** X13.  The reaping of a child either goes on or aborts.  It aborts
    when [waitpid] fails, when it reports another process than the child,
    and when it reports for the child a status that is neither of a stopped,
    nor of an exited, nor of a killed process, which are the statuses with
    the low byte 0xff; the last line of the log is then an error or a
    warning.  The reaping never touches the signal flags nor the end-of-file
    flags. *)
Theorem reap_aborts (torun : string) (r : wait_result) (st : Loop) :
  0 < child st →
  ∃ res st' tr,
    reap torun r st = (res, st', tr) ∧
    (res = Ret tt ∨ res = Abort) ∧
    (res = Abort ↔
     match r with
     | WaitNone => False
     | WaitError _ => True
     | WaitPid cpid ws =>
         if cpid =? child st then Z.land ws 0xff = 0xff else cpid ≠ 0
     end) ∧
    (res = Abort →
     ∃ lvl text, last tr = Some (LOG lvl text) ∧ lvl ≠ debug ∧ lvl ≠ info) ∧
    sigs st' = sigs st ∧ outeof st' = outeof st ∧ erreof st' = erreof st.
Proof.
  intros Hchild. unfold reap. rewrite bind_run. simpl.
  destruct r as [|cpid ws|err]; simpl.
  - rewrite bind_run. simpl. rewrite (proj2 (Z.eqb_neq 0 (child st))) by lia.
    run. do 3 eexists. split; [reflexivity|]. split; [by left|].
    split; [done|]. split; [done|]. done.
  - rewrite bind_run. simpl.
    pose proof (status_unexpected ws) as Hun.
    destruct (Z.eqb_spec cpid (child st)) as [-> | Hne]; simpl.
    + destruct (WIFSTOPPED ws) eqn:Hs.
      { run. do 3 eexists. split; [reflexivity|]. split; [by left|].
        split; [|done]. split; [done|]. intros H. apply Hun in H as (? & _). done. }
      destruct (WIFEXITED ws) eqn:He.
      { run. do 3 eexists. split; [reflexivity|]. split; [by left|].
        split; [|done]. split; [done|]. intros H. apply Hun in H as (? & ? & _). done. }
      destruct (WIFSIGNALED ws) eqn:Hg.
      { run. destruct (negb _); simpl; run; [destruct (WCOREDUMP ws); simpl|];
          (do 3 eexists; split; [reflexivity|]; split; [by left|];
           split; [|done]; split; [done|]; intros H; apply Hun in H as (? & ? & ?);
           done). }
      run. do 3 eexists. split; [reflexivity|]. split; [by right|].
      split; [split; [intros _; by apply Hun | done]|].
      split; [|done]. intros _. by exists error, ("unexpected status " +:+ pretty ws
                                                  +:+ " from waidpit").
    + destruct (Z.ltb_spec cpid 0); run.
      { do 3 eexists. split; [reflexivity|]. split; [by right|].
        split; [split; [intros _; lia | done]|]. split; [|done].
        intros _. by eexists error, _. }
      destruct (Z.eqb_spec cpid 0) as [-> | Hnz]; simpl; run.
      * do 3 eexists. split; [reflexivity|]. split; [by left|]. done.
      * do 3 eexists. split; [reflexivity|]. split; [by right|].
        split; [done|]. split; [|done]. intros _. by eexists warning, _.
  - rewrite bind_run. simpl. rewrite (proj2 (Z.eqb_neq (-1) (child st))) by lia.
    run. do 3 eexists. split; [reflexivity|]. split; [by right|].
    split; [done|]. split; [|done]. intros _. by eexists error, _.
Qed.

(** ** The pipes of a run *)

Lemma pipe_events_app (which : stream) (fd : Z) (a b : list event) :
  pipe_events which fd (a ++ b) = pipe_events which fd a ++ pipe_events which fd b.
Proof. apply filter_app. Qed.

Lemma pipe_events_none (which : stream) (fd : Z) (tr : list event) :
  Forall (λ ev, ev ≠ Drain which ∧ ev ≠ Close fd) tr → pipe_events which fd tr = [].
Proof.
  unfold pipe_events. induction 1 as [|ev tr [Hd Hc] _ IH]; [done|].
  rewrite filter_cons_False; [done|]. by intros [|].
Qed.

(** The parts of a turn of the loop that ended with a value. *)
Lemma loop_body_inv (torun : string) (po pe : Z) (t : Tick) (st st' : Loop)
    (tr : list event) :
  loop_body torun po pe t st = (Ret tt, st', tr) →
  ∃ st2 t2 st3 t3 t5,
    when (0 <? t_select t)
      (when (negb (outeof st) && t_out_ready t)
         (read_pipe stdout po (t_out t) (set_outeof true));;
       when (negb (erreof st) && t_err_ready t)
         (read_pipe stderr pe (t_err t) (set_erreof true)))
      (set_sigs (handle (t_before t)) st) = (Ret tt, st2, t2) ∧
    when (negb (child st =? 0)) (reap torun (t_wait t)) st2 = (Ret tt, st3, t3) ∧
    forward torun (t_late t) (set_sigs (handle (t_after_wait t)) st3)
      = (Ret tt, st', t5) ∧
    tr = t2 ++ t3 ++ t5.
Proof.
  unfold loop_body. rewrite bind_run. simpl. rewrite bind_run. simpl.
  rewrite bind_run.
  destruct (when (0 <? t_select t) _ _) as [[r2 st2] t2] eqn:Hpipes.
  destruct r2 as [[]| | | | |]; try discriminate. rewrite bind_run.
  destruct (when (negb (child st =? 0)) _ st2) as [[r3 st3] t3] eqn:Hreap.
  destruct r3 as [[]| | | | |]; try discriminate. rewrite bind_run. simpl.
  destruct (forward torun (t_late t) _) as [[r5 st5] t5] eqn:Hfwd.
  intros [= -> <- <-]. exists st2, t2, st3, t3, t5. done.
Qed.

Lemma reap_pipes (torun : string) (r : wait_result) (which : stream) (fd : Z) :
  emits (λ ev, ev ≠ Drain which ∧ ev ≠ Close fd) (reap torun r).
Proof. unfold reap. emits_tac. Qed.

Lemma forward_pipes (torun : string) (late : list Z) (which : stream) (fd : Z) :
  emits (λ ev, ev ≠ Drain which ∧ ev ≠ Close fd) (forward torun late).
Proof. unfold forward. emits_tac. Qed.

Lemma reap_eof (torun : string) (r : wait_result) (which : stream) (b : bool) :
  keeps (λ st, eof_of which st = b) (reap torun r).
Proof. unfold reap. keeps_tac; by destruct which. Qed.

Lemma forward_eof (torun : string) (late : list Z) (which : stream) (b : bool) :
  keeps (λ st, eof_of which st = b) (forward torun late).
Proof. unfold forward. keeps_tac; by destruct which. Qed.

Ltac pipe_filter :=
  unfold pipe_events;
  repeat first
    [ rewrite filter_nil
    | rewrite filter_cons_True by (by (left + right))
    | rewrite filter_cons_False by (intros [?|?]; congruence) ].

(** What the reading of the two pipes in one turn does to one of them. *)
Lemma pipes_events (which : stream) (po pe : Z) (t : Tick) (st st2 : Loop)
    (t2 : list event) :
  po ≠ pe →
  when (0 <? t_select t)
    (when (negb (outeof st) && t_out_ready t)
       (read_pipe stdout po (t_out t) (set_outeof true));;
     when (negb (erreof st) && t_err_ready t)
       (read_pipe stderr pe (t_err t) (set_erreof true)))
    (set_sigs (handle (t_before t)) st) = (Ret tt, st2, t2) →
  if eof_of which st
  then eof_of which st2 = true ∧ pipe_events which (read_end which po pe) t2 = []
  else (eof_of which st2 = false ∧
        (pipe_events which (read_end which po pe) t2 = [] ∨
         pipe_events which (read_end which po pe) t2 = [Drain which])) ∨
       (eof_of which st2 = true ∧
        pipe_events which (read_end which po pe) t2 = [Close (read_end which po pe)]).
Proof.
  intros Hfd H.
  destruct which, (0 <? t_select t), (outeof st) eqn:Ho, (erreof st) eqn:He,
    (t_out_ready t), (t_err_ready t), (t_out t), (t_err t);
    simpl in H; repeat (rewrite bind_run in H; simpl in H);
    try discriminate; cbv [mret M_ret] in H; injection H as <- <-;
    unfold read_end; simpl; rewrite ?Ho, ?He; pipe_filter; auto.
Qed.

Lemma when_reap_pipes (b : bool) (torun : string) (r : wait_result) (which : stream)
    (fd : Z) (st st' : Loop) (res : result unit) (tr : list event) :
  when b (reap torun r) st = (res, st', tr) →
  eof_of which st' = eof_of which st ∧ pipe_events which fd tr = [].
Proof.
  destruct b; simpl.
  - intros H. split.
    + exact (reap_eof torun r which (eof_of which st) _ _ _ _ eq_refl H).
    + apply pipe_events_none. exact (reap_pipes torun r which fd _ _ _ _ H).
  - by intros [= _ <- <-].
Qed.

Lemma loop_body_pipe (which : stream) (torun : string) (po pe : Z) (t : Tick)
    (st st' : Loop) (tr : list event) :
  po ≠ pe →
  loop_body torun po pe t st = (Ret tt, st', tr) →
  if eof_of which st
  then eof_of which st' = true ∧ pipe_events which (read_end which po pe) tr = []
  else (eof_of which st' = false ∧
        (pipe_events which (read_end which po pe) tr = [] ∨
         pipe_events which (read_end which po pe) tr = [Drain which])) ∨
       (eof_of which st' = true ∧
        pipe_events which (read_end which po pe) tr = [Close (read_end which po pe)]).
Proof.
  intros Hfd (st2 & t2 & st3 & t3 & t5 & Hpipes & Hreap & Hfwd & ->)%loop_body_inv.
  pose proof (pipes_events which _ _ _ _ _ _ Hfd Hpipes) as Hp.
  set (fd := read_end which po pe) in *.
  apply (when_reap_pipes _ _ _ which fd) in Hreap as [He3 Hp3].
  assert (eof_of which st' = eof_of which st3) as He5.
  { apply (forward_eof torun (t_late t) which (eof_of which st3)
             (set_sigs (handle (t_after_wait t)) st3) (Ret tt) st' t5);
      [by destruct which | exact Hfwd]. }
  pose proof (pipe_events_none _ _ _ (forward_pipes torun (t_late t) which fd _ _ _ _
                                        Hfwd)) as Hp5.
  rewrite !pipe_events_app, Hp3, Hp5, !app_nil_r.
  assert (eof_of which st' = eof_of which st2) as -> by (by rewrite He5, <- He3).
  done.
Qed.

Lemma loop_while_pipe (which : stream) (torun : string) (po pe : Z)
    (ticks : list Tick) (st st' : Loop) (tr : list event) :
  po ≠ pe →
  loop_while torun po pe ticks st = (Ret tt, st', tr) →
  eof_of which st' = true ∧
  if eof_of which st then pipe_events which (read_end which po pe) tr = []
  else ∃ n, pipe_events which (read_end which po pe) tr
            = replicate n (Drain which) ++ [Close (read_end which po pe)].
Proof.
  intros Hfd. revert st tr. induction ticks as [|t ticks IH]; intros st tr; simpl.
  { destruct (negb (child st =? 0) || negb (outeof st) || negb (erreof st)) eqn:Hgo;
      [done|]. intros [= <- <-].
    apply orb_false_iff in Hgo as [[_ Ho%negb_false_iff]%orb_false_iff He%negb_false_iff].
    destruct which; simpl; by rewrite ?Ho, ?He. }
  destruct (negb (child st =? 0) || negb (outeof st) || negb (erreof st)) eqn:Hgo.
  2:{ intros [= <- <-].
      apply orb_false_iff in Hgo as [[_ Ho%negb_false_iff]%orb_false_iff
                                       He%negb_false_iff].
      destruct which; simpl; by rewrite ?Ho, ?He. }
  intros ([] & st1 & t1 & t2 & Hbody & Hrest & ->)%bind_inv_ret.
  apply (loop_body_pipe which) in Hbody; [|done].
  apply IH in Hrest as [Heof Hrest]. set (fd := read_end which po pe) in *.
  split; [done|]. rewrite pipe_events_app.
  destruct (eof_of which st).
  - destruct Hbody as [H1 ->]. by rewrite H1 in Hrest.
  - destruct Hbody as [[H1 [-> | ->]] | [H1 ->]]; rewrite H1 in Hrest.
    + done.
    + destruct Hrest as [n ->]. by exists (S n).
    + rewrite Hrest. by exists 0%nat.
Qed.

Lemma loop_while_ends (torun : string) (po pe : Z) (ticks : list Tick)
    (st st' : Loop) (tr : list event) :
  loop_while torun po pe ticks st = (Ret tt, st', tr) → child st' = 0.
Proof.
  revert st tr. induction ticks as [|t ticks IH]; intros st tr; simpl;
    destruct (Z.eqb_spec (child st) 0) as [H0 | H0]; simpl;
    destruct (negb (outeof st) || negb (erreof st)); simpl;
    try done; try (by intros [= <- _]).
  all: intros ([] & st1 & t1 & t2 & _ & Hrest & _)%bind_inv_ret; by eapply IH.
Qed.

(** X14.  When the while loop of a run ends, the child has been reaped
    and the end of both pipes has been seen.  On each pipe the loop has
    handed what it read to the log parser any number of times and then
    closed the read end, once, and has done nothing with it after that. *)
Theorem loop_drains (torun : string) (po pe : Z) (ticks : list Tick) (st st' : Loop)
    (tr : list event) :
  po ≠ pe →
  outeof st = false →
  erreof st = false →
  loop_while torun po pe ticks st = (Ret tt, st', tr) →
  child st' = 0 ∧ outeof st' = true ∧ erreof st' = true ∧
  (∃ n, pipe_events stdout po tr = replicate n (Drain stdout) ++ [Close po]) ∧
  (∃ n, pipe_events stderr pe tr = replicate n (Drain stderr) ++ [Close pe]).
Proof.
  intros Hfd Ho He Hloop.
  pose proof (loop_while_pipe stdout _ _ _ _ _ _ _ Hfd Hloop) as [Ho' Hout].
  pose proof (loop_while_pipe stderr _ _ _ _ _ _ _ Hfd Hloop) as [He' Herr].
  simpl in *. rewrite Ho in Hout. rewrite He in Herr.
  split; [by eapply loop_while_ends | done].
Qed.

(** ** The signals of a run *)

Lemma holds_split {S A} (I : S → Prop) (P : event → Prop) (m : M S A) :
  keeps I m → emits P m → holds I P m.
Proof. intros Hk He s r s' tr Hs Hm. split; [by eapply Hk | by eapply He]. Qed.

Lemma holds_bind {S A B} (I : S → Prop) (P : event → Prop) (m : M S A)
    (k : A → M S B) :
  holds I P m → (∀ a, holds I P (k a)) → holds I P (m ≫= k).
Proof.
  unfold holds. intros Hm Hk s r s' tr Hs. rewrite bind_run.
  destruct (m s) as [[ra s1] t1] eqn:Hms. destruct (Hm _ _ _ _ Hs Hms) as [Hs1 Ht1].
  destruct ra as [a| | | | |]; try (by intros [= _ <- <-]).
  destruct (k a s1) as [[rb s2] t2] eqn:Hks. intros [= _ <- <-].
  destruct (Hk _ _ _ _ _ Hs1 Hks) as [Hs2 Ht2].
  split; [done|]. by apply Forall_app.
Qed.

Lemma holds_when {S} (I : S → Prop) (P : event → Prop) (b : bool) (m : M S unit) :
  holds I P m → holds I P (when b m).
Proof.
  destruct b; [done|]. intros _ s r s' tr Hs [= _ <- <-]. by split.
Qed.

Lemma forward_holds (c : Z) (torun : string) (late : list Z) :
  holds (child_is c) (signals_only c) (forward torun late).
Proof.
  intros st r st' tr Hst. unfold forward. rewrite bind_run. simpl.
  destruct (Z.eqb_spec (child st) 0) as [H0 | H0];
    destruct (unhandledsig (sigs st) =? 0); simpl; run; intros [= _ <- <-];
    (split; [done|]); repeat constructor.
  simpl. by destruct Hst.
Qed.

Lemma loop_body_holds (c : Z) (torun : string) (po pe : Z) (t : Tick) :
  holds (child_is c) (signals_only c) (loop_body torun po pe t).
Proof.
  unfold loop_body.
  apply holds_bind; [apply holds_split; [keeps_tac; done | emits_tac]|intros _].
  apply holds_bind; [apply holds_split; [keeps_tac | emits_tac]|intros st].
  apply holds_bind; [|intros _].
  { apply holds_split; unfold read_pipe; [keeps_tac; done | emits_tac]. }
  apply holds_bind; [|intros _].
  { apply holds_split; unfold reap; [keeps_tac; try done; by right | emits_tac]. }
  apply holds_bind; [apply holds_split; [keeps_tac; done | emits_tac]|intros _].
  apply forward_holds.
Qed.

Lemma loop_while_holds (c : Z) (torun : string) (po pe : Z) (ticks : list Tick) :
  holds (child_is c) (signals_only c) (loop_while torun po pe ticks).
Proof.
  induction ticks as [|t ticks IH]; intros st r st' tr Hst; simpl;
    destruct (_ || _); try (by intros [= _ <- <-]).
  apply holds_bind; [apply loop_body_holds | by intros _ | done].
Qed.

(** X15.  Whatever way a run ends, the only process it sends a signal
    to is the child it forked: it signals no other process and no process
    group, and it runs no command. *)
Theorem loop_signals_child (svc : string) (run : list string) (r : Run)
    (s s' : SigState) (res : result Z) (tr : list event) :
  loop svc run r s = (res, s', tr) → Forall (signals_only (r_fork r)) tr.
Proof.
  unfold loop. destruct (r_pipes r) as [[pstdout pstderr]|e].
  2:{ run. intros [= _ _ <-]. by repeat constructor. }
  run. destruct (Z.eqb_spec (r_fork r) 0) as [H0 | H0].
  { run. destruct (r_exec r); run; intros [= _ _ <-]; by repeat constructor. }
  destruct (Z.ltb_spec (r_fork r) 0) as [Hneg | Hpos].
  { run. intros [= _ _ <-]. by repeat constructor. }
  run. unfold zoom.
  destruct ((loop_while _ _ _ _ ≫= _) _) as [[r1 st1] t1] eqn:Hloop.
  intros [= _ _ <-].
  assert (Forall (signals_only (r_fork r)) t1) as Ht1.
  { revert Hloop. match goal with |- ?m ?s = _ → _ =>
      assert (holds (child_is (r_fork r)) (signals_only (r_fork r)) m) as Hm
    end.
    { apply holds_bind; [apply loop_while_holds|].
      intros []. apply holds_split; [keeps_tac | emits_tac]. }
    intros Hloop. by apply Hm in Hloop as [_ ?]; [|left]. }
  repeat (constructor; [done|]). by rewrite ?app_nil_r.
Qed.

(** ** The report of the child's end, and the wait that is interrupted *)

Lemma stopped_app (a b : list event) : stopped (a ++ b) = stopped a ++ stopped b.
Proof. apply filter_app. Qed.

Lemma stopped_none (tr : list event) :
  Forall (λ ev, is_stopped ev = false) tr → stopped tr = [].
Proof.
  unfold stopped. induction 1 as [|ev tr Hev _ IH]; [done|].
  rewrite filter_cons_False; [done|]. rewrite Hev. by intros [].
Qed.

Lemma reap_stopped (torun : string) (r : wait_result) (st st' : Loop)
    (tr : list event) :
  0 < child st →
  reap torun r st = (Ret tt, st', tr) →
  stopped tr =
  match r with
  | WaitPid cpid ws =>
      if (cpid =? child st) && negb (WIFSTOPPED ws)
      then stopped_of torun (child st) ws else []
  | _ => []
  end.
Proof.
  intros Hchild. unfold reap, stopped_of. rewrite bind_run. simpl.
  destruct r as [|cpid ws|e]; simpl.
  - rewrite bind_run. simpl. rewrite (proj2 (Z.eqb_neq 0 (child st))) by lia.
    run. by intros [= _ <-].
  - rewrite bind_run. simpl. destruct (cpid =? child st) eqn:Hc; simpl.
    + destruct (WIFSTOPPED ws); run; [by intros [= _ <-]|].
      destruct (WIFEXITED ws); run; [by intros [= _ <-]|].
      destruct (WIFSIGNALED ws); run; [|done].
      destruct (negb _); simpl; run; [|by intros [= _ <-]].
      destruct (WCOREDUMP _); simpl; by intros [= _ <-].
    + destruct (cpid <? 0); run; [done|].
      destruct (negb (cpid =? 0)); run; [done|]. by intros [= _ <-].
  - rewrite bind_run. simpl. rewrite (proj2 (Z.eqb_neq (-1) (child st))) by lia.
    run. done.
Qed.

Lemma loop_body_stopped (torun : string) (po pe : Z) (t : Tick) (st st' : Loop)
    (tr : list event) :
  0 ≤ child st →
  loop_body torun po pe t st = (Ret tt, st', tr) →
  stopped tr =
  if child st =? 0 then []
  else match t_wait t with
       | WaitPid cpid ws =>
           if (cpid =? child st) && negb (WIFSTOPPED ws)
           then stopped_of torun (child st) ws else []
       | _ => []
       end.
Proof.
  intros Hchild (st2 & t2 & st3 & t3 & t5 & Hpipes & Hreap & Hfwd & ->)%loop_body_inv.
  rewrite !stopped_app.
  assert (stopped t2 = []) as ->.
  { apply stopped_none. revert Hpipes.
    generalize (set_sigs (handle (t_before t)) st) (Ret tt : result unit) st2 t2.
    change (emits (λ ev, is_stopped ev = false)
              (when (0 <? t_select t)
                 (when (negb (outeof st) && t_out_ready t)
                    (read_pipe stdout po (t_out t) (set_outeof true));;
                  when (negb (erreof st) && t_err_ready t)
                    (read_pipe stderr pe (t_err t) (set_erreof true))))).
    unfold read_pipe. emits_tac. }
  assert (stopped t5 = []) as ->.
  { apply stopped_none. revert Hfwd.
    generalize (set_sigs (handle (t_after_wait t)) st3) (Ret tt : result unit) st' t5.
    change (emits (λ ev, is_stopped ev = false) (forward torun (t_late t))).
    unfold forward. emits_tac. }
  rewrite app_nil_r. simpl.
  apply pipes_quiet in Hpipes as (_ & Hc2 & _ & _). simpl in Hc2.
  destruct (Z.eqb_spec (child st) 0) as [H0 | H0]; simpl in Hreap.
  - cbv [mret M_ret] in Hreap. by injection Hreap as _ <-.
  - apply reap_stopped in Hreap; [|lia]. by rewrite Hc2 in Hreap.
Qed.

Lemma loop_while_stopped (torun : string) (po pe : Z) (ticks : list Tick)
    (st st' : Loop) (tr : list event) :
  0 ≤ child st →
  loop_while torun po pe ticks st = (Ret tt, st', tr) →
  stopped tr =
  if child st =? 0 then []
  else match reaped (child st) ticks with
       | Some ws => stopped_of torun (child st) ws
       | None => []
       end.
Proof.
  revert st tr. induction ticks as [|t ticks IH]; intros st tr Hchild; simpl.
  { destruct (negb (child st =? 0) || _ || _); [done|]. intros [= _ <-].
    by destruct (child st =? 0). }
  destruct (negb (child st =? 0) || _ || _) eqn:Hgo.
  2:{ intros [= _ <-]. by destruct (child st =? 0). }
  intros ([] & st1 & t1 & t2 & Hbody & Hrest & ->)%bind_inv_ret.
  pose proof (loop_body_reaps _ _ _ _ _ _ _ Hchild Hbody) as Hb.
  pose proof (loop_body_stopped _ _ _ _ _ _ _ Hchild Hbody) as Hs.
  rewrite stopped_app, Hs.
  destruct (Z.eqb_spec (child st) 0) as [H0 | H0].
  - destruct Hb as [Hc1 _]. apply IH in Hrest; [|lia].
    by rewrite Hrest, Hc1.
  - destruct (t_wait t) as [|cpid ws|e];
      try (apply IH in Hrest; [|lia]; rewrite Hrest, Hb;
           by rewrite (proj2 (Z.eqb_neq _ _) H0)).
    destruct ((cpid =? child st) && negb (WIFSTOPPED ws)).
    + destruct Hb as (Hc1 & _). apply IH in Hrest; [|lia].
      rewrite Hrest, Hc1. simpl. by rewrite app_nil_r.
    + apply IH in Hrest; [|lia]. rewrite Hrest, Hb.
      by rewrite (proj2 (Z.eqb_neq _ _) H0).
Qed.

(** X16.  A run that returns has reaped the child, and it reports the
    end of the child with an EV_STOPPED event exactly when the child exited:
    there is one such event, with the pid of the child and its exit code,
    which is what the run returns.  For a child that a signal killed there
    is no such event, and the run returns the number of the signal. *)
Theorem loop_stopped_event (svc : string) (run : list string) (r : Run)
    (s s' : SigState) (stat : Z) (tr : list event) :
  loop svc run r s = (Ret stat, s', tr) →
  ∃ ws,
    reaped (r_fork r) (r_ticks r) = Some ws ∧
    (WIFEXITED ws = true →
     stopped tr = [EV_STOPPED (torun_of run (r_fork r)) (r_fork r) stat] ∧
     stat = WEXITSTATUS ws) ∧
    (WIFEXITED ws = false → stopped tr = [] ∧ stat = WTERMSIG ws).
Proof.
  intros Hloop.
  pose proof (loop_reaps _ _ _ _ _ _ _ Hloop) as (ws & o & Hreaped & Ho & Hstat & _).
  exists ws. split; [done|].
  revert Hloop. unfold loop. destruct (r_pipes r) as [[pstdout pstderr]|e]; [|by run].
  run. destruct (Z.eqb_spec (r_fork r) 0) as [H0 | H0].
  { run. destruct (r_exec r); by run. }
  destruct (Z.ltb_spec (r_fork r) 0) as [Hneg | Hpos]; [by run|].
  run. unfold zoom.
  destruct ((loop_while _ _ _ _ ≫= _) _) as [[r1 st1] t1] eqn:Hloop.
  intros [= -> <- <-].
  apply bind_inv_ret in Hloop as ([] & st2 & t2 & t3 & Hwhile & Hret & ->).
  rewrite bind_run in Hret. simpl in Hret. injection Hret as _ _ <-.
  apply loop_while_stopped in Hwhile; [|simpl; lia]. simpl in Hwhile.
  rewrite (proj2 (Z.eqb_neq _ _) H0), Hreaped in Hwhile.
  assert (stopped
            (LOG debug ("stdout pipe " +:+ pretty pstdout.1 +:+ " <- "
                        +:+ pretty pstdout.2 +:+ "; stderr pipe "
                        +:+ pretty pstderr.1 +:+ " <- " +:+ pretty pstderr.2)
             :: Fork
             :: LOG debug ("started " +:+ default EmptyString (head run) +:+ " (pid "
                           +:+ pretty (r_fork r) +:+ ")")
             :: EV_STARTING (torun_of run (r_fork r))
             :: Close pstdout.2 :: Close pstderr.2 :: t2 ++ [])
          = stopped_of (torun_of run (r_fork r)) (r_fork r) ws) as ->.
  { rewrite app_nil_r. exact Hwhile. }
  unfold decode in Ho. unfold stopped_of.
  destruct (WIFEXITED ws) eqn:He.
  - injection Ho as <-. simpl in Hstat. subst stat. split; [done|]. done.
  - destruct (WIFSIGNALED ws); [|done]. injection Ho as <-. simpl in Hstat.
    subst stat. split; [done|]. done.
Qed.

Lemma handle_gotstopsig (sigs : list Z) (s : SigState) :
  gotstopsig (handle sigs s) = if bool_decide (sigs = []) then gotstopsig s else 1.
Proof.
  destruct sigs as [|sig sigs _] using rev_ind; [done|].
  rewrite handle_app. simpl. rewrite bool_decide_eq_false_2; [done|].
  by destruct sigs.
Qed.

(** X17.  The wait before a restart sleeps one second at a time and
    does nothing else.  It ends with the first sleep during which the
    handler runs: no sleep before the last one was interrupted, the stop is
    requested at the end exactly when the last one was, and when no stop is
    requested the wait has lasted until the restart interval was over. *)
Theorem restart_wait_interrupted (restart laststart : Z) (naps : list Nap)
    (d d' : Daemon) (tr : list event) :
  gotstopsig (signals d) = 0 →
  restart_wait restart laststart naps d = (Ret tt, d', tr) →
  ∃ k : nat,
    tr = replicate k (Sleep 1) ∧
    (k ≤ length naps)%nat ∧
    Forall (λ n, n_sigs n = []) (take (Nat.pred k) naps) ∧
    (gotstopsig (signals d') ≠ 0 ↔
     (0 < k)%nat ∧ ∃ n, naps !! Nat.pred k = Some n ∧ n_sigs n ≠ []) ∧
    (gotstopsig (signals d') = 0 → restart ≤ clock d' - laststart).
Proof.
  revert d tr. induction naps as [|n naps IH]; intros d tr Hquiet; simpl;
    rewrite Hquiet; simpl.
  { destruct (Z.ltb_spec (clock d - laststart) restart); [done|].
    intros [= <- <-]. exists 0%nat. simpl. split; [done|]. split; [done|].
    split; [done|]. split; [|done]. split; [done|]. intros [? _]. lia. }
  destruct (Z.ltb_spec (clock d - laststart) restart) as [Hlt | Hge].
  2:{ intros [= <- <-]. exists 0%nat. simpl. split; [done|]. split; [lia|].
      split; [done|]. split; [|done]. split; [done|]. intros [? _]. lia. }
  unfold sleep. run.
  destruct (restart_wait restart laststart naps _) as [[r1 d1] t1] eqn:Hrest.
  intros [= -> <- <-].
  destruct (decide (n_sigs n = [])) as [Hn | Hn].
  - apply IH in Hrest as (k & -> & Hk & Hall & Hiff & Hclock).
    2:{ simpl. by rewrite handle_gotstopsig, bool_decide_eq_true_2. }
    exists (S k). simpl. split; [done|]. split; [lia|].
    destruct k as [|k]; simpl in *.
    + split; [done|]. split; [|done]. rewrite Hiff. split.
      * intros [? _]. lia.
      * intros [_ (n' & [= <-] & Hne)]. done.
    + split; [by constructor|]. split; [|done]. rewrite Hiff. split.
      * intros [_ H]. split; [lia | done].
      * intros [_ H]. split; [lia | done].
  - assert (gotstopsig (handle (n_sigs n) (signals d)) = 1) as Hstop.
    { by rewrite handle_gotstopsig, bool_decide_eq_false_2. }
    assert (t1 = [] ∧ gotstopsig (signals d1) = 1) as [-> Hd1].
    { revert Hrest. destruct naps; simpl; rewrite Hstop; simpl;
        by intros [= <- <-]. }
    exists 1%nat. simpl. split; [done|]. split; [lia|]. split; [done|].
    split; [|lia]. split; [|lia]. intros _. split; [lia|]. by exists n.
Qed.

(** ** The end of the supervisor *)

(** [writePid] on an open pid file, the disk not full. *)
Lemma writePid_run (pf : PidFile) (w : World) :
  0 ≤ _fd pf →
  is_Some (fs w !! _pidfile pf) →
  full w = false →
  ∃ w',
    writePid pf w =
    (Ret tt, w',
     [Ftruncate (_pidfile pf);
      WriteFd (_pidfile pf) (pretty (self w) +:+ nl);
      LOG debug ("wrote '" +:+ (pretty (self w) +:+ nl) +:+ "' to " +:+ _pidfile pf
                 +:+ " (fd " +:+ pretty (_fd pf) +:+ ")")]) ∧
    fs w' = <[_pidfile pf := pretty (self w) +:+ nl]> (fs w) ∧
    self w' = self w ∧ flocked w' = flocked w ∧ fds w' = fds w ∧ procs w' = procs w.
Proof.
  intros Hfd [old Hold] Hfull. unfold writePid.
  rewrite (proj2 (Z.ltb_ge _ _)) by lia. unfold ftruncate, write. run.
  rewrite Hfull. run. rewrite Z.eqb_refl. simpl. run.
  eexists. split; [reflexivity|]. simpl. split; [|done].
  rewrite Hold, lookup_insert_eq. by rewrite insert_insert_eq.
Qed.

(** The pid read back from a file that holds a pid as [writePid] writes it. *)
Lemma owner_pid_written (pf : PidFile) (w : World) (n : Z) :
  fs w !! _pidfile pf = Some (pretty n +:+ nl) →
  0 < n < 2 ^ 31 →
  owner_pid pf w = n.
Proof. intros Hfile Hn. unfold owner_pid. by rewrite Hfile, atoi_pretty. Qed.

(** [cleanUp] by the process whose pid the file holds. *)
Lemma cleanUp_mine (pf : PidFile) (w : World) :
  owner_pid pf w = self w →
  0 ≤ _fd pf →
  ∃ e,
    cleanUp pf w =
    (Ret (with_fd pf (-1)),
     set_flocked (λ s, s ∖ {[_pidfile pf]})
       (set_fds (λ s, s ∖ {[_fd pf]}) (set_fs (delete (_pidfile pf)) (set_errno e w))),
     [Remove (_pidfile pf); Close (_fd pf)]).
Proof.
  intros Hmine Hfd. unfold cleanUp. rewrite bind_run.
  destruct (isMine_run pf w) as [e ->]. rewrite Hmine, Z.eqb_refl. run.
  rewrite (proj2 (Z.leb_le 0 (_fd pf))) by lia. run. by exists e.
Qed.

(** The restart loop leaves the world of the process as it is: it works on
    the signal flags and the clock only. *)
Lemma restart_wait_world (P : World → Prop) (restart laststart : Z) (naps : list Nap) :
  keeps (λ d, P (world d)) (restart_wait restart laststart naps).
Proof.
  induction naps as [|n naps IH]; intros d r d' tr Hd; simpl;
    destruct (_ && _); try (by intros [= _ <- _]).
  apply (keeps_bind (λ d, P (world d))); [|by intros _ | done].
  unfold sleep. keeps_tac; done.
Qed.

Lemma cycle_world (P : World → Prop) (restart : Z) (service : string)
    (run : list string) (c : Cycle) :
  keeps (λ d, P (world d)) (cycle restart service run c).
Proof.
  unfold cycle, time. keeps_tac; try done.
  - by apply keeps_zoom_frame.
  - apply restart_wait_world.
Qed.

Lemma restart_loop_world (P : World → Prop) (restart : Z) (service : string)
    (run : list string) (cycles : list Cycle) :
  keeps (λ d, P (world d)) (restart_loop restart service run cycles).
Proof.
  induction cycles as [|c cycles IH]; simpl; [apply keeps_pending|].
  apply keeps_bind; [apply cycle_world | intros stat].
  apply keeps_bind; [apply keeps_get | intros d].
  destruct (_ && _); [done | apply keeps_ret].
Qed.



(** X18.  When the try block of the supervisor ends with a status, the
    supervisor finds its own pid in the pid file, removes the file, closes
    the descriptor, giving up the lock, and exits with that status; the
    removal and the closing are the last things it does.  (The pid file is
    open and exists, the disk is not full, and, as in the whole model of the
    supervisor, no other process writes the file during the runs.) *)
Theorem supervise_normal_end (restart : Z) (service : string) (run : list string)
    (pf : PidFile) (cycles : list Cycle) (d d1 : Daemon) (stat : Z)
    (tr1 : list event) :
  0 ≤ _fd pf →
  is_Some (fs (world d) !! _pidfile pf) →
  full (world d) = false →
  0 < self (world d) < 2 ^ 31 →
  (in_world (writePid pf);; restart_loop restart service run cycles) d
    = (Ret stat, d1, tr1) →
  ∃ d' tr,
    supervise restart service run pf cycles d = (Exit stat, d', tr) ∧
    (∃ before, tr = tr1 ++ before ++ [Remove (_pidfile pf); Close (_fd pf)]) ∧
    fs (world d') = delete (_pidfile pf) (fs (world d)) ∧
    flocked (world d') = flocked (world d) ∖ {[_pidfile pf]} ∧
    fds (world d') = fds (world d) ∖ {[_fd pf]} ∧
    signals d' = signals d1.
Proof.
  intros Hfd Hfile Hfull Hself Hbody.
  destruct (writePid_run pf (world d) Hfd Hfile Hfull)
    as (w1 & Hwrite & Hfs1 & Hself1 & Hfl1 & Hfds1 & _).
  unfold supervise. rewrite bind_run. unfold try_catch. rewrite Hbody.
  apply bind_inv_ret in Hbody as ([] & d0 & t0 & t1 & Hw & Hloop & ->).
  unfold in_world, zoom in Hw. rewrite Hwrite in Hw. injection Hw as <- <-.
  assert (world d1 = w1) as Hworld.
  { exact (restart_loop_world (λ w, w = w1) _ _ _ _ (set_world w1 d) _ _ _
             eq_refl Hloop). }
  destruct (cleanUp_mine pf w1) as [e Hclean]; [|done|].
  { rewrite Hself1. apply owner_pid_written; [|done].
    by rewrite Hfs1, lookup_insert_eq. }
  destruct (0 <? restart); simpl; run; unfold in_world, zoom;
    rewrite Hworld, Hclean; simpl; do 2 eexists; (split; [reflexivity|]);
    simpl; rewrite Hfs1, Hfl1, Hfds1, delete_insert_eq;
    (split; [|done]).
  - by exists [LOG debug ("final exit status: " +:+ pretty stat)].
  - by exists [].
Qed.


(** ** The detached process *)

(** [open] returns the lowest descriptor that is free: 0 after [close(0)],
    and 1 after [close(1)] when 0 is open. *)
Lemma lowest_free_zero (s : gset Z) : 0 ∉ s → lowest_free s = 0.
Proof.
  intros H0. unfold lowest_free.
  destruct (decide (size s = 0%nat)) as [-> | Hsize]; [done|].
  rewrite seqZ_cons by lia. by rewrite filter_cons_True.
Qed.

Lemma lowest_free_one (s : gset Z) : 0 ∈ s → 1 ∉ s → lowest_free s = 1.
Proof.
  intros H0 H1. unfold lowest_free.
  assert (size s ≠ 0%nat) as Hsize.
  { intros Hs. apply size_empty_iff in Hs. by rewrite Hs in H0. }
  rewrite seqZ_cons by lia. rewrite filter_cons_False by (by intros ?).
  destruct (decide (size s = 1%nat)) as [-> | Hsize']; [done|].
  rewrite seqZ_cons by lia. by rewrite filter_cons_True.
Qed.

Lemma stdio_closed_0 (s : gset Z) : 0 ∉ s ∖ {[0]}.
Proof. rewrite elem_of_difference, elem_of_singleton. by intros [_ []]. Qed.

Lemma stdio_open_0 (s : gset Z) : 0 ∈ ({[0]} ∪ s ∖ {[0]}) ∖ {[1]}.
Proof.
  rewrite elem_of_difference, elem_of_union, !elem_of_singleton. split; [by left|done].
Qed.

Lemma stdio_closed_1 (s : gset Z) : 1 ∉ ({[0]} ∪ s ∖ {[0]}) ∖ {[1]}.
Proof. rewrite elem_of_difference, elem_of_singleton. by intros [_ []]. Qed.

Lemma stdio_fds (s : gset Z) :
  {[2]} ∪ ({[1]} ∪ ({[0]} ∪ s ∖ {[0]}) ∖ {[1]}) = {[0; 1; 2]} ∪ s.
Proof.
  apply set_eq. intros x.
  rewrite !elem_of_union, !elem_of_difference, !elem_of_union, !elem_of_difference,
    !elem_of_singleton.
  destruct (decide (x = 0)), (decide (x = 1)), (decide (x = 2)); subst; tauto.
Qed.

(** The detached process up to its try block, when /dev/null can be opened
    both ways and setsid succeeds. *)
Lemma detached_run (restart : Z) (service : string) (run : list string)
    (pf : PidFile) (sc : Script) (d : Daemon) :
  is_Some (fs (world d) !! "/dev/null") →
  "/dev/null" ∉ readonly (world d) →
  ∃ w1,
    fds w1 = {[0; 1; 2]} ∪ fds (world d) ∧
    fs w1 = fs (world d) ∧ flocked w1 = flocked (world d) ∧
    self w1 = self (world d) ∧ full w1 = full (world d) ∧ procs w1 = procs (world d) ∧
    match d_setsid sc with
    | SysErr e =>
        detached restart service run pf sc d =
        (Exit 1, set_world (set_errno e w1) d,
         [Close 0; Open "/dev/null"; Close 1; Open "/dev/null"; Dup2 1 2; Setsid;
          Printf stderr ("setsid: " +:+ strerror e +:+ nl)])
    | SysOk =>
        detached restart service run pf sc d =
        let '(r, d', tr) :=
          supervise restart service run pf (d_cycles sc) (set_world w1 d) in
        (r, d',
         [Close 0; Open "/dev/null"; Close 1; Open "/dev/null"; Dup2 1 2; Setsid;
          Sigaction SIGINT; Sigaction SIGTERM] ++ tr)
    end.
Proof.
  unfold detached, in_world, zoom, close, open_rdonly, open_wronly, perror.
  intros [c Hnull] Hro. run. rewrite Hnull. run.
  rewrite lowest_free_zero by apply stdio_closed_0.
  rewrite Z.eqb_refl. simpl. run.
  rewrite bool_decide_eq_false_2 by done. rewrite Hnull. run.
  rewrite lowest_free_one by (apply stdio_open_0 || apply stdio_closed_1).
  rewrite Z.eqb_refl. simpl. run.
  eexists. split; [|split; [|split; [|split; [|split; [|split]]]]].
  7:{ destruct (d_setsid sc) as [|e]; run; [|reflexivity].
      destruct (supervise _ _ _ _ _ _) as [[r d'] tr]. reflexivity. }
  all: simpl; try done. apply stdio_fds.
Qed.

(** X20.  The detached process points its standard descriptors at
    /dev/null and becomes a session leader before anything else.  When
    /dev/null cannot be opened for reading, or for writing, or when setsid
    fails, it says so on stderr and exits with status 1: no handler is
    installed, no file has changed.  Otherwise 0, 1 and 2 are open, the
    handler is installed for SIGINT and for SIGTERM, in this order, and the
    process goes on as the supervisor.  (The descriptor of the pid file is
    none of 0, 1 and 2.) *)
Theorem detached_prologue (restart : Z) (service : string) (run : list string)
    (pf : PidFile) (sc : Script) (d : Daemon) :
  ¬ 0 ≤ _fd pf ≤ 2 →
  (fs (world d) !! "/dev/null" = None →
   ∃ d',
     detached restart service run pf sc d =
     (Exit 1, d',
      [Close 0; Open "/dev/null";
       Printf stderr ("open /dev/null for reading failed: " +:+ strerror ENOENT +:+ nl)]) ∧
     fs (world d') = fs (world d)) ∧
  (is_Some (fs (world d) !! "/dev/null") → "/dev/null" ∈ readonly (world d) →
   ∃ d',
     detached restart service run pf sc d =
     (Exit 1, d',
      [Close 0; Open "/dev/null"; Close 1; Open "/dev/null";
       Printf stderr ("open /dev/null for writing failed: " +:+ strerror EACCES +:+ nl)]) ∧
     fs (world d') = fs (world d)) ∧
  (is_Some (fs (world d) !! "/dev/null") → "/dev/null" ∉ readonly (world d) →
   ∃ w1,
     fds w1 = {[0; 1; 2]} ∪ fds (world d) ∧
     fs w1 = fs (world d) ∧ flocked w1 = flocked (world d) ∧
     self w1 = self (world d) ∧
     match d_setsid sc with
     | SysErr e =>
         detached restart service run pf sc d =
         (Exit 1, set_world (set_errno e w1) d,
          [Close 0; Open "/dev/null"; Close 1; Open "/dev/null"; Dup2 1 2; Setsid;
           Printf stderr ("setsid: " +:+ strerror e +:+ nl)])
     | SysOk =>
         detached restart service run pf sc d =
         let '(r, d', tr) :=
           supervise restart service run pf (d_cycles sc) (set_world w1 d) in
         (r, d',
          [Close 0; Open "/dev/null"; Close 1; Open "/dev/null"; Dup2 1 2; Setsid;
           Sigaction SIGINT; Sigaction SIGTERM] ++ tr)
     end).
Proof.
  intros _. split; [|split].
  - unfold detached, in_world, zoom, close, open_rdonly, perror.
    intros Hnull. run. rewrite Hnull. run. eexists. split; [reflexivity|]. done.
  - unfold detached, in_world, zoom, close, open_rdonly, open_wronly, perror.
    intros [c Hnull] Hro. run. rewrite Hnull. run.
    rewrite lowest_free_zero by apply stdio_closed_0.
    rewrite Z.eqb_refl. simpl. run.
    rewrite bool_decide_eq_true_2 by done. run.
    eexists. split; [reflexivity|]. done.
  - intros Hnull Hro.
    destruct (detached_run restart service run pf sc d Hnull Hro)
      as (w1 & Hfds & Hfs & Hfl & Hself & _ & _ & Hrun).
    by exists w1.
Qed.

(** X21.  From [main] to the supervisor.  Started with 0, 1 and 2 open,
    the pid file free and /dev/null at hand, the forked child takes the lock
    on a descriptor above 2, points its standard descriptors at /dev/null,
    becomes a session leader, installs the two handlers, and then is the
    supervisor: no signal is recorded, the clock is at the start, the pid is
    its own, the pid file exists and is locked, and the other files are as
    [main] found them. *)
Theorem start_detached (e : Env) (prog : string) (opts : list (ascii * string))
    (args : list string) (w : World) (o : Options) :
  (options prog opts defaults w).1.1 = Ret o →
  doStop o = false →
  args ≠ [] →
  killcmd o = None →
  root_dir e w ∈ dirs w →
  running (mypf_of o) w = false →
  pidfile o ∉ readonly w →
  pidfile o ∉ flocked w →
  {[0; 1; 2]} ⊆ fds w →
  is_Some (fs w !! "/dev/null") →
  "/dev/null" ∉ readonly w →
  forked e = 0 →
  d_setsid (script e) = SysOk →
  ∃ fd d0,
    main e prog opts args w =
    (let '(r, d', tr) :=
       supervise (restart o) (service o) args
         {| _pidfile := pidfile o; _fd := fd |} (d_cycles (script e)) d0 in
     (r, world d',
      preamble e w ++ probe (mypf_of o) w ++
      [Open (pidfile o); Flock (pidfile o); Cloexec fd; Fork;
       Close 0; Open "/dev/null"; Close 1; Open "/dev/null"; Dup2 1 2; Setsid;
       Sigaction SIGINT; Sigaction SIGTERM] ++ tr)) ∧
    2 < fd ∧ fd ∈ fds (world d0) ∧
    signals d0 = no_signal ∧ clock d0 = started e ∧
    self (world d0) = d_pid (script e) ∧
    is_Some (fs (world d0) !! pidfile o) ∧
    (∀ path, path ≠ pidfile o → fs (world d0) !! path = fs w !! path) ∧
    flocked (world d0) = {[pidfile o]} ∪ flocked w ∧
    full (world d0) = full w.
Proof.
  intros Ho Hstop Hargs Hkill Hdir Hrun Hro Hlk Hstd Hnull Hnullro Hfork Hsid.
  rewrite (main_run _ _ _ _ _ _ Ho Hdir), Hstop. unfold start.
  destruct (at_home_pid e (mypf_of o) w) as (Hpid & Hrun' & Hprobe).
  destruct (at_home_files e w) as (Hfs & _ & _ & Hlock & Hro' & _).
  assert (fds (at_home e w) = fds w ∧ full (at_home e w) = full w) as [Hfds Hfull].
  { unfold at_home. by destruct (environ w !! "ROOT") as [[|c r]|]. }
  rewrite Hkill, bool_decide_eq_false_2 by done.
  rewrite bool_decide_eq_false_2 by (by intros []). simpl.
  destruct (isRunning_run (mypf_of o) (at_home e w)) as [e1 Hisrun].
  rewrite (bind_ret_run _ _ _ _ _ _ Hisrun), Hrun', Hrun, Hprobe.
  rewrite bind_run, writeOpen_success; [|simpl; lia|simpl; by rewrite Hro'|
                                        simpl; by rewrite Hlock].
  simpl. rewrite Hfds. run. rewrite Hfork, Z.eqb_refl. run.
  pose proof (lowest_free_fresh (fds w)) as Hfresh.
  pose proof (lowest_free_nonneg (fds w)) as Hnonneg.
  set (fd := lowest_free (fds w)) in *.
  assert (2 < fd) as Hfd.
  { assert (fd ∉@{gset Z} {[0; 1; 2]}) as Hnot by (intros Hin; by apply Hfresh, Hstd).
    rewrite !not_elem_of_union, !not_elem_of_singleton in Hnot. lia. }
  unfold from_start.
  match goal with
  | |- context [detached _ _ _ ?pf ?sc ?d] =>
      destruct (detached_run (restart o) (service o) args pf sc d)
        as (w1 & Hfds1 & Hfs1 & Hfl1 & Hself1 & Hfull1 & _ & Hdet)
  end.
  { simpl. rewrite Hfs. destruct Hnull as [c Hc].
    destruct (fs w !! pidfile o) eqn:E; [by rewrite Hc|].
    destruct (decide ("/dev/null" = pidfile o)) as [<- | Hne];
      [by rewrite lookup_insert_eq|].
    by rewrite lookup_insert_ne, Hc. }
  { simpl. by rewrite Hro'. }
  rewrite Hsid in Hdet. rewrite Hdet. clear Hdet.
  simpl in Hfds1, Hfs1, Hfl1, Hself1, Hfull1.
  set (pre := preamble e w). clearbody pre.
  set (pr := probe (mypf_of o) w). clearbody pr.
  match goal with
  | |- context [supervise _ _ _ _ _ ?d] => exists fd, d
  end.
  split.
  { destruct (supervise _ _ _ _ _ _) as [[r d'] tr]. simpl.
    by rewrite <- !app_assoc. }
  simpl. rewrite Hfds1, Hfs1, Hfl1, Hself1, Hfull1, Hfs, Hlock, Hfull.
  split; [done|]. split.
  { rewrite !elem_of_union, !elem_of_singleton. auto. }
  split; [done|]. split; [done|].
  split; [done|]. split; [|split; [|done]].
  - destruct (fs w !! pidfile o) eqn:E; [by rewrite E | by rewrite lookup_insert_eq].
  - intros path Hne. destruct (fs w !! pidfile o); [done|].
    by rewrite lookup_insert_ne.
Qed.

(** * The theorems at concrete invocations *)

Lemma pid_file_liveness_witness :
  (∃ w', readPid Example.lock Example.busy = (Ret 812, w', [])) ∧
  (isRunning Example.lock Example.busy).1.1 = Ret true ∧
  (isRunning Example.lock Example.left_behind).1.1 = Ret false ∧
  (isRunning Example.lock Example.garbled).1.1 = Ret false.
Proof.
  assert (Hnl : ∀ d r, nl = String d r → isdigit d = false)
    by (by intros d r [= <- _]).
  split; [|split; [|split]].
  - destruct (pid_file_liveness Example.lock Example.busy)
      as (pid & w' & Hread & _ & _ & Hnum & _).
    rewrite (Hnum 812 nl eq_refl ltac:(lia) Hnl) in Hread. by exists w'.
  - destruct (pid_file_liveness Example.lock Example.busy)
      as (pid & w' & _ & _ & _ & Hnum & Hlive & _).
    rewrite (Hnum 812 nl eq_refl ltac:(lia) Hnl) in Hlive.
    apply Hlive. split; [lia | by left].
  - destruct (pid_file_liveness Example.lock Example.left_behind)
      as (pid & w' & _ & _ & _ & Hnum & _ & Hdead).
    rewrite (Hnum 812 nl eq_refl ltac:(lia) Hnl) in Hdead.
    apply Hdead. by right.
  - destruct (pid_file_liveness Example.lock Example.garbled)
      as (pid & w' & Hread & _ & Hbad & _ & _ & Hdead).
    apply Hdead. left. rewrite (Hbad ("not a pid" +:+ nl) eq_refl); [lia|].
    intros Hd. simpl in Hd.
    apply decimal_inv in Hd as [[Hc _] | [Hd | [[Hc | Hc] _]]]; discriminate.
Defined.

Lemma stop_when_not_running_witness :
  (options "runserver" [("S"%char, EmptyString)] defaults Example.empty).1.1
    = Ret Example.stopping ∧
  doStop Example.stopping = true ∧
  root_dir Example.env Example.empty ∈ dirs Example.empty ∧
  running (mypf_of Example.stopping) Example.empty = false ∧
  ∃ w' tr,
    main Example.env "runserver" [("S"%char, EmptyString)] [] Example.empty
      = (Exit 0, w', tr) ∧
    exit_status 0 = 0 ∧
    Printf stdout (service Example.stopping +:+ " not running according to "
                  +:+ pidfile Example.stopping +:+ nl) ∈ tr ∧
    Forall signals_nobody tr ∧
    Remove (pidfile Example.stopping) ∈ tr ∧
    fs w' = delete (pidfile Example.stopping) (fs Example.empty) ∧
    flocked w' = flocked Example.empty.
Proof.
  assert (H1 : (options "runserver" [("S"%char, EmptyString)] defaults
                  Example.empty).1.1 = Ret Example.stopping) by reflexivity.
  assert (H2 : doStop Example.stopping = true) by reflexivity.
  assert (H3 : root_dir Example.env Example.empty ∈ dirs Example.empty)
    by (vm_compute; reflexivity).
  assert (H4 : running (mypf_of Example.stopping) Example.empty = false)
    by (vm_compute; reflexivity).
  split; [exact H1|]. split; [exact H2|]. split; [exact H3|]. split; [exact H4|].
  exact (stop_when_not_running Example.env "runserver" [("S"%char, EmptyString)] []
           Example.empty Example.stopping H1 H2 H3 H4).
Defined.

Lemma start_when_running_witness :
  (options "runserver" [] defaults Example.busy).1.1 = Ret defaults ∧
  doStop defaults = false ∧
  ["/bin/sleep"; "100"] ≠ [] ∧
  killcmd defaults = None ∧
  root_dir Example.env Example.busy ∈ dirs Example.busy ∧
  running (mypf_of defaults) Example.busy = true ∧
  ∃ w' tr,
    main Example.env "runserver" [] ["/bin/sleep"; "100"] Example.busy
      = (Exit 0, w', tr) ∧
    exit_status 0 = 0 ∧
    tr = preamble Example.env Example.busy ++
         [Kill (owner_pid (mypf_of defaults) Example.busy) 0;
          Printf stderr ("runserver already running with pid "
                        +:+ pretty (owner_pid (mypf_of defaults) Example.busy) +:+ nl)] ∧
    Forall starts_nothing tr ∧
    fs w' = fs Example.busy ∧ flocked w' = flocked Example.busy ∧
    fds w' = fds Example.busy.
Proof.
  assert (H1 : (options "runserver" [] defaults Example.busy).1.1 = Ret defaults)
    by reflexivity.
  assert (H2 : doStop defaults = false) by reflexivity.
  assert (H3 : ["/bin/sleep"; "100"] ≠ ([] : list string)) by discriminate.
  assert (H4 : killcmd defaults = None) by reflexivity.
  assert (H5 : root_dir Example.env Example.busy ∈ dirs Example.busy)
    by (vm_compute; reflexivity).
  assert (H6 : running (mypf_of defaults) Example.busy = true)
    by (vm_compute; reflexivity).
  split; [exact H1|]. split; [exact H2|]. split; [exact H3|]. split; [exact H4|].
  split; [exact H5|]. split; [exact H6|].
  exact (start_when_running Example.env "runserver" [] ["/bin/sleep"; "100"]
           Example.busy defaults H1 H2 H3 H4 H5 H6).
Defined.



(** C2 as the spec has it fails on the pid file of [Example.stale]:
    nobody holds the lock and [writeOpen] would take it, yet [main] finds
    the recorded pid alive, opens and locks nothing, forks nothing and
    exits with status 0. *)
Lemma stale_pid_file_blocks_start :
  ("vespa-runserver.pid" ∉ flocked Example.stale) ∧
  (writeOpen (mypf_of defaults) Example.stale).1.1
    = Ret (true, with_fd (mypf_of defaults) 3) ∧
  (main Example.env "runserver" [] ["/bin/sleep"; "100"] Example.stale).1.1 = Exit 0 ∧
  Forall starts_nothing
    (main Example.env "runserver" [] ["/bin/sleep"; "100"] Example.stale).2.
Proof.
  split; [vm_compute; discriminate|]. split; [reflexivity|]. split; [reflexivity|].
  vm_compute. repeat constructor.
Qed.

Lemma start_over_pid_file_witness :
  (options "runserver" [] defaults Example.left_behind).1.1 = Ret defaults ∧
  doStop defaults = false ∧
  ["/bin/sleep"; "100"] ≠ [] ∧
  killcmd defaults = None ∧
  root_dir Example.env Example.left_behind ∈ dirs Example.left_behind ∧
  fs Example.left_behind !! pidfile defaults = Some ("812" +:+ nl) ∧
  running (mypf_of defaults) Example.left_behind = false ∧
  running (mypf_of defaults) Example.stale = true ∧
  (∃ r w' tr,
     main Example.env "runserver" [] ["/bin/sleep"; "100"] Example.left_behind
       = (r, w', tr) ∧
     Open (pidfile defaults) ∈ tr ∧ Flock (pidfile defaults) ∈ tr ∧ Fork ∈ tr) ∧
  (∃ w' tr,
     main Example.env "runserver" [] ["/bin/sleep"; "100"] Example.stale
       = (Exit 0, w', tr) ∧
     Forall starts_nothing tr).
Proof.
  assert (H1 : (options "runserver" [] defaults Example.left_behind).1.1 = Ret defaults)
    by reflexivity.
  assert (H2 : doStop defaults = false) by reflexivity.
  assert (H3 : ["/bin/sleep"; "100"] ≠ ([] : list string)) by discriminate.
  assert (H4 : killcmd defaults = None) by reflexivity.
  assert (H5 : root_dir Example.env Example.left_behind ∈ dirs Example.left_behind)
    by (vm_compute; reflexivity).
  assert (H6 : fs Example.left_behind !! pidfile defaults = Some ("812" +:+ nl))
    by (vm_compute; reflexivity).
  assert (H7 : running (mypf_of defaults) Example.left_behind = false)
    by (vm_compute; reflexivity).
  assert (H8 : running (mypf_of defaults) Example.stale = true)
    by (vm_compute; reflexivity).
  assert (H9 : root_dir Example.env Example.stale ∈ dirs Example.stale)
    by (vm_compute; reflexivity).
  assert (Hfree : (pidfile defaults ∉ readonly Example.left_behind) ∧
                  (pidfile defaults ∉ flocked Example.left_behind))
    by (split; vm_compute; discriminate).
  split; [exact H1|]. split; [exact H2|]. split; [exact H3|]. split; [exact H4|].
  split; [exact H5|]. split; [exact H6|]. split; [exact H7|]. split; [exact H8|].
  split.
  - destruct (start_over_pid_file Example.env "runserver" [] ["/bin/sleep"; "100"]
                Example.left_behind defaults H1 H2 H3 H4 H5)
      as (r & w' & tr & Hmain & Hcase).
    rewrite H7 in Hcase. destruct Hcase as (Hopen & Hflock & Hfork & _).
    exists r, w', tr. split; [exact Hmain|]. split; [exact Hopen|].
    split; [apply Hflock; apply Hfree | apply Hfork; exact Hfree].
  - destruct (start_over_pid_file Example.env "runserver" [] ["/bin/sleep"; "100"]
                Example.stale defaults H1 H2 H3 H4 H9)
      as (r & w' & tr & Hmain & Hcase).
    rewrite H8 in Hcase. destruct Hcase as (-> & _ & Hquiet & _).
    exists w', tr. split; [exact Hmain | exact Hquiet].
Defined.

(** C3 as the spec has it fails on a target that does not die: the loop
    polls for 180 seconds, not for 60 at most. *)
Lemma stop_wait_polls_three_minutes :
  slept (stop_wait Example.env 812 1800 0 Example.busy).2 = 180 * 1000000 ∧
  ¬ (slept (stop_wait Example.env 812 1800 0 Example.busy).2 ≤ 60 * 1000000).
Proof.
  assert (H : slept (stop_wait Example.env 812 1800 0 Example.busy).2 = 180 * 1000000)
    by (vm_compute; reflexivity).
  split; [exact H|]. rewrite H. lia.
Qed.

Lemma fading_gone_at (pgrp k : Z) : gone_at (Example.fading pgrp k) pgrp k.
Proof.
  intros cnt w _. unfold answers. simpl.
  destruct (Z.ltb_spec cnt k).
  - rewrite lookup_singleton_eq, !bool_decide_eq_true_2; done.
  - rewrite lookup_empty, !bool_decide_eq_false_2; [done | lia | done].
Defined.

Lemma stop_escalation_witness :
  gone_at (Example.fading 812 1000) 812 1000 ∧
  0 ≤ 1000 ∧
  ∃ w' tr,
    stop_wait (Example.fading 812 1000) 812 1800 0 Example.busy = (Ret tt, w', tr) ∧
    (∀ usec, Usleep usec ∈ tr → usec = 100000) ∧
    slept tr = 100000 * Z.min (1000 + 1) 1800 ∧
    (∀ t sig, sig ≠ 0 →
       (t, Killpg 812 sig) ∈ stamped 0 tr ↔
       (sig = SIGTERM ∧
        ∃ cnt, t = cnt + 1 ∧ 300 < cnt ∧ Z.rem cnt 100 = 0 ∧ cnt ≤ 1000 ∧ cnt < 1800) ∨
       (sig = SIGKILL ∧ t = 901 ∧ 900 < 1000)) ∧
    length (filter (λ ev, ev = Killpg 812 SIGKILL) tr) =
      (if bool_decide (900 < 1000) then 1%nat else 0%nat) ∧
    (1000 < 1800 → last tr = Some (Printf stdout ("DONE" +:+ nl))).
Proof.
  assert (H2 : 0 ≤ 1000) by lia.
  split; [exact (fading_gone_at 812 1000)|]. split; [exact H2|].
  exact (stop_escalation (Example.fading 812 1000) 812 1000 Example.busy
           (fading_gone_at 812 1000) H2).
Defined.

Lemma reap_signaled_witness :
  WIFSIGNALED 139 = true ∧
  ∃ tr,
    reap "/bin/false (pid 500)" (WaitPid (child Example.terminating) 139)
      Example.terminating
    = (Ret tt, set_child 0 (set_wstat 139 Example.terminating), tr) ∧
    (WTERMSIG 139 ≠ lastsig (sigs Example.terminating) →
     tr = LOG warning ("child died from signal: " +:+ pretty (WTERMSIG 139))
          :: (if WCOREDUMP 139
              then [LOG info ("child " +:+ pretty (child Example.terminating)
                              +:+ " dumped core")]
              else [])) ∧
    (WTERMSIG 139 = lastsig (sigs Example.terminating) → tr = []).
Proof.
  assert (H1 : WIFSIGNALED 139 = true) by reflexivity.
  split; [exact H1|].
  exact (reap_signaled "/bin/false (pid 500)" 139 Example.terminating H1).
Defined.

(** C5 fails on a signal that is handled between [kill] and the store to
    [unhandledsig]. SIGTERM is handled during select and forwarded; SIGINT
    is handled after [kill(child, lastsig)] has sent SIGTERM and before
    [unhandledsig = 0]. The turn sends the child SIGTERM only and ends with
    SIGINT recorded as the last signal and the pending flag cleared: the
    flag was cleared though the pending SIGINT was not forwarded, and the
    next turn forwards nothing. *)
Lemma pending_signal_lost :
  let turn := loop_body "/bin/false (pid 500)" 4 6 Example.overtaken
                Example.supervising in
  turn.1.1 = Ret tt ∧
  child turn.1.2 = 500 ∧
  kills turn.2 = [(500, SIGTERM)] ∧
  lastsig (sigs turn.1.2) = SIGINT ∧
  unhandledsig (sigs turn.1.2) = 0 ∧
  kills (loop_body "/bin/false (pid 500)" 4 6 Example.idle turn.1.2).2 = [].
Proof. vm_compute. repeat split; reflexivity. Qed.

Lemma final_status_witness :
  let body := (in_world (writePid Example.lock);;
               restart_loop 0 "runserver" ["/bin/false"] [Example.once])
                Example.detached_start in
  body = (Ret 1, body.1.2, body.2) ∧
  ∃ n c ws o d' tr,
    [Example.once] !! n = Some c ∧
    starts body.2 = S n ∧
    reaped (r_fork (c_run c)) (r_ticks (c_run c)) = Some ws ∧
    decode ws = Some o ∧
    supervise 0 "runserver" ["/bin/false"] Example.lock [Example.once]
      Example.detached_start = (Exit (outcome_status o), d', tr) ∧
    exit_status (outcome_status o) = outcome_status o.
Proof.
  intros body.
  assert (H1 : body = (Ret 1, body.1.2, body.2)) by (vm_compute; reflexivity).
  split; [exact H1|].
  exact (final_status 0 "runserver" ["/bin/false"] Example.lock [Example.once]
           Example.detached_start body.1.2 1 body.2 H1).
Defined.

Lemma restart_policy_witness :
  let d := Example.detached_start in
  let turn := cycle 5 "runserver" ["/bin/false"] Example.once d in
  let d' := turn.1.2 in
  let tr := turn.2 in
  turn = (Ret 1, d', tr) ∧
  (¬ (0 < 5 ∧ gotstopsig (signals d') = 0) →
   restart_loop 5 "runserver" ["/bin/false"] [Example.once] d = (Ret 1, d', tr)) ∧
  (0 < 5 ∧ gotstopsig (signals d') = 0 →
   restart_loop 5 "runserver" ["/bin/false"] [Example.once] d =
   let '(r, d'', tr') := restart_loop 5 "runserver" ["/bin/false"] [] d' in
   (r, d'', tr ++ tr')) ∧
  (Forall sound_sleep (c_naps Example.once) → gotstopsig (signals d') = 0 →
   let laststart := clock d in
   let now := clock d + c_elapsed Example.once in
   let delay := Z.max 0 (5 - (now - laststart)) in
   clock d' = now + delay ∧
   clock d' - laststart = Z.max 5 (c_elapsed Example.once) ∧
   ∃ before, tr = before ++ replicate (Z.to_nat delay) (Sleep 1)).
Proof.
  intros d turn d' tr.
  assert (H1 : turn = (Ret 1, d', tr)) by (vm_compute; reflexivity).
  split; [exact H1|].
  exact (restart_policy 5 "runserver" ["/bin/false"] Example.once [] d d' 1 tr H1).
Defined.

(** ** The further properties at concrete invocations *)

Lemma readPid_first_line_witness :
  fs Example.stale !! _pidfile Example.lock = Some ("812" +:+ nl) ∧
  readPid Example.lock Example.stale =
  (Ret (atoi (substring 0 99 (first_line ("812" +:+ nl)))), Example.stale, []).
Proof.
  assert (H1 : fs Example.stale !! _pidfile Example.lock = Some ("812" +:+ nl))
    by (vm_compute; reflexivity).
  split; [exact H1|].
  exact (readPid_first_line Example.lock Example.stale ("812" +:+ nl) H1).
Defined.

Lemma writePid_readPid_witness :
  let w := world Example.detached_start in
  0 ≤ _fd Example.lock ∧
  is_Some (fs w !! _pidfile Example.lock) ∧
  full w = false ∧
  0 < self w < 2 ^ 31 ∧
  ∃ w' tr,
    writePid Example.lock w = (Ret tt, w', tr) ∧
    fs w' = <[_pidfile Example.lock := pretty (self w) +:+ nl]> (fs w) ∧
    WriteFd (_pidfile Example.lock) (pretty (self w) +:+ nl) ∈ tr ∧
    readPid Example.lock w' = (Ret (self w), w', []) ∧
    (isMine Example.lock w').1.1 = Ret true.
Proof.
  intros w.
  assert (H1 : 0 ≤ _fd Example.lock) by (vm_compute; discriminate).
  assert (H2 : is_Some (fs w !! _pidfile Example.lock))
    by (exists EmptyString; vm_compute; reflexivity).
  assert (H3 : full w = false) by reflexivity.
  assert (H4 : 0 < self w < 2 ^ 31) by (vm_compute; split; reflexivity).
  split; [exact H1|]. split; [exact H2|]. split; [exact H3|]. split; [exact H4|].
  exact (writePid_readPid Example.lock w H1 H2 H3 H4).
Defined.

Lemma writePid_fails_witness :
  ∃ w',
    writePid Example.lock Example.no_space =
    (Exit 1, w',
     [Ftruncate "vespa-runserver.pid"; WriteFd "vespa-runserver.pid" ("4242" +:+ nl);
      Printf stderr ("could not write pid to vespa-runserver.pid: "
                     +:+ "No space left on device" +:+ nl)]) ∧
    fs w' = <["vespa-runserver.pid" := EmptyString]> (fs Example.no_space) ∧
    (isRunning Example.lock w').1.1 = Ret false.
Proof.
  destruct (writePid_fails Example.lock Example.no_space) as [_ Hfull].
  destruct Hfull as (w' & Hrun & _ & _ & Hfile);
    [vm_compute; discriminate | reflexivity|].
  destruct Hfile as (Hfs & _ & Hdead);
    [exists ("812" +:+ nl); vm_compute; reflexivity|].
  exists w'. split; [exact Hrun|]. split; [exact Hfs | exact Hdead].
Defined.

Lemma writeOpen_outcome_witness :
  _fd (mypf_of defaults) < 0 ∧
  ∃ ok pf' w' tr,
    writeOpen (mypf_of defaults) Example.stale = (Ret (ok, pf'), w', tr) ∧
    ok = true ∧ _fd pf' = 3 ∧
    fs w' = fs Example.stale ∧
    flocked w' = {[ "vespa-runserver.pid" ]} ∪ flocked Example.stale.
Proof.
  assert (H1 : _fd (mypf_of defaults) < 0) by (vm_compute; reflexivity).
  split; [exact H1|].
  destruct (writeOpen_outcome (mypf_of defaults) Example.stale H1)
    as (ok & pf' & w' & tr & Hrun & _ & Hkeep & _ & Hok & _).
  exists ok, pf', w', tr. split; [exact Hrun|].
  assert (Hyes : ok = true).
  { vm_compute in Hrun. by injection Hrun as <- _ _ _. }
  destruct (Hok Hyes) as (Hfd & _ & _ & Hlock & _).
  split; [exact Hyes|]. split; [by rewrite Hfd|].
  split; [exact (Hkeep ("812" +:+ nl) eq_refl) | exact Hlock].
Defined.

Lemma cleanUp_outcome_witness :
  ∃ pf' w' tr,
    cleanUp Example.lock Example.busy = (Ret pf', w', tr) ∧
    _fd pf' = -1 ∧
    fs w' = fs Example.busy ∧ (∀ path, Remove path ∉ tr) ∧
    fds w' = fds Example.busy ∖ {[3]}.
Proof.
  destruct (cleanUp_outcome Example.lock Example.busy)
    as (pf' & w' & tr & Hrun & Hfd & _ & _ & Hkeep & _ & Hclose & _).
  destruct Hkeep as [Hfs Hrm]; [split; vm_compute; [discriminate | reflexivity]|].
  destruct Hclose as [Hfds _]; [vm_compute; discriminate|].
  exists pf', w', tr. split; [exact Hrun|]. split; [exact Hfd|].
  split; [exact Hfs|]. split; [exact Hrm | exact Hfds].
Defined.

Lemma options_last_wins_witness :
  let opts := [("p"%char, "a.pid"); ("r"%char, "5"); ("S"%char, EmptyString);
               ("p"%char, "b.pid")] in
  Forall (λ p, recognized p.1) opts ∧
  options "runserver" opts defaults Example.empty =
  (Ret {| doStop := true; restart := 5; service := "runserver"; pidfile := "b.pid";
          killcmd := None |}, Example.empty, []).
Proof.
  intros opts.
  assert (H1 : Forall (λ p, recognized p.1) opts).
  { by repeat constructor. }
  split; [exact H1|].
  exact (options_last_wins "runserver" opts defaults Example.empty H1).
Defined.

Lemma main_usage_witness :
  Forall (λ p, recognized p.1) [("S"%char, EmptyString)] ∧
  ¬ recognized "x" ∧
  main Example.env "runserver"
    ([("S"%char, EmptyString)] ++ ("x"%char, EmptyString) :: [("h"%char, EmptyString)])
    [] Example.busy =
  (Exit 1, Example.busy,
   [Sigignore SIGQUIT;
    Printf stderr ("runserver: invalid option -- 'x'" +:+ nl);
    Printf stderr (usage_text "runserver")]).
Proof.
  assert (H1 : Forall (λ p, recognized p.1) [("S"%char, EmptyString)]).
  { by repeat constructor. }
  assert (H2 : ¬ recognized "x").
  { unfold recognized. rewrite !elem_of_cons, elem_of_nil.
    intros [|[|[|[|[|]]]]]; discriminate || done. }
  split; [exact H1|]. split; [exact H2|].
  exact (main_usage Example.env "runserver" [("S"%char, EmptyString)]
           [("h"%char, EmptyString)] "x" EmptyString [] Example.busy H1 H2).
Defined.

Lemma main_chdir_fails_witness :
  (options "runserver" [] defaults Example.homeless).1.1 = Ret defaults ∧
  (root_dir Example.env Example.homeless ∉ dirs Example.homeless) ∧
  main Example.env "runserver" [] ["/bin/sleep"; "100"] Example.homeless =
  (Exit 1, set_errno ENOENT (at_home Example.env Example.homeless),
   preamble Example.env Example.homeless ++
   [Printf stderr ("Cannot chdir to " +:+ root_dir Example.env Example.homeless +:+ ": "
                   +:+ strerror ENOENT +:+ nl)]) ∧
  exit_status 1 = 1.
Proof.
  assert (H1 : (options "runserver" [] defaults Example.homeless).1.1 = Ret defaults)
    by reflexivity.
  assert (H2 : root_dir Example.env Example.homeless ∉ dirs Example.homeless)
    by (vm_compute; discriminate).
  split; [exact H1|]. split; [exact H2|].
  exact (main_chdir_fails Example.env "runserver" [] ["/bin/sleep"; "100"] Example.homeless
           defaults H1 H2).
Defined.

Lemma stop_exit_status_witness :
  (options "runserver" [("S"%char, EmptyString)] defaults Example.stale).1.1
    = Ret Example.stopping ∧
  doStop Example.stopping = true ∧
  root_dir Example.env Example.stale ∈ dirs Example.stale ∧
  ∃ w' tr,
    main Example.env "runserver" [("S"%char, EmptyString)] [] Example.stale
      = (Exit 1, w', tr) ∧
    fs w' = fs Example.stale ∧ slept tr = 0 ∧ (∀ path, Remove path ∉ tr).
Proof.
  assert (H1 : (options "runserver" [("S"%char, EmptyString)] defaults
                  Example.stale).1.1 = Ret Example.stopping) by reflexivity.
  assert (H2 : doStop Example.stopping = true) by reflexivity.
  assert (H3 : root_dir Example.env Example.stale ∈ dirs Example.stale)
    by (vm_compute; reflexivity).
  split; [exact H1|]. split; [exact H2|]. split; [exact H3|].
  destruct (stop_exit_status Example.env "runserver" [("S"%char, EmptyString)] []
              Example.stale Example.stopping H1 H2 H3)
    as (es & w' & tr & Hrun & Hes & _ & Hfail).
  assert (Hone : es = 1) by (rewrite Hes; vm_compute; reflexivity).
  destruct (Hfail Hone) as (Hfs & Hslept & Hrm & _).
  exists w', tr. rewrite <- Hone. split; [exact Hrun|].
  split; [exact Hfs|]. split; [exact Hslept | exact Hrm].
Defined.

Lemma stop_with_command_witness :
  let opts := [("S"%char, EmptyString); ("k"%char, "stop.sh")] in
  (options "runserver" opts defaults Example.busy).1.1 = Ret Example.stopping_with ∧
  doStop Example.stopping_with = true ∧
  killcmd Example.stopping_with = Some "stop.sh" ∧
  root_dir Example.env Example.busy ∈ dirs Example.busy ∧
  running (mypf_of Example.stopping_with) Example.busy = true ∧
  ∃ w' before after,
    main Example.env "runserver" opts [] Example.busy
      = (Exit 0, w', before ++ System "stop.sh" :: after) ∧
    Forall signals_nobody before ∧
    (∀ c, System c ∉ after) ∧
    (∀ text, Printf stderr text ∉ after).
Proof.
  intros opts.
  assert (H1 : (options "runserver" opts defaults Example.busy).1.1
               = Ret Example.stopping_with) by reflexivity.
  assert (H2 : doStop Example.stopping_with = true) by reflexivity.
  assert (H3 : killcmd Example.stopping_with = Some "stop.sh") by reflexivity.
  assert (H4 : root_dir Example.env Example.busy ∈ dirs Example.busy)
    by (vm_compute; reflexivity).
  assert (H5 : running (mypf_of Example.stopping_with) Example.busy = true)
    by (vm_compute; reflexivity).
  split; [exact H1|]. split; [exact H2|]. split; [exact H3|]. split; [exact H4|].
  split; [exact H5|].
  destruct (stop_with_command Example.env "runserver" opts [] Example.busy
              Example.stopping_with "stop.sh" H1 H2 H3 H4 H5)
    as (e1 & w' & before & after & Hrun & Hquiet & _ & Hone & Hwarn & Honly).
  exists w', before, after. split; [exact Hrun|]. split; [exact Hquiet|].
  split; [exact Hone|]. intros text Hin.
  rewrite (Honly text Hin) in Hin. apply Hwarn in Hin. by apply Hin.
Defined.

Lemma start_parent_witness :
  (options "runserver" [] defaults Example.empty).1.1 = Ret defaults ∧
  doStop defaults = false ∧
  ["/bin/sleep"; "100"] ≠ [] ∧
  killcmd defaults = None ∧
  root_dir Example.env Example.empty ∈ dirs Example.empty ∧
  running (mypf_of defaults) Example.empty = false ∧
  (pidfile defaults ∉ readonly Example.empty) ∧
  (pidfile defaults ∉ flocked Example.empty) ∧
  forked Example.env ≠ 0 ∧
  ∃ w',
    main Example.env "runserver" [] ["/bin/sleep"; "100"] Example.empty =
    (Exit 0, w',
     preamble Example.env Example.empty ++
     [Open "vespa-runserver.pid"; Flock "vespa-runserver.pid"; Cloexec 3; Fork;
      Printf stdout ("runserver(runserver) running with pid: 4711" +:+ nl);
      Close 3]) ∧
    fds w' = fds Example.empty ∧
    "vespa-runserver.pid" ∈ flocked w' ∧
    fs w' !! "vespa-runserver.pid" = Some EmptyString.
Proof.
  assert (H1 : (options "runserver" [] defaults Example.empty).1.1 = Ret defaults)
    by reflexivity.
  assert (H2 : doStop defaults = false) by reflexivity.
  assert (H3 : ["/bin/sleep"; "100"] ≠ ([] : list string)) by discriminate.
  assert (H4 : killcmd defaults = None) by reflexivity.
  assert (H5 : root_dir Example.env Example.empty ∈ dirs Example.empty)
    by (vm_compute; reflexivity).
  assert (H6 : running (mypf_of defaults) Example.empty = false)
    by (vm_compute; reflexivity).
  assert (H7 : pidfile defaults ∉ readonly Example.empty)
    by (vm_compute; discriminate).
  assert (H8 : pidfile defaults ∉ flocked Example.empty)
    by (vm_compute; discriminate).
  assert (H9 : forked Example.env ≠ 0) by (vm_compute; discriminate).
  split; [exact H1|]. split; [exact H2|]. split; [exact H3|]. split; [exact H4|].
  split; [exact H5|]. split; [exact H6|]. split; [exact H7|]. split; [exact H8|].
  split; [exact H9|].
  destruct (start_parent Example.env "runserver" [] ["/bin/sleep"; "100"]
              Example.empty defaults H1 H2 H3 H4 H5 H6 H7 H8 H9)
    as (w' & Hrun & Hfds & Hlock & Hfile & _).
  exists w'. split; [exact Hrun|]. split; [exact Hfds|].
  split; [apply Hlock; vm_compute; reflexivity | exact Hfile].
Defined.

Lemma reap_aborts_witness :
  0 < child Example.supervising ∧
  (reap "/bin/false (pid 500)" (WaitPid 500 0xffff) Example.supervising).1.1 = Abort ∧
  (reap "/bin/false (pid 500)" (WaitPid 500 0x137f) Example.supervising).1.1 = Ret tt.
Proof.
  assert (H1 : 0 < child Example.supervising) by (vm_compute; reflexivity).
  split; [exact H1|]. split.
  - destruct (reap_aborts "/bin/false (pid 500)" (WaitPid 500 0xffff)
                Example.supervising H1) as (res & st' & tr & -> & _ & Habort & _).
    apply Habort. vm_compute. reflexivity.
  - destruct (reap_aborts "/bin/false (pid 500)" (WaitPid 500 0x137f)
                Example.supervising H1) as (res & st' & tr & -> & Hres & Habort & _).
    destruct Hres as [Hres | Hres]; [exact Hres|].
    apply Habort in Hres. vm_compute in Hres. discriminate.
Defined.

Lemma loop_drains_witness :
  let turns := loop_while "/bin/false (pid 500)" 4 6 [Example.idle; Example.ended 256]
                 Example.supervising in
  4 ≠ 6 ∧
  outeof Example.supervising = false ∧
  erreof Example.supervising = false ∧
  turns = (Ret tt, turns.1.2, turns.2) ∧
  child turns.1.2 = 0 ∧ outeof turns.1.2 = true ∧ erreof turns.1.2 = true ∧
  (∃ n, pipe_events stdout 4 turns.2 = replicate n (Drain stdout) ++ [Close 4]) ∧
  (∃ n, pipe_events stderr 6 turns.2 = replicate n (Drain stderr) ++ [Close 6]).
Proof.
  intros turns.
  assert (H1 : 4 ≠ 6) by discriminate.
  assert (H2 : outeof Example.supervising = false) by reflexivity.
  assert (H3 : erreof Example.supervising = false) by reflexivity.
  assert (H4 : turns = (Ret tt, turns.1.2, turns.2)) by (vm_compute; reflexivity).
  split; [exact H1|]. split; [exact H2|]. split; [exact H3|]. split; [exact H4|].
  exact (loop_drains "/bin/false (pid 500)" 4 6 [Example.idle; Example.ended 256]
           Example.supervising turns.1.2 turns.2 H1 H2 H3 H4).
Defined.

Lemma loop_signals_child_witness :
  let run := loop "runserver" ["/bin/false"] Example.run_false
               (termsig SIGTERM no_signal) in
  run = (Ret 1, run.1.2, run.2) ∧
  Kill 500 SIGTERM ∈ run.2 ∧
  Forall (signals_only 500) run.2.
Proof.
  intros run.
  assert (H1 : run = (Ret 1, run.1.2, run.2)) by (vm_compute; reflexivity).
  split; [exact H1|]. split.
  - apply (bool_decide_eq_true_1 (Kill 500 SIGTERM ∈ run.2)). vm_compute. reflexivity.
  - exact (loop_signals_child "runserver" ["/bin/false"] Example.run_false
             (termsig SIGTERM no_signal) run.1.2 (Ret 1) run.2 H1).
Defined.

Lemma loop_stopped_event_witness :
  let run := loop "runserver" ["/bin/false"] Example.run_false no_signal in
  run = (Ret 1, run.1.2, run.2) ∧
  stopped run.2 = [EV_STOPPED "/bin/false (pid 500)" 500 1].
Proof.
  intros run.
  assert (H1 : run = (Ret 1, run.1.2, run.2)) by (vm_compute; reflexivity).
  split; [exact H1|].
  destruct (loop_stopped_event "runserver" ["/bin/false"] Example.run_false no_signal
              run.1.2 1 run.2 H1) as (ws & Hreaped & Hexit & _).
  vm_compute in Hreaped. injection Hreaped as <-.
  destruct Hexit as [Hstopped _]; [reflexivity|]. exact Hstopped.
Defined.

Lemma restart_wait_interrupted_witness :
  let wait := restart_wait 60 1000 [Example.sound; Example.woken; Example.sound]
                Example.detached_start in
  gotstopsig (signals Example.detached_start) = 0 ∧
  wait = (Ret tt, wait.1.2, wait.2) ∧
  ∃ k : nat,
    wait.2 = replicate k (Sleep 1) ∧
    (k ≤ 3)%nat ∧
    Forall (λ n, n_sigs n = [])
      (take (Nat.pred k) [Example.sound; Example.woken; Example.sound]) ∧
    (gotstopsig (signals wait.1.2) ≠ 0 ↔
     (0 < k)%nat ∧
     ∃ n, [Example.sound; Example.woken; Example.sound] !! Nat.pred k = Some n ∧
          n_sigs n ≠ []) ∧
    (gotstopsig (signals wait.1.2) = 0 → 60 ≤ clock wait.1.2 - 1000).
Proof.
  intros wait.
  assert (H1 : gotstopsig (signals Example.detached_start) = 0) by reflexivity.
  assert (H2 : wait = (Ret tt, wait.1.2, wait.2)) by (vm_compute; reflexivity).
  split; [exact H1|]. split; [exact H2|].
  exact (restart_wait_interrupted 60 1000 [Example.sound; Example.woken; Example.sound]
           Example.detached_start wait.1.2 wait.2 H1 H2).
Defined.

Lemma supervise_normal_end_witness :
  let d := Example.detached_start in
  let body := (in_world (writePid Example.lock);;
               restart_loop 0 "runserver" ["/bin/false"] [Example.once]) d in
  0 ≤ _fd Example.lock ∧
  is_Some (fs (world d) !! _pidfile Example.lock) ∧
  full (world d) = false ∧
  0 < self (world d) < 2 ^ 31 ∧
  body = (Ret 1, body.1.2, body.2) ∧
  ∃ d' tr,
    supervise 0 "runserver" ["/bin/false"] Example.lock [Example.once] d
      = (Exit 1, d', tr) ∧
    (∃ before, tr = body.2 ++ before ++ [Remove (_pidfile Example.lock);
                                          Close (_fd Example.lock)]) ∧
    fs (world d') = delete (_pidfile Example.lock) (fs (world d)) ∧
    flocked (world d') = flocked (world d) ∖ {[_pidfile Example.lock]} ∧
    fds (world d') = fds (world d) ∖ {[_fd Example.lock]} ∧
    signals d' = signals body.1.2.
Proof.
  intros d body.
  assert (H1 : 0 ≤ _fd Example.lock) by (vm_compute; discriminate).
  assert (H2 : is_Some (fs (world d) !! _pidfile Example.lock))
    by (exists EmptyString; vm_compute; reflexivity).
  assert (H3 : full (world d) = false) by reflexivity.
  assert (H4 : 0 < self (world d) < 2 ^ 31) by (vm_compute; split; reflexivity).
  assert (H5 : body = (Ret 1, body.1.2, body.2)) by (vm_compute; reflexivity).
  split; [exact H1|]. split; [exact H2|]. split; [exact H3|]. split; [exact H4|].
  split; [exact H5|].
  exact (supervise_normal_end 0 "runserver" ["/bin/false"] Example.lock [Example.once]
           d body.1.2 1 body.2 H1 H2 H3 H4 H5).
Defined.


Lemma detached_prologue_witness :
  ¬ 0 ≤ _fd Example.lock ≤ 2 ∧
  (∃ d',
     detached 0 "runserver" ["/bin/false"] Example.lock (script Example.env)
       Example.detached_start =
     (Exit 1, d',
      [Close 0; Open "/dev/null";
       Printf stderr ("open /dev/null for reading failed: " +:+ strerror ENOENT +:+ nl)]) ∧
     fs (world d') = fs (world Example.detached_start)).
Proof.
  assert (H1 : ¬ 0 ≤ _fd Example.lock ≤ 2).
  { intros [_ H]. vm_compute in H. by apply H. }
  split; [exact H1|].
  destruct (detached_prologue 0 "runserver" ["/bin/false"] Example.lock
              (script Example.env) Example.detached_start H1) as (Hnone & _).
  apply Hnone. vm_compute. reflexivity.
Defined.

Lemma start_detached_witness :
  (options "runserver" [] defaults Example.booted).1.1 = Ret defaults ∧
  doStop defaults = false ∧
  ["/bin/false"] ≠ [] ∧
  killcmd defaults = None ∧
  root_dir Example.child_env Example.booted ∈ dirs Example.booted ∧
  running (mypf_of defaults) Example.booted = false ∧
  (pidfile defaults ∉ readonly Example.booted) ∧
  (pidfile defaults ∉ flocked Example.booted) ∧
  {[0; 1; 2]} ⊆ fds Example.booted ∧
  is_Some (fs Example.booted !! "/dev/null") ∧
  ("/dev/null" ∉ readonly Example.booted) ∧
  forked Example.child_env = 0 ∧
  d_setsid (script Example.child_env) = SysOk ∧
  ∃ fd d0,
    main Example.child_env "runserver" [] ["/bin/false"] Example.booted =
    (let '(r, d', tr) :=
       supervise (restart defaults) (service defaults) ["/bin/false"]
         {| _pidfile := pidfile defaults; _fd := fd |} (d_cycles (script Example.child_env)) d0 in
     (r, world d',
      preamble Example.child_env Example.booted ++ probe (mypf_of defaults) Example.booted ++
      [Open (pidfile defaults); Flock (pidfile defaults); Cloexec fd; Fork;
       Close 0; Open "/dev/null"; Close 1; Open "/dev/null"; Dup2 1 2; Setsid;
       Sigaction SIGINT; Sigaction SIGTERM] ++ tr)) ∧
    2 < fd ∧ self (world d0) = 4711 ∧
    (main Example.child_env "runserver" [] ["/bin/false"] Example.booted).1.1 = Exit 1.
Proof.
  assert (H1 : (options "runserver" [] defaults Example.booted).1.1 = Ret defaults)
    by reflexivity.
  assert (H2 : doStop defaults = false) by reflexivity.
  assert (H3 : ["/bin/false"] ≠ ([] : list string)) by discriminate.
  assert (H4 : killcmd defaults = None) by reflexivity.
  assert (H5 : root_dir Example.child_env Example.booted ∈ dirs Example.booted)
    by (vm_compute; reflexivity).
  assert (H6 : running (mypf_of defaults) Example.booted = false) by (vm_compute; reflexivity).
  assert (H7 : pidfile defaults ∉ readonly Example.booted) by (vm_compute; discriminate).
  assert (H8 : pidfile defaults ∉ flocked Example.booted) by (vm_compute; discriminate).
  assert (H9 : {[0; 1; 2]} ⊆ fds Example.booted) by (by intros x Hx).
  assert (H10 : is_Some (fs Example.booted !! "/dev/null"))
    by (exists EmptyString; vm_compute; reflexivity).
  assert (H11 : "/dev/null" ∉ readonly Example.booted) by (vm_compute; discriminate).
  assert (H12 : forked Example.child_env = 0) by reflexivity.
  assert (H13 : d_setsid (script Example.child_env) = SysOk) by reflexivity.
  split; [exact H1|]. split; [exact H2|]. split; [exact H3|]. split; [exact H4|].
  split; [exact H5|]. split; [exact H6|]. split; [exact H7|]. split; [exact H8|].
  split; [exact H9|]. split; [exact H10|]. split; [exact H11|]. split; [exact H12|].
  split; [exact H13|].
  destruct (start_detached Example.child_env "runserver" [] ["/bin/false"] Example.booted defaults
              H1 H2 H3 H4 H5 H6 H7 H8 H9 H10 H11 H12 H13)
    as (fd & d0 & Hrun & Hfd & _ & _ & _ & Hself & _).
  exists fd, d0. split; [exact Hrun|]. split; [exact Hfd|]. split; [exact Hself|].
  vm_compute. reflexivity.
Defined.
